(** * The news aggregator of [cli.py]: store, ingestion, query and export

    A shallow embedding of the aggregator half of [cli.py] and of the
    library calls it relies on (sqlite3, pandas, csv, datetime), followed by
    the properties of the specification.

    Conventions.
    - A Python [str] is a Rocq [string], a sequence of 8-bit characters; the
      development covers ASCII text, on which [str.lower], the case folding
      of SQL [LIKE] and the digit class of [strptime] are the byte-wise
      functions written below.
    - A Python [int] is a [Z].
    - Code with effects runs in [Run]: a state monad over [World] (the
      committed table, the files, the lines printed, two call counters) whose
      results are [Return v] or [Raise e] for a Python exception.
    - What the process cannot decide by itself is read from an [Env]: the
      values of [uuid.uuid4()], the failures of the store and of the file
      system, the clock, and the encoders of pandas that are not analysed.
    - A path stands for the file it names: paths are taken resolved, so
      that two different strings name two different files.  The files are
      those that the exports write; the database is the file [DB_FILE],
      held as its table as long as no export overwrites it.

    The other half of [cli.py], the student records program, is embedded
    in module [Roster] below, with its own state and its own properties. *)

From Stdlib Require Import Ascii ZArith.
From stdpp Require Import base list strings gmap pretty sorting.

(** ** Python runtime *)

Module Py.

(** The exceptions that occur in the program. *)
Inductive Exc : Type :=
  | IntegrityError (msg : string)
  | OperationalError (msg : string)
  | ProgrammingError (msg : string)
  | ValueError (msg : string)
  | OSError (msg : string).

(** [str(e)] *)
Definition str (e : Exc) : string :=
  match e with
  | IntegrityError m | OperationalError m | ProgrammingError m
  | ValueError m | OSError m => m
  end.

(** Truth value of an optional string: [None] and [''] are false. *)
Definition truthy (o : option string) : bool :=
  match o with
  | None => false
  | Some s => negb (bool_decide (s = ""))
  end.

Definition chr (n : nat) : ascii := ascii_of_nat n.

Definition NL : ascii := chr 10.
Definition CR : ascii := chr 13.
Definition DQUOTE : ascii := chr 34.

Definition is_upper (c : ascii) : bool :=
  let n := nat_of_ascii c in (65 <=? n)%nat && (n <=? 90)%nat.

Definition lower_char (c : ascii) : ascii :=
  if is_upper c then ascii_of_nat (nat_of_ascii c + 32) else c.

(** [s.lower()] *)
Fixpoint lower (s : string) : string :=
  match s with
  | EmptyString => EmptyString
  | String c s' => String (lower_char c) (lower s')
  end.

Definition is_digit (c : ascii) : bool :=
  let n := nat_of_ascii c in (48 <=? n)%nat && (n <=? 57)%nat.

Definition digit_val (c : ascii) : nat := nat_of_ascii c - 48.

End Py.

(** ** Data model *)

(** A candidate article, and the visible part of a stored one: the keys of
    the dictionaries built by [fetch_mock_data], the columns of the frame
    returned by [execute_query]. *)
Record Article : Type := mkArticle {
  title : string;
  summary : option string;
  link : string;
  source : string;
  published_date : string }.

(** A row of table [articles]. *)
Record Row : Type := mkRow {
  row_id : string;
  row_data : Article }.

Global Instance Article_eq_dec : EqDecision Article.
Proof. solve_decision. Defined.

Global Instance Row_eq_dec : EqDecision Row.
Proof. solve_decision. Defined.

(** A pandas frame holding articles, in row order. *)
Abbreviation DataFrame := (list Article).

(** The figures of the summary printed by [save_articles]. *)
Record Report : Type := mkReport {
  attempted : Z;
  inserted : Z;
  duplicates : Z }.

(** ** Environment, world and the [Run] monad *)

Record Env : Type := mkEnv {
  (** the value of the [k]-th call of [uuid.uuid4()], as a string *)
  uuid4 : nat → string;
  (** the failure, if any, of the [k]-th access to the store *)
  db_fault : nat → option string;
  (** the failure, if any, of opening a path for writing *)
  fs_fault : string → option string;
  (** [datetime.now()] and the day before, in [DATE_FORMAT] *)
  today : string;
  yesterday : string;
  (** [os.linesep], the line terminator [to_csv] hands to [csv.writer] *)
  linesep : string;
  (** whether [csv.writer] treats a carriage return and a line feed as
      special whatever the line terminator (recent versions of the module
      do; older ones only look at the characters of the terminator) *)
  csv_quotes_newlines : bool;
  (** pandas encoders that are taken as given; [excel_bytes] is what
      [to_excel] leaves in the file it has opened *)
  excel_bytes : DataFrame → string;
  json_text : DataFrame → string;
  frame_to_string : DataFrame → string;
  (** the compression that [to_csv] and [to_json] infer from the extension
      of a path, as the function from the text to the bytes written; [None]
      for a path that is written as it is *)
  compression : string → option (string → string);
  (** the failure, if any, of [to_excel] before it opens the file: the
      module [openpyxl] is missing, the frame is too large for a sheet, the
      extension of the path is not one of a workbook *)
  excel_refusal : DataFrame → string → option string;
  (** the failure, if any, of [to_excel] once the file is open: [openpyxl]
      refuses the text of a cell *)
  excel_fault : DataFrame → option string }.

Record World : Type := mkWorld {
  db : list Row;
  fs : gmap string string;
  stdout : list string;
  uuid_calls : nat;
  db_calls : nat }.

Definition set_db (rows : list Row) (w : World) : World :=
  mkWorld rows (fs w) (stdout w) (uuid_calls w) (db_calls w).
Definition set_fs (f : gmap string string) (w : World) : World :=
  mkWorld (db w) f (stdout w) (uuid_calls w) (db_calls w).
Definition set_stdout (out : list string) (w : World) : World :=
  mkWorld (db w) (fs w) out (uuid_calls w) (db_calls w).
Definition set_uuid_calls (n : nat) (w : World) : World :=
  mkWorld (db w) (fs w) (stdout w) n (db_calls w).
Definition set_db_calls (n : nat) (w : World) : World :=
  mkWorld (db w) (fs w) (stdout w) (uuid_calls w) n.

Inductive Outcome (A : Type) : Type :=
  | Return (a : A)
  | Raise (e : Py.Exc).
Global Arguments Return {A} a.
Global Arguments Raise {A} e.

Definition Run (A : Type) : Type := World → Outcome A * World.

Global Instance Run_ret : MRet Run := λ A a w, (Return a, w).

Global Instance Run_bind : MBind Run := λ A B f m w,
  match m w with
  | (Return a, w') => f a w'
  | (Raise e, w') => (Raise e, w')
  end.

Definition raise {A} (e : Py.Exc) : Run A := λ w, (Raise e, w).

(** [try: m] with the outcome handed to the handlers. *)
Definition try {A} (m : Run A) : Run (Outcome A) := λ w,
  let '(r, w') := m w in (Return r, w').

Definition gets {A} (f : World → A) : Run A := λ w, (Return (f w), w).

Definition modify (f : World → World) : Run unit := λ w, (Return (), f w).

Definition print (line : string) : Run unit :=
  modify (λ w, set_stdout (stdout w ++ [line]) w).

(** ** Store: sqlite3 on [articles.db] *)

Definition DB_FILE : string := "articles.db".
Definition TABLE_NAME : string := "articles".

(** A connection sees the committed rows and its own pending inserts. *)
Abbreviation Conn := (list Row).

(** Every access to the store may fail; the [k]-th access fails when the
    environment says so.  (So do the accesses to a database file that an
    export has written over, which [sqlite3] refuses as not a database.) *)
Definition db_access (env : Env) : Run unit := λ w,
  let w' := set_db_calls (S (db_calls w)) w in
  match db_fault env (db_calls w) with
  | Some msg => (Raise (Py.OperationalError msg), w')
  | None => (Return (), w')
  end.

Definition get_db_connection (env : Env) : Run Conn :=
  db_access env;; gets db.

Definition commit (env : Env) (conn : Conn) : Run unit :=
  db_access env;; modify (set_db conn).

(** [CREATE TABLE IF NOT EXISTS]: the table of the model always exists. *)
Definition setup_database (env : Env) (conn : Conn) : Run unit :=
  db_access env;; commit env conn.

(** [INSERT INTO articles (id, title, summary, link, source, published_date)]
    under [id TEXT PRIMARY KEY] and [link TEXT UNIQUE NOT NULL]. *)
Definition execute_insert (env : Env) (conn : Conn) (row : Row) : Run Conn :=
  db_access env;;
  if bool_decide (row_id row ∈ row_id <$> conn) then
    raise (Py.IntegrityError "UNIQUE constraint failed: articles.id")
  else if bool_decide (link (row_data row) ∈ (link ∘ row_data) <$> conn) then
    raise (Py.IntegrityError "UNIQUE constraint failed: articles.link")
  else mret (conn ++ [row]).

(** ** Mock data *)

Definition all_articles (env : Env) : list Article :=
  [ mkArticle "AI Breakthrough: New LLM achieves record performance"
      (Some "Researchers have unveiled a massive new language model...")
      "http://sourcea.com/article1" "SourceA (Tech Weekly)" (today env);
    mkArticle "Global Markets Rally on Tech Stocks Optimism"
      (Some "The stock market saw significant gains driven by...")
      "http://sourceb.com/article2" "SourceB (Finance News)" (today env);
    mkArticle "The Future of Robotics in Manufacturing: A Deep Dive"
      (Some "Automation continues to reshape factory floors globally.")
      "http://sourcea.com/article3" "SourceA (Tech Weekly)" (yesterday env);
    mkArticle "New Policy Changes Affecting Small Businesses"
      (Some "Government introduces incentives for local entrepreneurs.")
      "http://sourcec.com/article4" "SourceC (Policy Hub)" (today env);
    mkArticle "AI Breakthrough: New LLM achieves record performance"
      (Some "Researchers have unveiled a massive new language model...")
      "http://sourcea.com/article1_v2" "SourceA (Tech Weekly)" (today env) ].

Definition fetch_mock_data (env : Env) (source_filter : option string)
    : list Article :=
  if Py.truthy source_filter then
    let f := default "" source_filter in
    filter (λ a, Py.lower (source a) = Py.lower f) (all_articles env)
  else all_articles env.

(** ** Ingestion *)

(** [df.drop_duplicates(subset=['link'], keep='first')]: [seen] holds the
    links of the rows already kept. *)
Fixpoint drop_duplicates_from (seen : list string) (df : list Article)
    : list Article :=
  match df with
  | [] => []
  | a :: df' =>
      if bool_decide (link a ∈ seen) then drop_duplicates_from seen df'
      else a :: drop_duplicates_from (link a :: seen) df'
  end.

Definition drop_duplicates (df : list Article) : list Article :=
  drop_duplicates_from [] df.

(** [[str(uuid.uuid4()) for _ in range(n)]] *)
Definition fresh_ids (env : Env) (n : nat) : Run (list string) := λ w,
  (Return (uuid4 env <$> seq (uuid_calls w) n),
   set_uuid_calls (uuid_calls w + n) w).

(** The loop over [df_deduped.iterrows()]: the two counters of the source
    are threaded with the connection. *)
Fixpoint insert_loop (env : Env) (conn : Conn) (rows : list Row)
    (new_articles_count duplicate_count : Z) : Run (Conn * Z * Z) :=
  match rows with
  | [] => mret (conn, new_articles_count, duplicate_count)
  | row :: rest =>
      r ← try (execute_insert env conn row);
      match r with
      | Return conn' =>
          insert_loop env conn' rest (new_articles_count + 1) duplicate_count
      | Raise (Py.IntegrityError _) =>
          insert_loop env conn rest new_articles_count (duplicate_count + 1)
      | Raise e =>
          print ("Error inserting article " +:+ title (row_data row)
                   +:+ ": " +:+ Py.str e);;
          insert_loop env conn rest new_articles_count duplicate_count
      end
  end.

(** [save_articles] returns [None] in Python; the model returns the figures
    of the summary it prints, and no figures when it prints none. *)
Definition save_articles (env : Env) (articles : list Article)
    : Run (option Report) :=
  match articles with
  | [] => print "No articles to save.";; mret None
  | _ :: _ =>
      let df_deduped := drop_duplicates articles in
      ids ← fresh_ids env (length df_deduped);
      let rows := zip_with mkRow ids df_deduped in
      conn ← get_db_connection env;
      print ("Attempting to insert " +:+ pretty (length df_deduped)
               +:+ " unique articles...");;
      '(conn', new_articles_count, _) ← insert_loop env conn rows 0%Z 0%Z;
      commit env conn';;
      let total := Z.of_nat (length articles) in
      let skipped := (total - new_articles_count)%Z in
      print (String Py.NL "--- Save Results ---");;
      print ("Total processed: " +:+ pretty total);;
      print ("New articles inserted: " +:+ pretty new_articles_count);;
      print ("Skipped as duplicates (in batch or DB): " +:+ pretty skipped);;
      mret (Some (mkReport total new_articles_count skipped))
  end.

(** ** SQL: [LIKE], three-valued logic, [ORDER BY] *)

Module Sql.

(** SQLite's [LIKE] without [ESCAPE]: [%] stands for any run of
    characters, [_] for any one character, every other character for
    itself up to ASCII case. *)
Fixpoint like_chars (p s : list ascii) : bool :=
  match p with
  | [] => match s with [] => true | _ :: _ => false end
  | c :: p' =>
      if bool_decide (c = "%"%char) then
        (fix any_suffix (s : list ascii) : bool :=
           like_chars p' s
           || match s with [] => false | _ :: s' => any_suffix s' end) s
      else
        match s with
        | [] => false
        | d :: s' =>
            (bool_decide (c = "_"%char)
             || bool_decide (Py.lower_char c = Py.lower_char d))
            && like_chars p' s'
        end
  end.

(** [x LIKE pattern] for a column that may hold NULL. *)
Definition like (x : option string) (pattern : string) : option bool :=
  (λ s, like_chars (String.list_ascii_of_string pattern) (String.list_ascii_of_string s))
    <$> x.

(** [OR] and [AND] on true, false and NULL. *)
Definition or3 (a b : option bool) : option bool :=
  match a, b with
  | Some true, _ | _, Some true => Some true
  | Some false, Some false => Some false
  | _, _ => None
  end.

Definition and3 (a b : option bool) : option bool :=
  match a, b with
  | Some false, _ | _, Some false => Some false
  | Some true, Some true => Some true
  | _, _ => None
  end.

(** [ORDER BY published_date DESC] on TEXT under the BINARY collation; the
    engine's sorter is taken to keep rows of equal key in table order. *)
Fixpoint insert_desc (x : Row) (l : list Row) : list Row :=
  match l with
  | [] => [x]
  | y :: l' =>
      if String.ltb (published_date (row_data x)) (published_date (row_data y))
      then y :: insert_desc x l'
      else x :: l
  end.

Fixpoint order_by_published_date_desc (l : list Row) : list Row :=
  match l with
  | [] => []
  | x :: l' => insert_desc x (order_by_published_date_desc l')
  end.

End Sql.

(** ** [datetime.strptime(s, '%Y-%m-%d')] *)

Module Strptime.

Definition DATE_FORMAT : string := "%Y-%m-%d".

Definition in_range (lo hi : nat) (c : ascii) : bool :=
  Py.is_digit c && (lo <=? Py.digit_val c)%nat && (Py.digit_val c <=? hi)%nat.

(** Each directive is a regular expression with a capture; a matcher lists
    the ways it can match a prefix, in the order the engine tries them,
    with the captured number and the rest of the input. *)

(** [(?P<Y>\d\d\d\d)] *)
Definition re_Y (s : list ascii) : list (nat * list ascii) :=
  match s with
  | a :: b :: c :: d :: r =>
      if Py.is_digit a && Py.is_digit b && Py.is_digit c && Py.is_digit d
      then [(1000 * Py.digit_val a + 100 * Py.digit_val b
             + 10 * Py.digit_val c + Py.digit_val d, r)]
      else []
  | _ => []
  end.

(** two characters, the first in [[lo1-hi1]], the second in [[lo2-hi2]] *)
Definition two (lo1 hi1 lo2 hi2 : nat) (s : list ascii)
    : list (nat * list ascii) :=
  match s with
  | a :: b :: r =>
      if in_range lo1 hi1 a && in_range lo2 hi2 b
      then [(10 * Py.digit_val a + Py.digit_val b, r)] else []
  | _ => []
  end.

Definition one (lo hi : nat) (s : list ascii) : list (nat * list ascii) :=
  match s with
  | a :: r => if in_range lo hi a then [(Py.digit_val a, r)] else []
  | _ => []
  end.

Definition lit (c : ascii) (s : list ascii) : list (list ascii) :=
  match s with
  | a :: r => if bool_decide (a = c) then [r] else []
  | [] => []
  end.

(** [(?P<m>1[0-2]|0[1-9]|[1-9])] *)
Definition re_m (s : list ascii) : list (nat * list ascii) :=
  two 1 1 0 2 s ++ two 0 0 1 9 s ++ one 1 9 s.

(** [(?P<d>3[0-1]|[1-2]\d|0[1-9]|[1-9]| [1-9])] *)
Definition re_d (s : list ascii) : list (nat * list ascii) :=
  two 3 3 0 1 s ++ two 1 2 0 9 s ++ two 0 0 1 9 s ++ one 1 9 s
  ++ (r ← lit " " s; one 1 9 r).

(** [format_regex.match(data_string)]: the first way to match the whole
    expression, backtracking over the alternatives. *)
Definition regex_match (s : list ascii) : option (nat * nat * nat * list ascii) :=
  head ('(y, r) ← re_Y s;
        r ← lit "-" r;
        '(m, r) ← re_m r;
        r ← lit "-" r;
        '(d, r) ← re_d r;
        [(y, m, d, r)]).

Definition is_leap (y : nat) : bool :=
  (y mod 4 =? 0)%nat && (negb (y mod 100 =? 0)%nat || (y mod 400 =? 0)%nat).

Definition days_in_month (y m : nat) : nat :=
  match m with
  | 2 => if is_leap y then 29 else 28
  | 4 | 6 | 9 | 11 => 30
  | _ => 31
  end.

Definition strptime (data_string : string) : Outcome (nat * nat * nat) :=
  match regex_match (String.list_ascii_of_string data_string) with
  | None =>
      Raise (Py.ValueError
        ("time data " +:+ data_string +:+ " does not match format " +:+ DATE_FORMAT))
  | Some (y, m, d, r) =>
      if negb (bool_decide (r = [])) then
        Raise (Py.ValueError
          ("unconverted data remains: " +:+ String.string_of_list_ascii r))
      else if (y <? 1)%nat then
        Raise (Py.ValueError ("year " +:+ pretty y +:+ " is out of range"))
      else if (days_in_month y m <? d)%nat then
        Raise (Py.ValueError "day is out of range for month")
      else Return (y, m, d)
  end.

End Strptime.

(** ** Query *)

(** The filter options of the [query] and [export] commands. *)
Record Args : Type := mkArgs {
  arg_source : option string;
  arg_keyword : option string;
  arg_date : option string }.

(** The conjuncts [build_query] can append to [WHERE 1=1]. *)
Inductive Clause : Type :=
  | SourceLike
  | KeywordLike
  | DateEq.

Global Instance Clause_eq_dec : EqDecision Clause.
Proof. solve_decision. Defined.

Definition clause_sql (c : Clause) : string :=
  match c with
  | SourceLike => " AND source LIKE :source"
  | KeywordLike => " AND (title LIKE :keyword OR summary LIKE :keyword)"
  | DateEq => " AND published_date = :date"
  end.

(** The text of the statement that a list of conjuncts stands for. *)
Definition sql_text (query : list Clause) : string :=
  "SELECT * FROM " +:+ TABLE_NAME +:+ " WHERE 1=1"
  +:+ foldr (λ c acc, clause_sql c +:+ acc) "" query
  +:+ " ORDER BY published_date DESC".

(** [base_query] is kept as the list of the conjuncts appended so far; the
    string of the source is [sql_text] of that list. *)
Definition build_query (args : Args)
    : Run (list Clause * gmap string string) :=
  let base_query : list Clause := [] in
  let params : gmap string string := ∅ in
  let '(base_query, params) :=
    if Py.truthy (arg_source args) then
      (base_query ++ [SourceLike],
       <["source" := "%" +:+ default "" (arg_source args) +:+ "%"]> params)
    else (base_query, params) in
  let '(base_query, params) :=
    if Py.truthy (arg_keyword args) then
      (base_query ++ [KeywordLike],
       <["keyword" := "%" +:+ default "" (arg_keyword args) +:+ "%"]> params)
    else (base_query, params) in
  if Py.truthy (arg_date args) then
    let date := default "" (arg_date args) in
    match Strptime.strptime date with
    | Return _ =>
        mret (base_query ++ [DateEq], <["date" := date]> params)
    | Raise (Py.ValueError _) =>
        print ("Warning: Invalid date format provided: " +:+ date
                 +:+ ". Required format is YYYY-MM-DD. Ignoring date filter.");;
        mret (base_query, params)
    | Raise e => raise e
    end
  else mret (base_query, params).

(** The condition a conjunct puts on a row, once its named parameter is
    bound; [None] when the parameter is not supplied. *)
Definition clause_cond (params : gmap string string) (c : Clause)
    : option (Row → option bool) :=
  match c with
  | SourceLike =>
      p ← params !! "source";
      Some (λ r, Sql.like (Some (source (row_data r))) p)
  | KeywordLike =>
      p ← params !! "keyword";
      Some (λ r, Sql.or3 (Sql.like (Some (title (row_data r))) p)
                         (Sql.like (summary (row_data r)) p))
  | DateEq =>
      p ← params !! "date";
      Some (λ r, Some (bool_decide (published_date (row_data r) = p)))
  end.

(** [WHERE 1=1 AND c1 AND ... AND cn]: a row is selected when the condition
    is true, not when it is false or NULL. *)
Definition where_true (conds : list (Row → option bool)) (r : Row) : bool :=
  bool_decide (foldl (λ acc c, Sql.and3 acc (c r)) (Some true) conds = Some true).

(** The rows a statement selects from a table, in result order. *)
Definition select (query : list Clause) (params : gmap string string)
    (table : list Row) : option (list Row) :=
  conds ← mapM (clause_cond params) query;
  Some (Sql.order_by_published_date_desc (filter (λ r, where_true conds r) table)).

(** [pd.read_sql_query(query, conn, params=params)] *)
Definition read_sql_query (env : Env) (query : list Clause)
    (params : gmap string string) (conn : Conn) : Run (list Row) :=
  db_access env;;
  match select query params conn with
  | Some rows => mret rows
  | None =>
      raise (Py.ProgrammingError "You did not supply a value for binding parameter")
  end.

Definition execute_query (env : Env) (args : Args) : Run DataFrame :=
  '(query, params) ← build_query args;
  conn ← get_db_connection env;
  r ← try (read_sql_query env query params conn);
  match r with
  | Return df => mret (row_data <$> df)
  | Raise e => print ("Database query failed: " +:+ Py.str e);; mret []
  end.

(** ** CSV: [csv.writer] as pandas drives it, and [csv.reader] *)

Module Csv.

Definition is_newline (c : ascii) : bool :=
  bool_decide (c = Py.NL) || bool_decide (c = Py.CR).

(** The characters that make [QUOTE_MINIMAL] quote a field. *)
Definition special (env : Env) (c : ascii) : bool :=
  bool_decide (c = ","%char) || bool_decide (c = Py.DQUOTE)
  || (csv_quotes_newlines env && is_newline c)
  || bool_decide (c ∈ String.list_ascii_of_string (linesep env)).

(** [doublequote=True] *)
Fixpoint escape (s : list ascii) : list ascii :=
  match s with
  | [] => []
  | c :: s' =>
      if bool_decide (c = Py.DQUOTE) then Py.DQUOTE :: Py.DQUOTE :: escape s'
      else c :: escape s'
  end.

Definition write_field (env : Env) (s : list ascii) : list ascii :=
  if existsb (special env) s then Py.DQUOTE :: escape s ++ [Py.DQUOTE] else s.

Fixpoint join_fields (fs : list (list ascii)) : list ascii :=
  match fs with
  | [] => []
  | [f] => f
  | f :: fs' => f ++ ","%char :: join_fields fs'
  end.

(** [writer.writerow(fields)]; a record made of one empty field is written
    as a pair of quotes. *)
Definition writerow (env : Env) (fields : list string) : list ascii :=
  let rec := join_fields (write_field env ∘ String.list_ascii_of_string <$> fields) in
  (if bool_decide (fields ≠ []) && bool_decide (rec = [])
   then [Py.DQUOTE; Py.DQUOTE] else rec)
  ++ String.list_ascii_of_string (linesep env).

Definition columns : list string :=
  ["title"; "summary"; "link"; "source"; "published_date"].

(** The cells of a row as [to_csv] hands them to the writer: a missing
    value is written as [na_rep=''] . *)
Definition cells (a : Article) : list string :=
  [title a; default "" (summary a); link a; source a; published_date a].

(** [df.to_csv(output_file, index=False)]: the text handed to the file. *)
Definition to_csv (env : Env) (df : DataFrame) : string :=
  String.string_of_list_ascii
    (concat (writerow env <$> (columns :: (cells <$> df)))).

Inductive State : Type :=
  | START_RECORD
  | START_FIELD
  | IN_FIELD
  | IN_QUOTED_FIELD
  | QUOTE_IN_QUOTED_FIELD
  | EAT_CRNL.

Global Instance State_eq_dec : EqDecision State.
Proof. solve_decision. Defined.

(** The reader object, with what the iteration over the lines of the file
    needs: whether the last character was a carriage return that may
    still be the first half of CR LF, and whether the current line has
    characters. *)
Record Reader : Type := mkReader {
  state : State;
  field : list ascii;
  fields : list string;
  rows : list (list string);
  pending_cr : bool;
  line_open : bool }.

Definition with_state (st : State) (r : Reader) : Reader :=
  mkReader st (field r) (fields r) (rows r) (pending_cr r) (line_open r).

Definition add_char (c : ascii) (r : Reader) : Reader :=
  mkReader (state r) (field r ++ [c]) (fields r) (rows r)
    (pending_cr r) (line_open r).

Definition save_field (r : Reader) : Reader :=
  mkReader (state r) [] (fields r ++ [String.string_of_list_ascii (field r)])
    (rows r) (pending_cr r) (line_open r).

Definition after_newline (c : option ascii) : State :=
  match c with None => START_RECORD | Some _ => EAT_CRNL end.

Definition ends_line (c : option ascii) : bool :=
  match c with None => true | Some a => is_newline a end.

Definition start_field (c : option ascii) (r : Reader) : Reader :=
  match c with
  | Some a =>
      if is_newline a then with_state EAT_CRNL (save_field r)
      else if bool_decide (a = Py.DQUOTE) then with_state IN_QUOTED_FIELD r
      else if bool_decide (a = ","%char) then save_field r
      else with_state IN_FIELD (add_char a r)
  | None => with_state START_RECORD (save_field r)
  end.

(** One character through the automaton of the reader for the default
    dialect; [None] is the end-of-line mark that follows every line.
    The result is [None] when the reader raises its error.  (This is the
    reader of Python 3.11 and later, which takes a NUL as any other
    character.) *)
Definition process (c : option ascii) (r : Reader) : option Reader :=
  match state r with
  | START_RECORD =>
      match c with
      | None => Some r
      | Some a =>
          if is_newline a then Some (with_state EAT_CRNL r)
          else Some (start_field c (with_state START_FIELD r))
      end
  | START_FIELD => Some (start_field c r)
  | IN_FIELD =>
      if ends_line c then Some (with_state (after_newline c) (save_field r))
      else if bool_decide (c = Some ","%char)
      then Some (with_state START_FIELD (save_field r))
      else Some (from_option (λ a, add_char a r) r c)
  | IN_QUOTED_FIELD =>
      match c with
      | None => Some r
      | Some a =>
          if bool_decide (a = Py.DQUOTE)
          then Some (with_state QUOTE_IN_QUOTED_FIELD r)
          else Some (add_char a r)
      end
  | QUOTE_IN_QUOTED_FIELD =>
      if bool_decide (c = Some Py.DQUOTE)
      then Some (with_state IN_QUOTED_FIELD (add_char Py.DQUOTE r))
      else if bool_decide (c = Some ","%char)
      then Some (with_state START_FIELD (save_field r))
      else if ends_line c
      then Some (with_state (after_newline c) (save_field r))
      else Some (with_state IN_FIELD (from_option (λ a, add_char a r) r c))
  | EAT_CRNL =>
      match c with
      | None => Some (with_state START_RECORD r)
      | Some a => if is_newline a then Some r else None
      end
  end.

(** A record is handed out when the end of a line leaves the automaton
    at the start of a record. *)
Definition emit (r : Reader) : Reader :=
  mkReader (state r) (field r) [] (rows r ++ [fields r])
    (pending_cr r) (line_open r).

Definition end_of_line (r : Reader) : option Reader :=
  r' ← process None r;
  let r' := mkReader (state r') (field r') (fields r') (rows r') false false in
  Some (if bool_decide (state r' = START_RECORD) then emit r' else r').

(** The file is opened with [newline='']: its lines end after LF, after
    CR LF, and after a CR that no LF follows. *)
Definition feed (r : Reader) (c : ascii) : option Reader :=
  r ← (if pending_cr r && negb (bool_decide (c = Py.NL))
       then end_of_line r else Some r);
  r ← process (Some c) r;
  let r := mkReader (state r) (field r) (fields r) (rows r)
             (bool_decide (c = Py.CR)) true in
  if bool_decide (c = Py.NL) then end_of_line r else Some r.

(** [csv.field_size_limit()] *)
Definition field_size_limit : Z := 131072.

(** One character through the reader, which raises its error on a field
    that grows past the limit. *)
Definition step (r : Reader) (c : ascii) : option Reader :=
  r' ← feed r c;
  if (field_size_limit <? Z.of_nat (length (field r')))%Z then None
  else Some r'.

Fixpoint steps (r : Reader) (s : list ascii) : option Reader :=
  match s with
  | [] => Some r
  | c :: s' => r' ← step r c; steps r' s'
  end.

(** The end of the file ends a line that is open; a record that is still
    open then is handed out as it stands. *)
Definition finish (r : Reader) : option (list (list string)) :=
  r ← (if pending_cr r || line_open r then end_of_line r else Some r);
  Some (if negb (bool_decide (state r = START_RECORD))
           && (negb (bool_decide (field r = []))
               || bool_decide (state r = IN_QUOTED_FIELD))
        then rows (emit (save_field r)) else rows r).

Definition init : Reader := mkReader START_RECORD [] [] [] false false.

(** [list(csv.reader(open(path, newline='')))], the reader of the library
    whose writer produced the file; [None] stands for its error.  The
    repository has no program that parses an exported file again: this is
    the reader that the reading-back property is stated with. *)
Definition reader (text : string) : option (list (list string)) :=
  r ← steps init (String.list_ascii_of_string text); finish r.

End Csv.

(** ** Export *)

(** Opening [path] for writing and writing [content] to it.  The database
    is a file as the others: a text written to [DB_FILE] takes its place,
    and the table is lost with every row.  (What [sqlite3] then makes of
    the file is, as every failure of the store, told by [db_fault].) *)
Definition write_file (env : Env) (path content : string) : Run unit := λ w,
  match fs_fault env path with
  | Some msg => (Raise (Py.OSError msg), w)
  | None =>
      let w' := set_fs (<[path := content]> (fs w)) w in
      (Return (), if bool_decide (path = DB_FILE) then set_db [] w' else w')
  end.

(** What [to_csv] and [to_json] write to [path] for a text: the text, or
    its compressed form when the extension of the path asks for one. *)
Definition written (env : Env) (path text : string) : string :=
  match compression env path with
  | Some compress => compress text
  | None => text
  end.

(** [df.to_excel(path, index=False, engine='openpyxl')]: pandas may refuse
    before the file is opened; once it is open, the file holds what
    [excel_bytes] says, the workbook or, when [openpyxl] refuses a cell,
    what there is of it, and the refusal is raised afterwards.  (The
    handler of [export_data] takes every class of exception alike; the
    class here is that of the refused extension.) *)
Definition to_excel (env : Env) (df : DataFrame) (path : string) : Run unit :=
  match excel_refusal env df path with
  | Some msg => raise (Py.ValueError msg)
  | None =>
      write_file env path (excel_bytes env df);;
      match excel_fault env df with
      | Some msg => raise (Py.ValueError msg)
      | None => mret ()
      end
  end.

Definition export_data (env : Env) (df : DataFrame)
    (output_file export_format : string) : Run unit :=
  match df with
  | [] => print "No results to export."
  | _ :: _ =>
      print ("Exporting " +:+ pretty (length df) +:+ " articles to "
               +:+ output_file +:+ "...");;
      r ← try (
        if bool_decide (export_format = "csv") then
          write_file env output_file (written env output_file (Csv.to_csv env df));;
          print ("Successfully exported to CSV: " +:+ output_file)
        else if bool_decide (export_format = "excel") then
          to_excel env df output_file;;
          print ("Successfully exported to Excel: " +:+ output_file)
        else if bool_decide (export_format = "json") then
          write_file env output_file (written env output_file (json_text env df));;
          print ("Successfully exported to JSON: " +:+ output_file)
        else
          print ("Error: Unsupported export format '" +:+ export_format +:+ "'."));
      match r with
      | Return _ => mret ()
      | Raise e => print ("An error occurred during export: " +:+ Py.str e)
      end
  end.

(** ** Commands *)

(** The parsed command line.  [argparse] only lets the formats [csv],
    [excel] and [json] through to [Export]. *)
Inductive Command : Type :=
  | Fetch (source_filter : option string)
  | Query (args : Args)
  | Export (args : Args) (output_file format : string).

Definition main (env : Env) (command : Command) : Run unit :=
  conn ← get_db_connection env;
  setup_database env conn;;
  match command with
  | Fetch src =>
      print "--- Running FETCH command ---";;
      print "NOTE: Using mock data. Replace fetch_mock_data with actual API/Scraping logic.";;
      save_articles env (fetch_mock_data env src);;
      print "FETCH complete."
  | Query args =>
      print "--- Running QUERY command ---";;
      df ← execute_query env args;
      match df with
      | [] => print "Query returned no results."
      | _ :: _ =>
          print (String Py.NL "Found " +:+ pretty (length df)
                   +:+ " articles matching criteria:");;
          print (frame_to_string env df)
      end
  | Export args output_file format =>
      print "--- Running EXPORT command ---";;
      df ← execute_query env args;
      match df with
      | [] => print "Query returned no results. Nothing exported."
      | _ :: _ => export_data env df output_file format
      end
  end.

(** * Notions used to state the properties *)

(** ** Ingestion *)

(** The store never fails. *)
Definition no_faults (env : Env) : Prop := ∀ k, db_fault env k = None.

Definition bump (w : World) : World := set_db_calls (S (db_calls w)) w.

(** What one [INSERT] of the loop comes to. *)
Inductive InsertResult : Type :=
  | Inserted
  | Duplicate
  | Failed (msg : string).

Definition is_inserted (r : InsertResult) : bool :=
  match r with Inserted => true | _ => false end.
Definition is_duplicate (r : InsertResult) : bool :=
  match r with Duplicate => true | _ => false end.
Definition is_failed (r : InsertResult) : bool :=
  match r with Failed _ => true | _ => false end.

Definition tally (p : InsertResult → bool) (l : list InsertResult) : Z :=
  Z.of_nat (length (filter (λ r, p r = true) l)).

(** The result of inserting [row] through a connection that sees [conn],
    as the [k]-th access to the store. *)
Definition insert_result (env : Env) (conn : Conn) (k : nat) (row : Row)
    : InsertResult :=
  match db_fault env k with
  | Some msg => Failed msg
  | None =>
      if bool_decide (row_id row ∈ row_id <$> conn)
         || bool_decide (link (row_data row) ∈ (link ∘ row_data) <$> conn)
      then Duplicate else Inserted
  end.

Definition conn_after (conn : Conn) (row : Row) (r : InsertResult) : Conn :=
  if is_inserted r then conn ++ [row] else conn.

Fixpoint insert_results (env : Env) (conn : Conn) (k : nat) (rows : list Row)
    : list InsertResult :=
  match rows with
  | [] => []
  | row :: rest =>
      let r := insert_result env conn k row in
      r :: insert_results env (conn_after conn row r) (S k) rest
  end.

Fixpoint conn_final (env : Env) (conn : Conn) (k : nat) (rows : list Row)
    : Conn :=
  match rows with
  | [] => conn
  | row :: rest =>
      conn_final env (conn_after conn row (insert_result env conn k row))
        (S k) rest
  end.

Fixpoint error_lines (rows : list Row) (results : list InsertResult)
    : list string :=
  match rows, results with
  | row :: rows', Failed msg :: results' =>
      ("Error inserting article " +:+ title (row_data row) +:+ ": " +:+ msg)
      :: error_lines rows' results'
  | _ :: rows', _ :: results' => error_lines rows' results'
  | _, _ => []
  end.

(** The rows handed to the loop: the surviving candidates with their new
    identifiers. *)
Definition staged_rows (env : Env) (w : World) (articles : list Article)
    : list Row :=
  zip_with mkRow
    (uuid4 env <$> seq (uuid_calls w) (length (drop_duplicates articles)))
    (drop_duplicates articles).

(** The results of the inserts of one run of [save_articles]. *)
Definition ingest_results (env : Env) (w : World) (articles : list Article)
    : list InsertResult :=
  insert_results env (db w) (S (db_calls w)) (staged_rows env w articles).

(** The line printed before the inserts, and the four lines of the
    summary. *)
Definition attempt_line (articles : list Article) : string :=
  "Attempting to insert " +:+ pretty (length (drop_duplicates articles))
  +:+ " unique articles...".

Definition summary_lines (r : Report) : list string :=
  [ String Py.NL "--- Save Results ---";
    "Total processed: " +:+ pretty (attempted r);
    "New articles inserted: " +:+ pretty (inserted r);
    "Skipped as duplicates (in batch or DB): " +:+ pretty (duplicates r) ].

(** ** Query *)

Definition date_of (r : Row) : string := published_date (row_data r).

(** [a] may stand before [b] in a result in descending order of date. *)
Definition date_ge (a b : Row) : Prop := String.le (date_of b) (date_of a).

(** No filter option is set. *)
Definition unconstrained (args : Args) : Prop :=
  Py.truthy (arg_source args) = false
  ∧ Py.truthy (arg_keyword args) = false
  ∧ Py.truthy (arg_date args) = false.

Definition without_date (args : Args) : Args :=
  mkArgs (arg_source args) (arg_keyword args) None.

Definition date_warning (date : string) : string :=
  "Warning: Invalid date format provided: " +:+ date
  +:+ ". Required format is YYYY-MM-DD. Ignoring date filter.".

(** [p] is a prefix of [s], up to ASCII case. *)
Fixpoint prefix_ci (p s : list ascii) : bool :=
  match p, s with
  | [], _ => true
  | _ :: _, [] => false
  | c :: p', d :: s' =>
      bool_decide (Py.lower_char c = Py.lower_char d) && prefix_ci p' s'
  end.

(** [p] occurs somewhere in [s], up to ASCII case. *)
Fixpoint occurs_ci (p s : list ascii) : bool :=
  prefix_ci p s || match s with [] => false | _ :: s' => occurs_ci p s' end.

(** The field [s] contains the pattern as a substring, case-insensitively:
    the words of the specification. *)
Definition contains_ci (pattern s : string) : bool :=
  occurs_ci (String.list_ascii_of_string pattern) (String.list_ascii_of_string s).

(** The filter of the specification on a record: source substring and
    keyword substring in title or summary, combined with AND. *)
Definition matches_filter (args : Args) (a : Article) : bool :=
  (if Py.truthy (arg_source args)
   then contains_ci (default "" (arg_source args)) (source a) else true)
  && (if Py.truthy (arg_keyword args)
      then contains_ci (default "" (arg_keyword args)) (title a)
           || from_option (contains_ci (default "" (arg_keyword args))) false (summary a)
      else true).

(** The pattern holds none of the two wildcards of [LIKE]. *)
Definition wildcard_free (pattern : option string) : Prop :=
  ∀ c, c ∈ String.list_ascii_of_string (default "" pattern) →
       c ≠ "%"%char ∧ c ≠ "_"%char.

(** ** Fetch and export *)

(** Equality of two strings up to ASCII case, character by character: the
    full-string comparison of the specification. *)
Fixpoint equal_ci (s t : string) : bool :=
  match s, t with
  | EmptyString, EmptyString => true
  | String c s', String d t' =>
      bool_decide (Py.lower_char c = Py.lower_char d) && equal_ci s' t'
  | _, _ => false
  end.

Definition supported_formats : list string := ["csv"; "excel"; "json"].

(** A character that an unquoted field can hold. *)
Definition plain (c : ascii) : Prop :=
  c ≠ ","%char ∧ c ≠ Py.DQUOTE ∧ c ≠ Py.NL ∧ c ≠ Py.CR.

(** The writer quotes a carriage return, or the field holds none. *)
Definition cr_safe (env : Env) (s : list ascii) : Prop :=
  Csv.special env Py.CR = true ∨ Py.CR ∉ s.

(** [os.linesep] is LF or CR LF. *)
Definition posix_or_dos (env : Env) : Prop :=
  linesep env = String Py.NL "" ∨ linesep env = String Py.CR (String Py.NL "").

(** No cell of the frame holds a carriage return that the writer would
    leave unquoted. *)
Definition frame_cr_safe (env : Env) (df : DataFrame) : Prop :=
  Forall (λ a, Forall (cr_safe env ∘ String.list_ascii_of_string) (Csv.cells a)) df.

(** The automaton of the reader over a text, the limit on the length of a
    field left aside. *)
Fixpoint feed_all (r : Csv.Reader) (s : list ascii) : option Csv.Reader :=
  match s with
  | [] => Some r
  | c :: s' => r' ← Csv.feed r c; feed_all r' s'
  end.

(** A field that the reader accepts. *)
Definition short (s : string) : Prop :=
  (Z.of_nat (String.length s) ≤ Csv.field_size_limit)%Z.

(** No cell of the frame is longer than the reader accepts. *)
Definition frame_short (df : DataFrame) : Prop :=
  Forall (λ a, Forall short (Csv.cells a)) df.

(** ** Sample data *)

(** [s.endswith(suffix)] *)
Definition endswith (s suffix : string) : bool :=
  (String.length suffix <=? String.length s)%nat
  && bool_decide (String.substring (String.length s - String.length suffix)
                    (String.length suffix) s = suffix).

(** A pandas with [openpyxl] at hand, which takes a path that ends in
    [.xlsx] for a workbook and refuses the others. *)
Definition xlsx_only (df : DataFrame) (path : string) : option string :=
  if endswith path ".xlsx" then None
  else Some "Invalid extension for engine 'openpyxl'".

(** A store that never fails, identifiers numbered from zero, a POSIX line
    terminator, a [csv] module that only quotes what the terminator
    requires, no path that is compressed and no cell that [openpyxl]
    refuses. *)
Definition sample_env : Env :=
  mkEnv pretty (λ _, None) (λ _, None) "2024-05-02" "2024-05-01"
    (String Py.NL "") false (λ _, "") (λ _, "") (λ _, "")
    (λ _, None) xlsx_only (λ _, None).

(** The same, with the second access to the store (the first insert of a
    run from [empty_world]) failing. *)
Definition locked_env : Env :=
  mkEnv pretty (λ k, if (k =? 1)%nat then Some "database is locked" else None)
    (λ _, None) "2024-05-02" "2024-05-01"
    (String Py.NL "") false (λ _, "") (λ _, "") (λ _, "")
    (λ _, None) xlsx_only (λ _, None).

(** The fifth access to the store fails: in [main], the first insert of the
    fetch command. *)
Definition insert_fault_env : Env :=
  mkEnv pretty (λ k, if (k =? 4)%nat then Some "disk I/O error" else None)
    (λ _, None) "2024-05-02" "2024-05-01"
    (String Py.NL "") false (λ _, "") (λ _, "") (λ _, "")
    (λ _, None) xlsx_only (λ _, None).

(** The fifth access to the store fails: in [main], the [SELECT] of the
    query and export commands. *)
Definition select_fault_env : Env := insert_fault_env.

Definition empty_world : World := mkWorld [] ∅ [] 0 0.

Definition article_L1 : Article :=
  mkArticle "T1" (Some "S1") "http://a/1" "SourceA" "2024-05-01".
Definition article_L2 : Article :=
  mkArticle "T2" None "http://a/2" "SourceB" "2024-05-02".
Definition article_L3 : Article :=
  mkArticle "T3" (Some "S3") "http://a/3" "SourceA" "2024-05-02".
Definition article_L3' : Article :=
  mkArticle "T3 again" (Some "S3 again") "http://a/3" "SourceC" "2024-05-03".

(** The record [article_L2], whose summary is NULL, with an empty summary
    instead. *)
Definition article_L2_blank : Article :=
  mkArticle "T2" (Some "") "http://a/2" "SourceB" "2024-05-02".

(** A record with a comma, a quote, a line feed and a NULL summary. *)
Definition article_awkward : Article :=
  mkArticle "Markets, again" None "http://a/4"
    (String Py.DQUOTE ("Source" +:+ String Py.DQUOTE " D"))
    (String "2" (String Py.NL "x")).

(** A batch with one duplicate inside. *)
Definition sample_batch : list Article := [article_L1; article_L3; article_L3'].

(** A store that holds the records with links [L1] and [L2]. *)
Definition stocked_world : World :=
  mkWorld [mkRow "id-1" article_L1; mkRow "id-2" article_L2] ∅ [] 0 0.

Definition no_filter : Args := mkArgs None None None.

Definition bad_date_args : Args := mkArgs (Some "Source") None (Some "2024-13-40").

(** A source pattern in which [_] is meant literally. *)
Definition wild_args : Args := mkArgs (Some "S_u") None None.

(** * Further notions on the aggregator *)

(** ** Frames: what a run leaves alone *)

(** The two constraints of the table: no two rows share an identifier, no
    two rows share a link. *)
Definition store_ok (rows : list Row) : Prop :=
  NoDup (row_id <$> rows) ∧ NoDup ((link ∘ row_data) <$> rows).

(** A relation between the world before and after a run that only looks at
    the store and the files. *)
Definition durable (R : relation World) : Prop :=
  ∀ w w', db w' = db w → fs w' = fs w → ∀ w0, R w0 w → R w0 w'.

(** Whatever its outcome, a run of [m] takes a world to one related by [R]. *)
Definition keeps {A} (R : relation World) (m : Run A) : Prop :=
  ∀ w, R w (snd (m w)).

Definition same_store : relation World := λ w w', db w' = db w.
Definition same_files : relation World := λ w w', fs w' = fs w.
Definition same_files_but (path : string) : relation World := λ w w',
  ∀ p, p ≠ path → fs w' !! p = fs w !! p.

(** The store is as it was, unless [path] is the database file and the
    table was lost to a text written there. *)
Definition same_store_unless (path : string) : relation World := λ w w',
  db w' = db w ∨ (path = DB_FILE ∧ db w' = []).

(** The store only grows at its end, and stays within its constraints. *)
Definition grows : relation World := λ w w',
  db w `prefix_of` db w' ∧ (store_ok (db w) → store_ok (db w')).

(** ** Query *)

(** The date option as a condition on a record: equality with the text
    given. *)
Definition date_matches (args : Args) (a : Article) : bool :=
  if Py.truthy (arg_date args)
  then bool_decide (published_date a = default "" (arg_date args)) else true.

(** The date option is unset, or a date that [strptime] accepts. *)
Definition date_accepted (args : Args) : Prop :=
  Py.truthy (arg_date args) = true →
  ∃ ymd, Strptime.strptime (default "" (arg_date args)) = Return ymd.

(** The records that pass the three options. *)
Definition hit (args : Args) (r : Row) : bool :=
  matches_filter args (row_data r) && date_matches args (row_data r).

(** Two optional texts that differ at most in the case of ASCII letters. *)
Definition same_up_to_case (o1 o2 : option string) : Prop :=
  Py.lower <$> o1 = Py.lower <$> o2.

(** ** Export *)

(** What [export_data] writes for a format, and the word of its message;
    nothing for a format it does not know. *)
Definition export_content (env : Env) (export_format output_file : string)
    (df : DataFrame) : option (string * string) :=
  if bool_decide (export_format = "csv")
  then Some (written env output_file (Csv.to_csv env df), "CSV")
  else if bool_decide (export_format = "excel")
  then Some (excel_bytes env df, "Excel")
  else if bool_decide (export_format = "json")
  then Some (written env output_file (json_text env df), "JSON")
  else None.

(** How the writer of a format fails: before the file is written, or
    after. *)
Inductive ExportFailure : Type :=
  | Unwritten (msg : string)
  | Written (msg : string).

Definition export_failure (env : Env) (export_format : string) (df : DataFrame)
    (output_file : string) : option ExportFailure :=
  if bool_decide (export_format = "excel") then
    match excel_refusal env df output_file, fs_fault env output_file with
    | Some msg, _ => Some (Unwritten msg)
    | None, Some msg => Some (Unwritten msg)
    | None, None => Written <$> excel_fault env df
    end
  else Unwritten <$> fs_fault env output_file.

(** The table after a text was written to [path]. *)
Definition db_after_write (path : string) (rows : list Row) : list Row :=
  if bool_decide (path = DB_FILE) then [] else rows.

Definition exporting_line (df : DataFrame) (output_file : string) : string :=
  "Exporting " +:+ pretty (length df) +:+ " articles to " +:+ output_file +:+ "...".

(** The fourth access to the store fails: from [empty_world], the commit
    of a run of [save_articles] on [sample_batch]. *)
Definition commit_fault_env : Env :=
  mkEnv pretty (λ k, if (k =? 3)%nat then Some "database is locked" else None)
    (λ _, None) "2024-05-02" "2024-05-01"
    (String Py.NL "") false (λ _, "") (λ _, "") (λ _, "")
    (λ _, None) xlsx_only (λ _, None).

(** No path can be opened for writing. *)
Definition read_only_env : Env :=
  mkEnv pretty (λ _, None) (λ _, Some "[Errno 30] Read-only file system")
    "2024-05-02" "2024-05-01"
    (String Py.NL "") false (λ _, "") (λ _, "") (λ _, "")
    (λ _, None) xlsx_only (λ _, None).

(** The frame a query returns from a table when the store does not fail. *)
Definition query_frame (args : Args) (table : list Row) : DataFrame :=
  match fst (build_query args empty_world) with
  | Return (query, params) =>
      match select query params table with
      | Some rows => row_data <$> rows
      | None => []
      end
  | Raise _ => []
  end.

(** * The student records program of [cli.py]

    The second half of [cli.py]: the classes [Student] and [StudentManager],
    the functions that talk to the user, and the menu loop.  The records
    live in a dictionary in memory and in a CSV file that is written again
    after every change and read once, when the manager is made.

    Conventions, beside those of the first half.
    - A value read from the file is a string or [None] ([csv.DictReader]
      fills a short row with [None]): a [Value] is an [option string].
    - A dictionary is the list of its items in insertion order, with
      pairwise distinct keys.
    - Code with effects runs in [M]: a state monad over [State] (the files,
      what was written to the standard output, the lines still to be read
      from the standard input, the number of files opened, and the one
      [StudentManager] of the program) whose results are [Ok v] or [Err e]
      for a Python exception.
    - A loop on the standard input runs on fuel; the fuel handed to it is
      one more than the number of lines left, which is never used up. *)

Module Roster.

(** ** Text *)

(** The ASCII characters that [str.strip] removes. *)
Definition is_space (c : ascii) : bool :=
  let n := nat_of_ascii c in
  ((9 <=? n)%nat && (n <=? 13)%nat) || ((28 <=? n)%nat && (n <=? 32)%nat).

Fixpoint lstrip (s : list ascii) : list ascii :=
  match s with
  | [] => []
  | c :: s' => if is_space c then lstrip s' else s
  end.

(** [s.strip()] *)
Definition strip (s : string) : string :=
  String.string_of_list_ascii
    (rev (lstrip (rev (lstrip (String.list_ascii_of_string s))))).

Definition is_lower (c : ascii) : bool :=
  let n := nat_of_ascii c in (97 <=? n)%nat && (n <=? 122)%nat.

Definition upper_char (c : ascii) : ascii :=
  if is_lower c then ascii_of_nat (nat_of_ascii c - 32) else c.

(** [s.upper()] *)
Fixpoint upper (s : string) : string :=
  match s with
  | EmptyString => EmptyString
  | String c s' => String (upper_char c) (upper s')
  end.

Definition is_alnum (c : ascii) : bool :=
  Py.is_digit c || Py.is_upper c || is_lower c.

(** [s.isalnum()]: at least one character, and letters and digits only. *)
Definition isalnum (s : string) : bool :=
  negb (bool_decide (s = ""))
  && forallb is_alnum (String.list_ascii_of_string s).

(** [c * n] *)
Definition times (c : ascii) (n : nat) : string :=
  String.string_of_list_ascii (replicate n c).

(** [f"{s:<width}"] on a string. *)
Definition ljust (width : nat) (s : string) : string :=
  s +:+ times " " (width - String.length s).

(** A string or [None]. *)
Abbreviation Value := (option string).

(** [f"{v}"] *)
Definition str (v : Value) : string := default "None" v.

(** [f"{v:<width}"]: [None] has no format with a width, which is a
    [TypeError]. *)
Definition format_ljust (width : nat) (v : Value) : option string :=
  ljust width <$> v.

(** ** The dialect of the writer *)

(** The parameters of the dialect [excel], the default of [csv.DictWriter],
    as the writer of the first half takes them: the line terminator is
    CR LF on every platform.  Nothing else of this environment is read. *)
Definition excel : Env :=
  mkEnv (λ _, "") (λ _, None) (λ _, None) "" ""
    (String Py.CR (String Py.NL "")) false (λ _, "") (λ _, "") (λ _, "")
    (λ _, None) (λ _ _, None) (λ _, None).

(** ** Dictionaries *)

Section dict.
Context {K V : Type} `{EqDecision K}.

(** [k in d] *)
Definition dict_in (k : K) (d : list (K * V)) : bool :=
  bool_decide (k ∈ d.*1).

(** [d[k]], for a key that is there; [d.get(k)] *)
Fixpoint dict_get (k : K) (d : list (K * V)) : option V :=
  match d with
  | [] => None
  | (k', v) :: d' => if decide (k' = k) then Some v else dict_get k d'
  end.

(** [d[k] = v]: a key that is there keeps its place. *)
Fixpoint dict_set (k : K) (v : V) (d : list (K * V)) : list (K * V) :=
  match d with
  | [] => [(k, v)]
  | (k', v') :: d' =>
      if decide (k' = k) then (k, v) :: d' else (k', v') :: dict_set k v d'
  end.

(** [del d[k]] *)
Fixpoint dict_del (k : K) (d : list (K * V)) : list (K * V) :=
  match d with
  | [] => []
  | (k', v') :: d' =>
      if decide (k' = k) then dict_del k d' else (k', v') :: dict_del k d'
  end.

(** [dict(items)] *)
Definition dict_of (items : list (K * V)) : list (K * V) :=
  foldl (λ d kv, dict_set kv.1 kv.2 d) [] items.

End dict.

(** ** [class Student] *)

Record Student : Type := mkStudent {
  name : Value;
  student_id : Value;
  grade : Value }.

Global Instance Student_eq_dec : EqDecision Student.
Proof. solve_decision. Defined.

Definition to_dict (self : Student) : list (string * Value) :=
  [("id", student_id self); ("name", name self); ("grade", grade self)].

(** ** State, exceptions and the monad [M] *)

Inductive Exc : Type :=
  | OSError (msg : string)
  | CsvError (msg : string)
  | TypeError
  | EOFError.

Record Env : Type := mkEnv {
  (** the failure, if any, of the [k]-th call of [open] *)
  open_fault : nat → option string }.

Record State : Type := mkState {
  files : gmap string string;
  (** what was written to the standard output, piece by piece *)
  stdout : list string;
  (** the lines still to be read from the standard input *)
  stdin : list string;
  opens : nat;
  (** [manager.filename] and [manager.students] *)
  filename : string;
  students : list (Value * Student) }.

Definition set_files (f : gmap string string) (st : State) : State :=
  mkState f (stdout st) (stdin st) (opens st) (filename st) (students st).
Definition set_stdout (o : list string) (st : State) : State :=
  mkState (files st) o (stdin st) (opens st) (filename st) (students st).
Definition set_stdin (i : list string) (st : State) : State :=
  mkState (files st) (stdout st) i (opens st) (filename st) (students st).
Definition set_opens (n : nat) (st : State) : State :=
  mkState (files st) (stdout st) (stdin st) n (filename st) (students st).
Definition set_filename (f : string) (st : State) : State :=
  mkState (files st) (stdout st) (stdin st) (opens st) f (students st).
Definition set_students (d : list (Value * Student)) (st : State) : State :=
  mkState (files st) (stdout st) (stdin st) (opens st) (filename st) d.

Inductive Result (A : Type) : Type :=
  | Ok (a : A)
  | Err (e : Exc).
Global Arguments Ok {A} a.
Global Arguments Err {A} e.

Definition M (A : Type) : Type := State → Result A * State.

Global Instance M_ret : MRet M := λ A a st, (Ok a, st).

Global Instance M_bind : MBind M := λ A B f m st,
  match m st with
  | (Ok a, st') => f a st'
  | (Err e, st') => (Err e, st')
  end.

Definition throw {A} (e : Exc) : M A := λ st, (Err e, st).

Definition get {A} (f : State → A) : M A := λ st, (Ok (f st), st).

Definition update (f : State → State) : M unit := λ st, (Ok (), f st).

Definition write (piece : string) : M unit :=
  update (λ st, set_stdout (stdout st ++ [piece]) st).

(** [print(line)] *)
Definition print (line : string) : M unit :=
  write (line +:+ String Py.NL "").

(** [input(prompt)]: the prompt is written, a line is read without its end;
    the end of the input is an [EOFError]. *)
Definition input (prompt : string) : M string :=
  write prompt;;
  lines ← get stdin;
  match lines with
  | [] => throw EOFError
  | line :: rest => update (set_stdin rest);; mret line
  end.

(** [open(path, ...)]: every call may fail. *)
Definition open (env : Env) : M unit :=
  k ← get opens;
  update (set_opens (S k));;
  match open_fault env k with
  | Some msg => throw (OSError msg)
  | None => mret ()
  end.

(** ** The [csv] module as the manager uses it *)

(** The rows that [csv.reader] hands out for a text, one for each line that
    ends a record, and whether it then raises its error instead of coming
    to the end. *)
Fixpoint read_rows (r : Csv.Reader) (s : list ascii)
    : list (list string) * bool :=
  match s with
  | [] =>
      match Csv.finish r with
      | Some rows => (rows, false)
      | None => (Csv.rows r, true)
      end
  | c :: s' =>
      match Csv.step r c with
      | Some r' => read_rows r' s'
      | None => (Csv.rows r, true)
      end
  end.

Definition reader (text : string) : list (list string) * bool :=
  read_rows Csv.init (String.list_ascii_of_string text).

(** The dictionary that [csv.DictReader] makes of a row: the fields under
    the names of the header, [None] under the names that a short row does
    not reach.  (The fields that a long row has beyond the header go under
    the key [None], which nothing looks up; they are left out.) *)
Definition row_dict (fieldnames row : list string) : list (string * Value) :=
  foldl (λ d key, dict_set key None d)
    (dict_of (zip fieldnames (Some <$> row)))
    (drop (length row) fieldnames).

(** [csv.DictReader(file)]: the first row is the header, rows without
    fields are skipped. *)
Definition DictReader (rows : list (list string)) : list (list (string * Value)) :=
  match rows with
  | [] => []
  | fieldnames :: rest =>
      row_dict fieldnames <$> filter (λ row, row ≠ []) rest
  end.

(** [csv.DictWriter(file, fieldnames).writerow(rowdict)]: the values under
    the field names, [None] written as the empty string. *)
Definition DictWriter_writerow (fieldnames : list string)
    (rowdict : list (string * Value)) : list ascii :=
  Csv.writerow excel
    ((λ key, default "" (default (Some "") (dict_get key rowdict))) <$> fieldnames).

Definition DictWriter_writeheader (fieldnames : list string) : list ascii :=
  DictWriter_writerow fieldnames (zip fieldnames (Some <$> fieldnames)).

(** ** [class StudentManager] *)

(** The body of the loop of [_load_records].  Nothing in it can raise, so
    the handler around it never runs. *)
Definition load_row (students : list (Value * Student))
    (row : list (string * Value)) : list (Value * Student) :=
  if dict_in "id" row && dict_in "name" row && dict_in "grade" row then
    let student :=
      mkStudent (default None (dict_get "name" row))
                (default None (dict_get "id" row))
                (default None (dict_get "grade" row)) in
    dict_set (student_id student) student students
  else students.

Definition _load_records (env : Env) : M unit :=
  path ← get filename;
  fs ← get files;
  match fs !! path with
  | None => mret ()
  | Some text =>
      open env;;
      let '(rows, failed) := reader text in
      update (λ st, set_students (foldl load_row (students st) (DictReader rows)) st);;
      if failed then throw (CsvError "field larger than field limit (131072)")
      else mret ()
  end.

(** [StudentManager(filename)] *)
Definition StudentManager (env : Env) (filename : string) : M unit :=
  update (set_filename filename);;
  update (set_students []);;
  _load_records env.

Definition fieldnames : list string := ["id"; "name"; "grade"].

(** The text that [_save_records] writes for a dictionary of students. *)
Definition records_text (students : list (Value * Student)) : string :=
  String.string_of_list_ascii
    (DictWriter_writeheader fieldnames
     ++ concat ((λ student, DictWriter_writerow fieldnames (to_dict student))
                <$> students.*2)).

Definition _save_records (env : Env) : M unit :=
  path ← get filename;
  open env;;
  d ← get students;
  update (λ st, set_files (<[path := records_text d]> (files st)) st);;
  print (String Py.NL "✅ Records saved successfully to " +:+ path +:+ ".").

Definition add_student (env : Env) (student : Student) : M bool :=
  d ← get students;
  if dict_in (student_id student) d then
    print (String Py.NL "❌ Error: Student ID '" +:+ str (student_id student)
             +:+ "' already exists.");;
    mret false
  else
    update (set_students (dict_set (student_id student) student d));;
    _save_records env;;
    print (String Py.NL "✨ Student '" +:+ str (name student)
             +:+ "' added successfully.");;
    mret true.

Definition update_student (env : Env) (student_id : Value)
    (new_name new_grade : Value) : M bool :=
  d ← get students;
  match dict_get student_id d with
  | None =>
      print (String Py.NL "❌ Error: Student ID '" +:+ str student_id
               +:+ "' not found.");;
      mret false
  | Some student =>
      let student :=
        match new_name with
        | Some _ => mkStudent new_name (Roster.student_id student) (grade student)
        | None => student
        end in
      let student :=
        match new_grade with
        | Some _ => mkStudent (name student) (Roster.student_id student) new_grade
        | None => student
        end in
      update (set_students (dict_set student_id student d));;
      _save_records env;;
      print (String Py.NL "🔄 Student ID '" +:+ str student_id
               +:+ "' updated successfully.");;
      mret true
  end.

Definition delete_student (env : Env) (student_id : Value) : M bool :=
  d ← get students;
  if negb (dict_in student_id d) then
    print (String Py.NL "❌ Error: Student ID '" +:+ str student_id
             +:+ "' not found.");;
    mret false
  else
    update (set_students (dict_del student_id d));;
    _save_records env;;
    print (String Py.NL "🗑️ Student ID '" +:+ str student_id
             +:+ "' deleted successfully.");;
    mret true.

(** [sorted(students, key=lambda s: s.id)], a stable sort; comparing with
    [None] is a [TypeError], which [None] stands for, and a list of two or
    more has every element compared. *)
Fixpoint insert_by_id (x : Student) (l : list Student) : list Student :=
  match l with
  | [] => [x]
  | y :: l' =>
      if String.leb (default "" (student_id x)) (default "" (student_id y))
      then x :: l else y :: insert_by_id x l'
  end.

Definition sorted_by_id (l : list Student) : option (list Student) :=
  if (2 <=? length l)%nat && existsb (λ s, bool_decide (student_id s = None)) l
  then None
  else Some (foldr insert_by_id [] l).

(** [f"| {student.id:<6} | {student.name:<20} | {student.grade:<6} |"] *)
Definition record_line (student : Student) : option string :=
  i ← format_ljust 6 (student_id student);
  n ← format_ljust 20 (name student);
  g ← format_ljust 6 (grade student);
  Some ("| " +:+ i +:+ " | " +:+ n +:+ " | " +:+ g +:+ " |").

Fixpoint print_records (l : list Student) : M unit :=
  match l with
  | [] => mret ()
  | student :: l' =>
      match record_line student with
      | Some line => print line;; print_records l'
      | None => throw TypeError
      end
  end.

Definition list_students : M unit :=
  d ← get students;
  match d with
  | [] => print (String Py.NL "➡️ No student records found.")
  | _ :: _ =>
      print (String Py.NL (times "=" 50));;
      print ("| " +:+ times " " 16 +:+ "STUDENT RECORDS" +:+ times " " 17 +:+ " |");;
      print (times "=" 50);;
      print ("| " +:+ ljust 6 "ID" +:+ " | " +:+ ljust 20 "NAME" +:+ " | "
               +:+ ljust 6 "GRADE" +:+ " |");;
      print (times "-" 50);;
      match sorted_by_id d.*2 with
      | None => throw TypeError
      | Some sorted_students =>
          print_records sorted_students;;
          print (times "=" 50)
      end
  end.

(** ** Talking to the user *)

Fixpoint get_input_loop (fuel : nat) (prompt : string) (allow_empty : bool)
    : M string :=
  match fuel with
  | 0 => throw EOFError
  | S fuel' =>
      line ← input ("   " +:+ prompt +:+ ": ");
      let user_input := strip line in
      if negb (bool_decide (user_input = "")) || allow_empty then mret user_input
      else
        print "   Input cannot be empty. Please try again.";;
        get_input_loop fuel' prompt allow_empty
  end.

Definition get_input (prompt : string) (allow_empty : bool) : M string :=
  lines ← get stdin;
  get_input_loop (S (length lines)) prompt allow_empty.

Definition cli_add_student (env : Env) : M unit :=
  print (String Py.NL "--- ➕ Add New Student ---");;
  name ← get_input "Enter student name" false;
  student_id ← get_input "Enter unique student ID" false;
  grade ← get_input "Enter grade (e.g., A, B, C, P)" false;
  if negb (isalnum student_id) then
    print (String Py.NL "❌ Error: Student ID must be alphanumeric.")
  else
    let new_student := mkStudent (Some name) (Some student_id) (Some (upper grade)) in
    add_student env new_student;; mret ().

Definition cli_update_student (env : Env) : M unit :=
  print (String Py.NL "--- 🔄 Update Student ---");;
  student_id ← get_input "Enter ID of student to update" false;
  d ← get students;
  match dict_get (Some student_id) d with
  | None =>
      print (String Py.NL "❌ Error: Student ID '" +:+ student_id +:+ "' not found.")
  | Some student =>
      print "Note: Leave a field blank to keep the current value.";;
      new_name ← get_input ("Enter new name (Current: " +:+ str (name student) +:+ ")") true;
      new_grade ← get_input ("Enter new grade (Current: " +:+ str (grade student) +:+ ")") true;
      update_student env (Some student_id)
        (if bool_decide (new_name = "") then None else Some new_name)
        (if bool_decide (new_grade = "") then None else Some (upper new_grade));;
      mret ()
  end.

Definition cli_delete_student (env : Env) : M unit :=
  print (String Py.NL "--- 🗑️ Delete Student ---");;
  student_id ← get_input "Enter ID of student to delete" false;
  d ← get students;
  if negb (dict_in (Some student_id) d) then
    print (String Py.NL "❌ Error: Student ID '" +:+ student_id +:+ "' not found.")
  else
    confirm ← get_input ("Are you sure you want to delete student ID '"
                           +:+ student_id +:+ "'? (Y/N)") false;
    if bool_decide (upper confirm = "Y") then
      delete_student env (Some student_id);; mret ()
    else print "Operation cancelled.".

(** ** The menu *)

Definition DATA_FILE : string := "students.csv".

Definition menu : M unit :=
  print (String Py.NL (times "=" 30));;
  print "| Student Management System |";;
  print (times "=" 30);;
  print "| 1. Add Student            |";;
  print "| 2. List Students          |";;
  print "| 3. Update Student         |";;
  print "| 4. Delete Student         |";;
  print "| 5. Exit                   |";;
  print (times "=" 30).

(** The [while True] of [main]: every turn reads at least one line. *)
Fixpoint main_loop (fuel : nat) (env : Env) : M unit :=
  match fuel with
  | 0 => throw EOFError
  | S fuel' =>
      menu;;
      choice ← get_input "Enter your choice (1-5)" false;
      if bool_decide (choice = "1") then
        cli_add_student env;; main_loop fuel' env
      else if bool_decide (choice = "2") then
        list_students;; main_loop fuel' env
      else if bool_decide (choice = "3") then
        cli_update_student env;; main_loop fuel' env
      else if bool_decide (choice = "4") then
        cli_delete_student env;; main_loop fuel' env
      else if bool_decide (choice = "5") then
        print (String Py.NL "👋 Exiting Student Management System. Goodbye!")
      else
        print (String Py.NL "🚨 Invalid choice. Please enter a number between 1 and 5.");;
        main_loop fuel' env
  end.

Definition main (env : Env) : M unit :=
  print "🚀 Initializing Student Management System...";;
  StudentManager env DATA_FILE;;
  lines ← get stdin;
  main_loop (S (length lines)) env.

End Roster.

(** * Notions used to state the properties of the student records *)

Section roster_notions.
Import Roster.

(** A line that [get_input] does not take as an answer. *)
Definition blank (line : string) : bool := bool_decide (strip line = "").

Fixpoint leading_blanks (lines : list string) : nat :=
  match lines with
  | [] => 0
  | line :: rest => if blank line then S (leading_blanks rest) else 0
  end.

Definition prompt_text (prompt : string) : string := "   " +:+ prompt +:+ ": ".

Definition retry_text : string :=
  "   Input cannot be empty. Please try again." +:+ String Py.NL "".

(** What [get_input] writes when it has to ask [n + 1] times. *)
Definition asked (prompt : string) (n : nat) : list string :=
  concat (replicate n [prompt_text prompt; retry_text]) ++ [prompt_text prompt].

(** The state after reading [n] lines and writing [pieces]. *)
Definition consumed (n : nat) (pieces : list string) (st : State) : State :=
  mkState (files st) (stdout st ++ pieces) (drop n (stdin st)) (opens st)
    (filename st) (students st).

End roster_notions.

Section roster_invariants.
Import Roster.

(** The dictionary of the manager is keyed by the identifiers: no key
    twice, and every student under its own identifier. *)
Definition keyed (d : list (Value * Student)) : Prop :=
  NoDup d.*1 ∧ Forall (λ kv, student_id kv.2 = kv.1) d.

Definition keyed_state (st : State) : Prop := keyed (students st).

(** A property of the state that a run keeps, whatever its outcome. *)
Definition maintains {A} (P : State → Prop) (m : M A) : Prop :=
  ∀ st, P st → P (snd (m st)).

(** A property that only looks at the manager. *)
Definition of_manager (P : State → Prop) : Prop :=
  ∀ st st', filename st' = filename st → students st' = students st →
            P st → P st'.

(** A property that looks neither at the output nor at the input. *)
Definition of_data (P : State → Prop) : Prop :=
  ∀ st st', files st' = files st → opens st' = opens st →
            filename st' = filename st → students st' = students st →
            P st → P st'.

End roster_invariants.

Section roster_files.
Import Roster.

(** Everything the reader holds is within the limit. *)
Definition within (r : Csv.Reader) : Prop :=
  (Z.of_nat (length (Csv.field r)) ≤ Csv.field_size_limit)%Z
  ∧ Forall short (Csv.fields r)
  ∧ Forall (Forall short) (Csv.rows r).

(** The cells of the record of a student in the file. *)
Definition cells (s : Student) : list string :=
  [default "" (student_id s); default "" (name s); default "" (grade s)].

(** A student that the file can hold as it is: no field is [None] and no
    field is longer than the reader accepts. *)
Definition storable (s : Student) : Prop :=
  ∃ n i g, s = mkStudent (Some n) (Some i) (Some g)
           ∧ short n ∧ short i ∧ short g.

(** What a manager made on a file of this content holds; [None] when
    making it raises. *)
Definition loaded (content : option string) : option (list (Value * Student)) :=
  match content with
  | None => Some []
  | Some text =>
      let '(rows, failed) := reader text in
      if failed then None else Some (foldl load_row [] (DictReader rows))
  end.

End roster_files.

Section roster_runs.
Import Roster.

Definition saved_line (path : string) : string :=
  (String Py.NL "✅ Records saved successfully to " +:+ path +:+ ".")
  +:+ String Py.NL "".

(** The state after a call of [open]. *)
Definition opened (st : State) : State := set_opens (S (opens st)) st.

(** The state after a run of [_save_records] that could open the file. *)
Definition saved (st : State) : State :=
  mkState (<[filename st := records_text (students st)]> (files st))
    (stdout st ++ [saved_line (filename st)]) (stdin st) (S (opens st))
    (filename st) (students st).

(** The state in which the manager holds [d]. *)
Definition holding (d : list (Value * Student)) (st : State) : State :=
  set_students d st.

(** The state after one more line printed. *)
Definition printed (line : string) (st : State) : State :=
  consumed 0 [line +:+ String Py.NL ""] st.

Definition exists_line (k : Value) : string :=
  String Py.NL "❌ Error: Student ID '" +:+ str k +:+ "' already exists.".

Definition not_found_line (k : Value) : string :=
  String Py.NL "❌ Error: Student ID '" +:+ str k +:+ "' not found.".

(** The student that [update_student] puts in the place of [s]. *)
Definition updated (new_name new_grade : Value) (s : Student) : Student :=
  mkStudent (match new_name with Some _ => new_name | None => name s end)
            (student_id s)
            (match new_grade with Some _ => new_grade | None => grade s end).

(** A manager with two students, on a file that holds them, and three lines
    to read. *)
Definition ann : Student := mkStudent (Some "Ann") (Some "a1") (Some "A").
Definition bob : Student := mkStudent (Some "Bob, Jr.") (Some "b2") (Some "B").
Definition cy : Student := mkStudent (Some "Cy") (Some "c3") (Some "C").

Definition two_students : list (Value * Student) :=
  [(Some "b2", bob); (Some "a1", ann)].

Definition class_state : State :=
  mkState (<["students.csv" := records_text two_students]> ∅) []
    ["  "; " b2 "; "y"] 0 "students.csv" two_students.

(** Files can always be opened. *)
Definition calm : Env := mkEnv (λ _, None).

(** No file can be opened. *)
Definition stormy : Env := mkEnv (λ _, Some "[Errno 13] Permission denied").

End roster_runs.

Section roster_listing.
Import Roster.

(** The identifier as [sorted] compares it, for a student that has one. *)
Definition id_of (s : Student) : string := default "" (student_id s).

Definition id_le (a b : Student) : Prop := String.le (id_of a) (id_of b).

(** A student that [list_students] can show: no field is [None]. *)
Definition presentable (s : Student) : Prop :=
  is_Some (student_id s) ∧ is_Some (name s) ∧ is_Some (grade s).

(** The line of the table for a student, as it is written. *)
Definition table_line (s : Student) : string :=
  ("| " +:+ ljust 6 (default "" (student_id s)) +:+ " | "
   +:+ ljust 20 (default "" (name s)) +:+ " | "
   +:+ ljust 6 (default "" (grade s)) +:+ " |") +:+ String Py.NL "".

Definition table_head : list string :=
  [ String Py.NL (times "=" 50) +:+ String Py.NL "";
    "|                 STUDENT RECORDS                  |" +:+ String Py.NL "";
    times "=" 50 +:+ String Py.NL "";
    "| ID     | NAME                 | GRADE  |" +:+ String Py.NL "";
    times "-" 50 +:+ String Py.NL "" ].

Definition table_foot : string := times "=" 50 +:+ String Py.NL "".

(** A student read from a short row: the grade is [None]. *)
Definition dan : Student := mkStudent (Some "Dan") (Some "d4") None.

Definition short_row_state : State :=
  mkState ∅ [] [] 0 "students.csv" [(Some "a1", ann); (Some "d4", dan)].

End roster_listing.

Section roster_triples.
Import Roster.

(** Between two states, nothing changed but the output and the input. *)
Definition quiet (st st' : State) : Prop :=
  files st' = files st ∧ opens st' = opens st
  ∧ filename st' = filename st ∧ students st' = students st.

(** A property of the state that survives writing to the output and
    reading from the input. *)
Definition closed (P : State → Prop) : Prop :=
  ∀ st st', quiet st st' → stdin st' `suffix_of` stdin st → P st → P st'.

(** From a state in [P], a run of [m] that returns [a] ends in a state in
    [Q a], and a run that raises ends in a state in [E]. *)
Definition triple {A} (P : State → Prop) (m : M A) (Q : A → State → Prop)
    (E : State → Prop) : Prop :=
  ∀ st, P st →
    match m st with
    | (Ok a, st') => Q a st'
    | (Err _, st') => E st'
    end.

(** An answer of the user: a line of the input that is in [L], stripped. *)
Definition answer_of (L : string → Prop) (a : string) : Prop :=
  ∃ line, L line ∧ a = strip line.

End roster_triples.

Section roster_dialogue.
Import Roster.

(** What the user typed for a field that may be left blank. *)
Definition entered (line : string) : Value :=
  if bool_decide (strip line = "") then None else Some (strip line).

(** The manager of [class_state], and the lines of a user who changes the
    grade of [a1] and leaves the name blank. *)
Definition regrade_state : State :=
  mkState (<["students.csv" := records_text two_students]> ∅) []
    [" a1"; ""; " b "] 0 "students.csv" two_students.

(** The same manager, and a user who asks for [b2] to be deleted and then
    answers no. *)
Definition hesitant_state : State :=
  mkState (<["students.csv" := records_text two_students]> ∅) []
    ["b2"; "n"] 0 "students.csv" two_students.

End roster_dialogue.

Section roster_session.
Import Roster.

(** Files can always be opened. *)
Definition never_fails (env : Env) : Prop := ∀ k, open_fault env k = None.

(** The manager and its file agree, and nothing stands in the way of
    their going on to agree: the dictionary is keyed by the identifiers,
    every student is storable, a new manager made on the file would hold
    the same dictionary, and no line of the input is longer than a field
    may be. *)
Definition settled (st : State) : Prop :=
  keyed (students st)
  ∧ Forall storable (students st).*2
  ∧ loaded (files st !! filename st) = Some (students st)
  ∧ Forall short (stdin st).

(** A user who adds a student, lists, changes a grade, deletes a student
    and leaves; there is no file yet. *)
Definition busy_state : State :=
  mkState ∅ []
    ["1"; "Ann"; "a1"; "a"; "1"; "Bob, Jr."; "b2"; "b"; "2";
     "3"; "a1"; ""; "c"; "4"; "b2"; "y"; "5"]
    0 "" [].

End roster_session.

Section roster_turns.
Import Roster.

(** At most [n] lines are left to read. *)
Definition lines_left (n : nat) (st : State) : Prop := length (stdin st) ≤ n.

(** A file whose header has no column for the grades. *)
Definition no_grades_state : State :=
  mkState (<["students.csv" :=
               "id,name" +:+ String Py.NL ("a1,Ann" +:+ String Py.NL "")]> ∅)
    [] [] 0 "" [].

End roster_turns.

(** * Properties *)

(** ** The monad *)

Lemma run_bind {A B} (m : Run A) (f : A → Run B) (w : World) :
  (m ≫= f) w =
  match m w with
  | (Return a, w') => f a w'
  | (Raise e, w') => (Raise e, w')
  end.
Proof. reflexivity. Qed.

Lemma run_ret {A} (a : A) (w : World) : mret (M := Run) a w = (Return a, w).
Proof. reflexivity. Qed.

Lemma run_try {A} (m : Run A) (w : World) :
  try m w = (Return (fst (m w)), snd (m w)).
Proof. unfold try. by destruct (m w). Qed.

Lemma db_access_ok env w :
  db_fault env (db_calls w) = None → db_access env w = (Return (), bump w).
Proof. unfold db_access. by intros ->. Qed.

Lemma db_access_fault env w msg :
  db_fault env (db_calls w) = Some msg →
  db_access env w = (Raise (Py.OperationalError msg), bump w).
Proof. unfold db_access. by intros ->. Qed.

(** ** In-batch deduplication *)

Lemma drop_duplicates_from_links seen df a :
  a ∈ drop_duplicates_from seen df → (link a ∉ seen) ∧ a ∈ df.
Proof.
  revert seen. induction df as [|b df IH]; intros seen; simpl.
  - by intros ?%elem_of_nil.
  - case_bool_decide as Hb.
    + intros [? ?]%IH. split; [done|by right].
    + intros [->|[Hn ?]%IH]%elem_of_cons.
      * split; [done|by left].
      * split; [|by right]. intros ?. apply Hn. by right.
Qed.

Lemma drop_duplicates_from_NoDup seen df :
  NoDup (link <$> drop_duplicates_from seen df).
Proof.
  revert seen. induction df as [|b df IH]; intros seen; simpl.
  - constructor.
  - case_bool_decide; [apply IH|].
    rewrite fmap_cons. constructor; [|apply IH].
    intros Hin. apply list_elem_of_fmap in Hin as (a & Hl & Ha).
    apply drop_duplicates_from_links in Ha as [Hn _].
    apply Hn. rewrite <- Hl. by left.
Qed.

Lemma drop_duplicates_from_length seen df :
  length (drop_duplicates_from seen df) ≤ length df.
Proof.
  revert seen. induction df as [|b df IH]; intros seen; simpl; [lia|].
  case_bool_decide; simpl; [specialize (IH seen)|specialize (IH (link b :: seen))]; lia.
Qed.

(** Every link of the batch survives, carried by its first occurrence. *)
Lemma drop_duplicates_from_complete seen df a :
  a ∈ df → link a ∈ seen ∨ link a ∈ link <$> drop_duplicates_from seen df.
Proof.
  revert seen. induction df as [|b df IH]; intros seen; simpl.
  - by intros ?%elem_of_nil.
  - intros [->|Ha]%elem_of_cons.
    + case_bool_decide; [by left|]. right. rewrite fmap_cons. by left.
    + case_bool_decide; [by apply IH|].
      destruct (IH (link b :: seen) Ha) as [[->|?]%elem_of_cons|?].
      * right. rewrite fmap_cons. by left.
      * by left.
      * right. rewrite fmap_cons. by right.
Qed.

Lemma drop_duplicates_NoDup df : NoDup (link <$> drop_duplicates df).
Proof. apply drop_duplicates_from_NoDup. Qed.

Lemma drop_duplicates_length df : length (drop_duplicates df) ≤ length df.
Proof. apply drop_duplicates_from_length. Qed.

Lemma drop_duplicates_nonempty a df : drop_duplicates (a :: df) ≠ [].
Proof.
  unfold drop_duplicates. simpl. done.
Qed.

(** First occurrence wins: a record that survives is the first record of
    the batch that carries its link. *)
Lemma drop_duplicates_from_first seen df a :
  a ∈ drop_duplicates_from seen df →
  ∃ l1 l2, df = l1 ++ a :: l2 ∧ link a ∉ link <$> l1.
Proof.
  revert seen. induction df as [|b df IH]; intros seen; simpl.
  - by intros ?%elem_of_nil.
  - case_bool_decide as Hb.
    + intros Ha. pose proof (drop_duplicates_from_links _ _ _ Ha) as [Hn _].
      destruct (IH _ Ha) as (l1 & l2 & -> & Hl1).
      exists (b :: l1), l2. split; [done|].
      rewrite fmap_cons, not_elem_of_cons. split; [|done].
      intros Heq. apply Hn. by rewrite Heq.
    + intros [->|Ha]%elem_of_cons.
      * exists [], df. split; [done|]. rewrite fmap_nil. apply not_elem_of_nil.
      * pose proof (drop_duplicates_from_links _ _ _ Ha) as [Hn _].
        destruct (IH _ Ha) as (l1 & l2 & -> & Hl1).
        exists (b :: l1), l2. split; [done|].
        rewrite fmap_cons, not_elem_of_cons. split; [|done].
        intros Heq. apply Hn. rewrite Heq. by left.
Qed.

Lemma drop_duplicates_first_wins df a :
  a ∈ drop_duplicates df →
  ∃ l1 l2, df = l1 ++ a :: l2 ∧ link a ∉ link <$> l1.
Proof. apply drop_duplicates_from_first. Qed.

(** ** The insert loop as a fold *)

Lemma tally_cons p r l :
  tally p (r :: l) = ((if p r then 1 else 0) + tally p l)%Z.
Proof.
  unfold tally. rewrite filter_cons.
  destruct (p r); case_decide; try done; simpl length; lia.
Qed.

Lemma tally_nil p : tally p [] = 0%Z.
Proof. reflexivity. Qed.

Lemma tally_nonneg p l : (0 ≤ tally p l)%Z.
Proof. unfold tally. lia. Qed.

(** Each result is exactly one of the three. *)
Lemma tally_total l :
  (tally is_inserted l + tally is_duplicate l + tally is_failed l
   = Z.of_nat (length l))%Z.
Proof.
  induction l as [|r l IH]; [done|].
  rewrite !tally_cons. simpl length. destruct r; simpl; lia.
Qed.

Lemma insert_results_length env conn k rows :
  length (insert_results env conn k rows) = length rows.
Proof.
  revert conn k. induction rows as [|row rest IH]; intros conn k; simpl; [done|].
  by rewrite IH.
Qed.

Lemma execute_insert_run env conn row w :
  execute_insert env conn row w =
  (match insert_result env conn (db_calls w) row with
   | Inserted => Return (conn ++ [row])
   | Duplicate =>
       Raise (Py.IntegrityError
         (if bool_decide (row_id row ∈ row_id <$> conn)
          then "UNIQUE constraint failed: articles.id"
          else "UNIQUE constraint failed: articles.link"))
   | Failed msg => Raise (Py.OperationalError msg)
   end, bump w).
Proof.
  unfold execute_insert, insert_result. rewrite run_bind. unfold db_access.
  destruct (db_fault env (db_calls w)) as [msg|]; [done|].
  destruct (bool_decide (row_id row ∈ row_id <$> conn)); [done|].
  by destruct (bool_decide (link (row_data row) ∈ (link ∘ row_data) <$> conn)).
Qed.

(** The loop always runs to its end: it returns the final view of the
    connection and the two counters, and prints one line per insert that
    failed otherwise than on a constraint. *)
Lemma insert_loop_run env conn rows n d w :
  let results := insert_results env conn (db_calls w) rows in
  insert_loop env conn rows n d w =
  (Return (conn_final env conn (db_calls w) rows,
           (n + tally is_inserted results)%Z,
           (d + tally is_duplicate results)%Z),
   mkWorld (db w) (fs w) (stdout w ++ error_lines rows results)
     (uuid_calls w) (db_calls w + length rows)).
Proof.
  revert conn n d w. induction rows as [|row rest IH]; intros conn n d w; simpl.
  - rewrite run_ret, !tally_nil, !Z.add_0_r, app_nil_r, Nat.add_0_r.
    by destruct w.
  - rewrite run_bind, run_try, execute_insert_run. simpl.
    rewrite !tally_cons. unfold conn_after.
    destruct (insert_result env conn (db_calls w) row) as [| |msg]; simpl.
    + rewrite IH. simpl.
      by rewrite ?Z.add_0_l, ?Z.add_assoc, ?Nat.add_succ_r.
    + rewrite IH. simpl.
      by rewrite ?Z.add_0_l, ?Z.add_assoc, ?Nat.add_succ_r.
    + rewrite run_bind. unfold print, modify. rewrite IH. simpl.
      by rewrite <- app_assoc, ?Z.add_0_l, ?Nat.add_succ_r.
Qed.

(** ** [save_articles] *)

Lemma staged_rows_length env w articles :
  length (staged_rows env w articles) = length (drop_duplicates articles).
Proof.
  unfold staged_rows. rewrite length_zip_with, length_fmap, length_seq. lia.
Qed.

Lemma staged_rows_data env w articles :
  row_data <$> staged_rows env w articles = drop_duplicates articles.
Proof.
  unfold staged_rows. apply fmap_zip_with_r; [done|].
  by rewrite length_fmap, length_seq.
Qed.

Lemma staged_rows_ids env w articles :
  row_id <$> staged_rows env w articles =
  uuid4 env <$> seq (uuid_calls w) (length (drop_duplicates articles)).
Proof.
  unfold staged_rows. apply fmap_zip_with_l; [done|].
  by rewrite length_fmap, length_seq.
Qed.

(** A run on a batch that is not empty, when neither opening the store nor
    committing fails: the summary and the state it leaves. *)
Lemma save_articles_run env articles w :
  articles ≠ [] →
  db_fault env (db_calls w) = None →
  db_fault env (S (db_calls w) + length (drop_duplicates articles)) = None →
  let results := ingest_results env w articles in
  let total := Z.of_nat (length articles) in
  ∃ w',
    save_articles env articles w =
    (Return (Some (mkReport total (tally is_inserted results)
                     (total - tally is_inserted results))), w')
    ∧ db w' = conn_final env (db w) (S (db_calls w)) (staged_rows env w articles)
    ∧ fs w' = fs w
    ∧ uuid_calls w' = uuid_calls w + length (drop_duplicates articles)
    ∧ db_calls w' = db_calls w + length (drop_duplicates articles) + 2
    ∧ stdout w'
      = stdout w ++ [attempt_line articles]
        ++ error_lines (staged_rows env w articles) results
        ++ summary_lines (mkReport total (tally is_inserted results)
                            (total - tally is_inserted results)).
Proof.
  intros Hne Hopen Hcommit results total.
  destruct articles as [|a rest]; [done|].
  unfold save_articles, fresh_ids, get_db_connection, commit, print, modify, gets.
  rewrite !run_bind. rewrite db_access_ok by done. cbn beta iota.
  rewrite run_bind. cbn beta iota.
  rewrite run_bind, insert_loop_run. cbn beta iota zeta.
  rewrite !run_bind.
  rewrite db_access_ok.
  2:{ cbn [db_calls bump set_db_calls set_uuid_calls set_stdout].
      rewrite <- Hcommit. f_equal.
      pose proof (staged_rows_length env w (a :: rest)) as Hl.
      unfold staged_rows in Hl. rewrite Hl. lia. }
  cbn beta iota. rewrite !run_bind. cbn beta iota.
  eexists. split; [|].
  - rewrite Z.add_0_l. reflexivity.
  - cbn [db fs uuid_calls db_calls stdout bump set_db_calls set_uuid_calls
         set_stdout set_db].
    split_and!; try done.
    + pose proof (staged_rows_length env w (a :: rest)) as Hl.
      unfold staged_rows in Hl. rewrite Hl. lia.
    + unfold summary_lines, attempt_line. cbn [attempted inserted duplicates].
      rewrite <- !app_assoc. reflexivity.
Qed.

Lemma save_articles_empty env w :
  save_articles env [] w =
  (Return None, set_stdout (stdout w ++ ["No articles to save."]) w).
Proof. reflexivity. Qed.

(** When the store cannot be opened, [save_articles] raises before any
    insert and the store is as it was. *)
Lemma save_articles_connect_fault env articles w msg :
  articles ≠ [] →
  db_fault env (db_calls w) = Some msg →
  ∃ w',
    save_articles env articles w = (Raise (Py.OperationalError msg), w')
    ∧ db w' = db w ∧ fs w' = fs w ∧ stdout w' = stdout w.
Proof.
  intros Hne Hf. destruct articles as [|a rest]; [done|].
  unfold save_articles, fresh_ids, get_db_connection.
  rewrite !run_bind. cbn beta iota.
  rewrite (db_access_fault _ _ msg) by done.
  eexists. split; [reflexivity|]. done.
Qed.

(** When the commit fails, [save_articles] raises and none of the inserts
    of the run reaches the store. *)
Lemma save_articles_commit_fault env articles w msg :
  articles ≠ [] →
  db_fault env (db_calls w) = None →
  db_fault env (S (db_calls w) + length (drop_duplicates articles)) = Some msg →
  ∃ w',
    save_articles env articles w = (Raise (Py.OperationalError msg), w')
    ∧ db w' = db w ∧ fs w' = fs w.
Proof.
  intros Hne Hopen Hcommit. destruct articles as [|a rest]; [done|].
  unfold save_articles, fresh_ids, get_db_connection, commit, print, modify, gets.
  rewrite !run_bind. rewrite db_access_ok by done. cbn beta iota.
  rewrite run_bind. cbn beta iota.
  rewrite run_bind, insert_loop_run. cbn beta iota zeta.
  rewrite !run_bind.
  rewrite (db_access_fault _ _ msg).
  2:{ cbn [db_calls bump set_db_calls set_uuid_calls set_stdout].
      rewrite <- Hcommit. f_equal.
      pose proof (staged_rows_length env w (a :: rest)) as Hl.
      unfold staged_rows in Hl. rewrite Hl. lia. }
  eexists. split; [reflexivity|]. done.
Qed.

Lemma tally_replicate p n r :
  tally p (replicate n r) = if p r then Z.of_nat n else 0%Z.
Proof.
  induction n as [|n IH]; simpl replicate.
  - rewrite tally_nil. by destruct (p r).
  - rewrite tally_cons, IH. destruct (p r); lia.
Qed.

(** Rows whose identifiers and links are new and pairwise distinct are all
    inserted when the store does not fail. *)
Lemma insert_results_fresh env conn k rows :
  no_faults env →
  NoDup (row_id <$> rows) →
  NoDup ((link ∘ row_data) <$> rows) →
  (∀ r, r ∈ rows → row_id r ∉ row_id <$> conn) →
  (∀ r, r ∈ rows → link (row_data r) ∉ (link ∘ row_data) <$> conn) →
  insert_results env conn k rows = replicate (length rows) Inserted
  ∧ conn_final env conn k rows = conn ++ rows.
Proof.
  intros Hnf. revert conn k.
  induction rows as [|row rest IH]; intros conn k Hids Hlinks Hid Hlink.
  - simpl. by rewrite app_nil_r.
  - rewrite !fmap_cons in *. apply NoDup_cons in Hids as [Hi Hids].
    apply NoDup_cons in Hlinks as [Hl Hlinks].
    assert (insert_result env conn k row = Inserted) as Hres.
    { unfold insert_result. rewrite Hnf.
      rewrite bool_decide_eq_false_2 by (apply Hid; by left).
      by rewrite bool_decide_eq_false_2 by (apply Hlink; by left). }
    simpl. rewrite Hres. unfold conn_after. simpl.
    destruct (IH (conn ++ [row]) (S k)) as [-> ->]; try done.
    + intros r Hr. rewrite fmap_app, elem_of_app. simpl.
      intros [?|Heq%list_elem_of_singleton]; [by eapply Hid; [right|]|].
      apply Hi. rewrite <- Heq. by apply list_elem_of_fmap_2.
    + intros r Hr. rewrite fmap_app, elem_of_app. simpl.
      intros [?|Heq%list_elem_of_singleton]; [by eapply Hlink; [right|]|].
      apply Hl. change ((link ∘ row_data) row) with (link (row_data row)).
      rewrite <- Heq. by apply (list_elem_of_fmap_2 (link ∘ row_data)).
    + split; [done|]. by rewrite <- app_assoc.
Qed.

(** Rows whose links are all stored already are all rejected. *)
Lemma insert_results_present env conn k rows :
  no_faults env →
  (∀ r, r ∈ rows → link (row_data r) ∈ (link ∘ row_data) <$> conn) →
  insert_results env conn k rows = replicate (length rows) Duplicate
  ∧ conn_final env conn k rows = conn.
Proof.
  intros Hnf. revert k.
  induction rows as [|row rest IH]; intros k Hlink; [done|].
  assert (insert_result env conn k row = Duplicate) as Hres.
  { unfold insert_result. rewrite Hnf.
    rewrite (bool_decide_eq_true_2 (link _ ∈ _)) by (apply Hlink; by left).
    by rewrite orb_true_r. }
  simpl. rewrite Hres. unfold conn_after. simpl.
  destruct (IH (S k)) as [-> ->]; [|done].
  intros r Hr. apply Hlink. by right.
Qed.

Lemma staged_rows_links env w articles :
  (link ∘ row_data) <$> staged_rows env w articles
  = link <$> drop_duplicates articles.
Proof. by rewrite list_fmap_compose, staged_rows_data. Qed.

(** C1: when the store does not fail and [uuid4] never repeats a value,
    every batch [B] ingested into an empty store leaves in it exactly the
    candidates that survive the deduplication inside the batch, and
    ingesting the same [B] again leaves the store as it is.  When [B] is not
    empty, the first summary has [inserted + duplicates = attempted], every
    surviving candidate being inserted and the candidates dropped inside the
    batch being the duplicates; the second summary has the same identity and
    [inserted = 0], every candidate being a duplicate now.  The empty batch
    prints no summary. *)
Theorem save_articles_identity_and_idempotence env (B : list Article) w :
  no_faults env →
  Inj (=) (=) (uuid4 env) →
  db w = [] →
  ∃ o1 w1 o2 w2,
    save_articles env B w = (Return o1, w1)
    ∧ save_articles env B w1 = (Return o2, w2)
    ∧ row_data <$> db w1 = drop_duplicates B
    ∧ db w2 = db w1
    ∧ match B with
      | [] => o1 = None ∧ o2 = None
      | _ :: _ =>
          ∃ r1 r2,
            o1 = Some r1 ∧ o2 = Some r2
            ∧ (inserted r1 + duplicates r1 = attempted r1)%Z
            ∧ attempted r1 = Z.of_nat (length B)
            ∧ inserted r1 = Z.of_nat (length (drop_duplicates B))
            ∧ duplicates r1 = Z.of_nat (length B - length (drop_duplicates B))
            ∧ (inserted r2 + duplicates r2 = attempted r2)%Z
            ∧ attempted r2 = Z.of_nat (length B)
            ∧ inserted r2 = 0%Z
            ∧ duplicates r2 = Z.of_nat (length B)
      end.
Proof.
  intros Hnf Hinj Hdb.
  destruct B as [|a B'] eqn:HB.
  { eexists None, _, None, _.
    split; [apply save_articles_empty|]. split; [apply save_articles_empty|].
    simpl. by rewrite Hdb. }
  rewrite <- HB. assert (B ≠ []) as Hne by by rewrite HB. clear HB.
  destruct (save_articles_run env B w Hne (Hnf _) (Hnf _))
    as (w1 & Hrun1 & Hdb1 & _ & _ & _).
  destruct (insert_results_fresh env (db w) (S (db_calls w)) (staged_rows env w B))
    as [Hres1 Hfin1]; try done.
  { rewrite staged_rows_ids. apply NoDup_fmap_2; [done|apply NoDup_seq]. }
  { rewrite staged_rows_links. apply drop_duplicates_NoDup. }
  { intros r _. rewrite Hdb. simpl. apply not_elem_of_nil. }
  { intros r _. rewrite Hdb. simpl. apply not_elem_of_nil. }
  destruct (save_articles_run env B w1 Hne (Hnf _) (Hnf _))
    as (w2 & Hrun2 & Hdb2 & _ & _ & _).
  destruct (insert_results_present env (db w1) (S (db_calls w1)) (staged_rows env w1 B))
    as [Hres2 Hfin2]; try done.
  { intros r Hr. rewrite Hdb1, Hfin1, Hdb. simpl. rewrite staged_rows_links.
    apply list_elem_of_fmap_2. rewrite <- (staged_rows_data env w1 B).
    by apply list_elem_of_fmap_2. }
  eexists _, w1, _, w2. split; [exact Hrun1|]. split; [exact Hrun2|].
  split; [by rewrite Hdb1, Hfin1, Hdb, app_nil_l, staged_rows_data|].
  split; [by rewrite Hdb2, Hfin2|].
  eexists _, _. split; [reflexivity|]. split; [reflexivity|].
  unfold ingest_results. rewrite Hres1, Hres2, !tally_replicate. simpl.
  rewrite staged_rows_length. pose proof (drop_duplicates_length B).
  repeat split; lia.
Qed.

(** The rows that the loop adds, and the lines it prints. *)
Lemma conn_final_added env conn k rows :
  ∃ new,
    conn_final env conn k rows = conn ++ new
    ∧ new `sublist_of` rows
    ∧ Z.of_nat (length new) = tally is_inserted (insert_results env conn k rows).
Proof.
  revert conn k. induction rows as [|row rest IH]; intros conn k; simpl.
  - exists []. by rewrite app_nil_r.
  - destruct (IH (conn_after conn row (insert_result env conn k row)) (S k))
      as (new & -> & Hsub & Hlen).
    rewrite tally_cons. unfold conn_after in *.
    destruct (is_inserted (insert_result env conn k row)).
    + exists (row :: new). rewrite <- app_assoc.
      split; [done|]. split; [by apply sublist_skip|]. simpl length. lia.
    + exists new. split; [done|]. split; [by apply sublist_cons|]. lia.
Qed.

Lemma error_lines_length env conn k rows :
  Z.of_nat (length (error_lines rows (insert_results env conn k rows)))
  = tally is_failed (insert_results env conn k rows).
Proof.
  revert conn k. induction rows as [|row rest IH]; intros conn k; simpl; [done|].
  rewrite tally_cons.
  specialize (IH (conn_after conn row (insert_result env conn k row)) (S k)).
  destruct (insert_result env conn k row); simpl; lia.
Qed.

(** C10: when the store can be opened and the commit succeeds, whatever the
    inserts come to, the summary printed for a batch that is not empty
    gives, under "Skipped as duplicates", [attempted - inserted], where
    [inserted], the figure printed under "New articles inserted", is the
    number of rows that the store has gained, all of them records of the
    batch; so [inserted + duplicates = attempted], and the figure is the
    number of candidates dropped inside the batch, plus the inserts rejected
    by a constraint, plus the inserts that failed for another reason, each
    of which was reported on a line of its own before the summary.  The
    empty batch prints no summary and leaves the store as it is. *)
Theorem reported_duplicates_is_attempted_minus_inserted env (B : list Article) w :
  db_fault env (db_calls w) = None →
  db_fault env (S (db_calls w) + length (drop_duplicates B)) = None →
  ∃ o w',
    save_articles env B w = (Return o, w')
    ∧ match B with
      | [] =>
          o = None ∧ db w' = db w
          ∧ stdout w' = stdout w ++ ["No articles to save."]
      | _ :: _ =>
          ∃ r new,
            o = Some r
            ∧ attempted r = Z.of_nat (length B)
            ∧ inserted r = tally is_inserted (ingest_results env w B)
            ∧ duplicates r = (attempted r - inserted r)%Z
            ∧ (inserted r + duplicates r = attempted r)%Z
            ∧ duplicates r
              = (Z.of_nat (length B - length (drop_duplicates B))
                 + tally is_duplicate (ingest_results env w B)
                 + tally is_failed (ingest_results env w B))%Z
            ∧ db w' = db w ++ new
            ∧ new `sublist_of` staged_rows env w B
            ∧ inserted r = Z.of_nat (length new)
            ∧ stdout w'
              = stdout w ++ [attempt_line B]
                ++ error_lines (staged_rows env w B) (ingest_results env w B)
                ++ summary_lines r
            ∧ Z.of_nat (length (error_lines (staged_rows env w B)
                                  (ingest_results env w B)))
              = tally is_failed (ingest_results env w B)
      end.
Proof.
  intros Hopen Hcommit.
  destruct B as [|a B'] eqn:HB.
  { eexists _, _. by rewrite save_articles_empty. }
  rewrite <- HB in *. assert (B ≠ []) as Hne by by rewrite HB. clear HB.
  destruct (save_articles_run env B w Hne Hopen Hcommit)
    as (w' & Hrun & Hdb & _ & _ & _ & Hout).
  destruct (conn_final_added env (db w) (S (db_calls w)) (staged_rows env w B))
    as (new & Hnew & Hsub & Hlen).
  eexists _, w'. split; [exact Hrun|].
  eexists _, new. split; [reflexivity|]. cbn [attempted inserted duplicates].
  pose proof (tally_total (ingest_results env w B)) as Htot.
  unfold ingest_results in Htot at 4.
  rewrite insert_results_length, staged_rows_length in Htot.
  pose proof (drop_duplicates_length B).
  split_and!; try lia.
  - by rewrite Hdb.
  - done.
  - by rewrite Hlen.
  - exact Hout.
  - apply error_lines_length.
Qed.

(** C2: with a link [L1] stored and a link [L3] not stored, the batch made of
    a record with [L1] and two records with [L3] is summarised as
    attempted 3, inserted 1, duplicates 2, and the store gains exactly the
    first record with [L3]. *)
Theorem save_articles_scenario env w (a1 a3 a3' : Article) :
  no_faults env →
  link a1 ∈ (link ∘ row_data) <$> db w →
  link a3 ∉ (link ∘ row_data) <$> db w →
  link a3' = link a3 →
  uuid4 env (S (uuid_calls w)) ∉ row_id <$> db w →
  ∃ w',
    save_articles env [a1; a3; a3'] w = (Return (Some (mkReport 3 1 2)), w')
    ∧ db w' = db w ++ [mkRow (uuid4 env (S (uuid_calls w))) a3].
Proof.
  intros Hnf H1 H3 H3' Hid.
  assert (link a3 ≠ link a1) as Hne by (intros Heq; apply H3; by rewrite Heq).
  assert (drop_duplicates [a1; a3; a3'] = [a1; a3]) as Hdd.
  { unfold drop_duplicates. simpl.
    rewrite (bool_decide_eq_false_2 (link a3 ∈ [link a1])).
    2:{ by intros ?%list_elem_of_singleton. }
    rewrite (bool_decide_eq_true_2 (link a3' ∈ _)); [done|].
    rewrite H3'. by left. }
  destruct (save_articles_run env [a1; a3; a3'] w) as (w' & Hrun & Hdb & _);
    [done|apply Hnf..|].
  assert (staged_rows env w [a1; a3; a3']
          = [mkRow (uuid4 env (uuid_calls w)) a1;
             mkRow (uuid4 env (S (uuid_calls w))) a3]) as Hrows.
  { unfold staged_rows. by rewrite Hdd. }
  assert (ingest_results env w [a1; a3; a3'] = [Duplicate; Inserted]
          ∧ conn_final env (db w) (S (db_calls w)) (staged_rows env w [a1; a3; a3'])
            = db w ++ [mkRow (uuid4 env (S (uuid_calls w))) a3]) as [Hres Hfin].
  { unfold ingest_results. rewrite Hrows. simpl.
    unfold insert_result, conn_after. rewrite !Hnf. simpl.
    rewrite (bool_decide_eq_true_2 (link a1 ∈ _)) by done.
    rewrite orb_true_r. simpl.
    rewrite (bool_decide_eq_false_2 (uuid4 env (S (uuid_calls w)) ∈ _)) by done.
    by rewrite (bool_decide_eq_false_2 (link a3 ∈ _)) by done. }
  exists w'. rewrite Hrun, Hdb, Hfin, Hres. done.
Qed.

(** *** Sample runs *)

Lemma save_articles_identity_and_idempotence_witness :
  ∃ o1 w1 o2 w2,
    save_articles sample_env sample_batch empty_world = (Return o1, w1)
    ∧ save_articles sample_env sample_batch w1 = (Return o2, w2)
    ∧ row_data <$> db w1 = drop_duplicates sample_batch
    ∧ db w2 = db w1
    ∧ ∃ r1 r2,
        o1 = Some r1 ∧ o2 = Some r2
        ∧ (inserted r1 + duplicates r1 = attempted r1)%Z
        ∧ attempted r1 = Z.of_nat (length sample_batch)
        ∧ inserted r1 = Z.of_nat (length (drop_duplicates sample_batch))
        ∧ duplicates r1
          = Z.of_nat (length sample_batch - length (drop_duplicates sample_batch))
        ∧ (inserted r2 + duplicates r2 = attempted r2)%Z
        ∧ attempted r2 = Z.of_nat (length sample_batch)
        ∧ inserted r2 = 0%Z
        ∧ duplicates r2 = Z.of_nat (length sample_batch).
Proof.
  apply (save_articles_identity_and_idempotence sample_env sample_batch empty_world).
  - intros k. reflexivity.
  - exact pretty_nat_inj.
  - reflexivity.
Defined.

Example sample_batch_first_run :
  fst (save_articles sample_env sample_batch empty_world)
  = Return (Some (mkReport 3 2 1)).
Proof. vm_compute. reflexivity. Qed.

Lemma reported_duplicates_is_attempted_minus_inserted_witness :
  ∃ o w',
    save_articles locked_env sample_batch empty_world = (Return o, w')
    ∧ ∃ r new,
        o = Some r
        ∧ attempted r = Z.of_nat (length sample_batch)
        ∧ inserted r
          = tally is_inserted (ingest_results locked_env empty_world sample_batch)
        ∧ duplicates r = (attempted r - inserted r)%Z
        ∧ (inserted r + duplicates r = attempted r)%Z
        ∧ duplicates r
          = (Z.of_nat (length sample_batch - length (drop_duplicates sample_batch))
             + tally is_duplicate (ingest_results locked_env empty_world sample_batch)
             + tally is_failed (ingest_results locked_env empty_world sample_batch))%Z
        ∧ db w' = db empty_world ++ new
        ∧ new `sublist_of` staged_rows locked_env empty_world sample_batch
        ∧ inserted r = Z.of_nat (length new)
        ∧ stdout w'
          = stdout empty_world ++ [attempt_line sample_batch]
            ++ error_lines (staged_rows locked_env empty_world sample_batch)
                 (ingest_results locked_env empty_world sample_batch)
            ++ summary_lines r
        ∧ Z.of_nat (length (error_lines (staged_rows locked_env empty_world sample_batch)
                              (ingest_results locked_env empty_world sample_batch)))
          = tally is_failed (ingest_results locked_env empty_world sample_batch).
Proof.
  apply (reported_duplicates_is_attempted_minus_inserted
           locked_env sample_batch empty_world).
  - reflexivity.
  - reflexivity.
Defined.

(** With the first insert failing on a locked database, one record is
    inserted and two are reported as duplicates, of which only one is. *)
Example locked_run :
  fst (save_articles locked_env sample_batch empty_world)
  = Return (Some (mkReport 3 1 2))
  ∧ ingest_results locked_env empty_world sample_batch
    = [Failed "database is locked"; Inserted]
  ∧ db (snd (save_articles locked_env sample_batch empty_world))
    = [mkRow "1" article_L3]
  ∧ stdout (snd (save_articles locked_env sample_batch empty_world))
    = [ "Attempting to insert 2 unique articles...";
        "Error inserting article T1: database is locked";
        String Py.NL "--- Save Results ---";
        "Total processed: 3";
        "New articles inserted: 1";
        "Skipped as duplicates (in batch or DB): 2" ].
Proof. vm_compute. done. Qed.

Lemma save_articles_scenario_witness :
  ∃ w',
    save_articles sample_env [article_L1; article_L3; article_L3'] stocked_world
    = (Return (Some (mkReport 3 1 2)), w')
    ∧ db w' = db stocked_world
              ++ [mkRow (uuid4 sample_env (S (uuid_calls stocked_world))) article_L3].
Proof.
  apply (save_articles_scenario sample_env stocked_world
           article_L1 article_L3 article_L3').
  - intros k. reflexivity.
  - vm_compute. by left.
  - vm_compute. intros H. by repeat (apply elem_of_cons in H as [H|H]; [discriminate|]);
      apply elem_of_nil in H.
  - reflexivity.
  - vm_compute. intros H. by repeat (apply elem_of_cons in H as [H|H]; [discriminate|]);
      apply elem_of_nil in H.
Defined.

(** ** Query *)

Lemma ltb_false_le x y : String.ltb x y = false → String.le y x.
Proof.
  unfold String.ltb, String.le, String.leb. rewrite (String.compare_antisym x y).
  by destruct (String.compare y x).
Qed.

Lemma ltb_true_le x y : String.ltb x y = true → String.le x y.
Proof.
  unfold String.ltb, String.le, String.leb. by destruct (String.compare x y).
Qed.

Lemma ltb_true_ne x y : String.ltb x y = true → x ≠ y.
Proof.
  unfold String.ltb. intros H ->.
  pose proof (String.compare_antisym y y) as Hc.
  by destruct (String.compare y y).
Qed.

Global Instance date_ge_trans : Transitive date_ge.
Proof. intros a b c Hab Hbc. unfold date_ge in *. by etrans. Qed.

Lemma insert_desc_perm x l : Sql.insert_desc x l ≡ₚ x :: l.
Proof.
  induction l as [|y l IH]; simpl; [done|].
  destruct (String.ltb _ _); [|done].
  rewrite IH. apply Permutation_swap.
Qed.

Lemma order_by_perm l : Sql.order_by_published_date_desc l ≡ₚ l.
Proof.
  induction l as [|x l IH]; simpl; [done|].
  by rewrite insert_desc_perm, IH.
Qed.

Lemma insert_desc_sorted x l :
  StronglySorted date_ge l → StronglySorted date_ge (Sql.insert_desc x l).
Proof.
  induction 1 as [|y l Hs IH Hall]; simpl.
  - repeat constructor.
  - destruct (String.ltb _ _) eqn:Hlt.
    + constructor; [done|].
      rewrite insert_desc_perm. constructor; [|done].
      by apply ltb_true_le.
    + apply ltb_false_le in Hlt.
      constructor; [by constructor|].
      constructor; [done|].
      eapply Forall_impl; [exact Hall|]. intros z Hz.
      by trans y.
Qed.

Lemma order_by_sorted l :
  StronglySorted date_ge (Sql.order_by_published_date_desc l).
Proof.
  induction l as [|x l IH]; simpl; [constructor|].
  by apply insert_desc_sorted.
Qed.

Lemma insert_desc_stable d x l :
  filter (λ r, date_of r = d) (Sql.insert_desc x l)
  = filter (λ r, date_of r = d) (x :: l).
Proof.
  induction l as [|y l IH]; simpl; [done|].
  destruct (String.ltb _ _) eqn:Hlt; [|done].
  apply ltb_true_ne in Hlt.
  rewrite (filter_cons _ y), IH, !filter_cons.
  unfold date_of in *.
  repeat case_decide; congruence.
Qed.

Lemma order_by_stable d l :
  filter (λ r, date_of r = d) (Sql.order_by_published_date_desc l)
  = filter (λ r, date_of r = d) l.
Proof.
  induction l as [|x l IH]; simpl; [done|].
  by rewrite insert_desc_stable, !filter_cons, IH.
Qed.

(** The statement built for a source and a valid date. *)
Example build_query_text :
  fst (build_query (mkArgs (Some "SourceA") None (Some "2024-05-02")) empty_world)
  = Return ([SourceLike; DateEq],
            <["date" := "2024-05-02"]> (<["source" := "%SourceA%"]> ∅))
  ∧ sql_text [SourceLike; DateEq]
    = "SELECT * FROM articles WHERE 1=1 AND source LIKE :source AND published_date = :date ORDER BY published_date DESC".
Proof. vm_compute. done. Qed.

Lemma build_query_unconstrained args w :
  unconstrained args → build_query args w = (Return ([], ∅), w).
Proof. intros (Hs & Hk & Hd). unfold build_query. by rewrite Hs, Hk, Hd. Qed.

Lemma filter_where_true_nil (table : list Row) :
  filter (λ r, where_true [] r) table = table.
Proof.
  induction table as [|r table IH]; [done|].
  rewrite filter_cons, IH. by case_decide.
Qed.

Lemma select_all table :
  select [] ∅ table = Some (Sql.order_by_published_date_desc table).
Proof. unfold select. simpl. by rewrite filter_where_true_nil. Qed.

(** [build_query] only prints. *)
Lemma build_query_frame args w r w' :
  build_query args w = (r, w') →
  db w' = db w ∧ fs w' = fs w ∧ db_calls w' = db_calls w
  ∧ uuid_calls w' = uuid_calls w.
Proof.
  unfold build_query.
  destruct (Py.truthy (arg_source args)), (Py.truthy (arg_keyword args)),
    (Py.truthy (arg_date args)); try (intros [= <- <-]; done);
    (destruct (Strptime.strptime _) as [?|[]]; intros [= <- <-]; done).
Qed.

(** A query whose statement is built and whose two accesses to the store
    succeed returns the selected rows without their identifier. *)
Lemma execute_query_ok env args w query params w1 rows :
  build_query args w = (Return (query, params), w1) →
  db_fault env (db_calls w) = None →
  db_fault env (S (db_calls w)) = None →
  select query params (db w) = Some rows →
  execute_query env args w = (Return (row_data <$> rows), bump (bump w1)).
Proof.
  intros Hb Hc Hs Hsel.
  destruct (build_query_frame _ _ _ _ Hb) as (Hdb & _ & Hcalls & _).
  unfold execute_query, get_db_connection, read_sql_query, gets.
  rewrite run_bind, Hb. cbn beta iota.
  rewrite !run_bind, db_access_ok by by rewrite Hcalls.
  cbn beta iota. rewrite run_bind, run_try, run_bind.
  rewrite db_access_ok by (simpl; by rewrite Hcalls).
  cbn beta iota. change (db (bump w1)) with (db w1).
  rewrite Hdb, Hsel. reflexivity.
Qed.

(** When the statement cannot be run, the cause is printed and the frame is
    empty. *)
Lemma execute_query_fault env args w query params w1 msg :
  build_query args w = (Return (query, params), w1) →
  db_fault env (db_calls w) = None →
  db_fault env (S (db_calls w)) = Some msg →
  execute_query env args w
  = (Return [],
     set_stdout (stdout w1 ++ ["Database query failed: " +:+ msg])
       (bump (bump w1))).
Proof.
  intros Hb Hc Hs.
  destruct (build_query_frame _ _ _ _ Hb) as (Hdb & _ & Hcalls & _).
  unfold execute_query, get_db_connection, read_sql_query, gets.
  rewrite run_bind, Hb. cbn beta iota.
  rewrite !run_bind, db_access_ok by by rewrite Hcalls.
  cbn beta iota. rewrite run_bind, run_try, run_bind.
  rewrite (db_access_fault _ _ msg) by (simpl; by rewrite Hcalls).
  reflexivity.
Qed.

(** C3: when no filter option is set, the statement built has no condition
    and no parameter; run on a store that does not fail, it returns every
    stored row once, in descending order of [published_date], rows of
    equal date keeping their order in the table. *)
Theorem unconstrained_query_returns_all_by_date env args w :
  unconstrained args →
  db_fault env (db_calls w) = None →
  db_fault env (S (db_calls w)) = None →
  ∃ rows w',
    build_query args w = (Return ([], ∅), w)
    ∧ select [] ∅ (db w) = Some rows
    ∧ execute_query env args w = (Return (row_data <$> rows), w')
    ∧ rows ≡ₚ db w
    ∧ StronglySorted date_ge rows
    ∧ ∀ d, filter (λ r, date_of r = d) rows = filter (λ r, date_of r = d) (db w).
Proof.
  intros Hu Hc Hs.
  pose proof (build_query_unconstrained args w Hu) as Hb.
  eexists _, _. split; [exact Hb|]. split; [apply select_all|].
  split; [by apply (execute_query_ok env args w _ _ _ _ Hb Hc Hs), select_all|].
  split; [apply order_by_perm|].
  split; [apply order_by_sorted|].
  intros d. apply order_by_stable.
Qed.

Lemma strptime_raises_ValueError s e :
  Strptime.strptime s = Raise e → ∃ msg, e = Py.ValueError msg.
Proof.
  unfold Strptime.strptime.
  destruct (Strptime.regex_match _) as [[[[y m] d] r]|]; [|intros [= <-]; eauto].
  repeat (case_match; [intros [= <-]; eauto|]). done.
Qed.

(** C4: when the date option is set and [strptime] rejects it,
    [build_query] returns normally the statement and the parameters it
    builds for the same options without the date, after printing one
    warning; the statement has no date condition, and the query returns what
    it returns without the date option. *)
Theorem invalid_date_is_ignored_with_warning env args w :
  Py.truthy (arg_date args) = true →
  (∀ ymd, Strptime.strptime (default "" (arg_date args)) ≠ Return ymd) →
  ∃ query params,
    build_query (without_date args) w = (Return (query, params), w)
    ∧ build_query args w
      = (Return (query, params),
         set_stdout (stdout w ++ [date_warning (default "" (arg_date args))]) w)
    ∧ (DateEq ∉ query)
    ∧ params !! "date" = None
    ∧ fst (execute_query env args w)
      = fst (execute_query env (without_date args) w).
Proof.
  intros Hd Hbad.
  destruct (Strptime.strptime (default "" (arg_date args))) as [ymd|e] eqn:Hp;
    [by destruct (Hbad ymd)|].
  destruct (strptime_raises_ValueError _ _ Hp) as [msg ->].
  assert (∃ query params,
    build_query (without_date args) w = (Return (query, params), w)
    ∧ build_query args w
      = (Return (query, params),
         set_stdout (stdout w ++ [date_warning (default "" (arg_date args))]) w)
    ∧ (DateEq ∉ query) ∧ params !! "date" = None) as (q & p & H1 & H2 & H3 & H4).
  { unfold build_query, without_date. simpl. rewrite Hd, Hp.
    destruct (Py.truthy (arg_source args)), (Py.truthy (arg_keyword args));
      eexists _, _; (split; [reflexivity|]); (split; [reflexivity|]);
      (split; [|reflexivity]); simpl;
      rewrite ?elem_of_cons, elem_of_nil; intuition discriminate. }
  exists q, p. repeat split; try done.
  unfold execute_query. rewrite !run_bind, H1, H2. cbn beta iota.
  unfold get_db_connection, read_sql_query, gets, db_access.
  rewrite !run_bind. simpl.
  destruct (db_fault env (db_calls w)); [done|]. cbn beta iota.
  rewrite !run_bind, !run_try, !run_bind. simpl.
  destruct (db_fault env (S (db_calls w))); [done|].
  by destruct (select q p (db w)).
Qed.

Lemma like_chars_percent q s :
  Sql.like_chars ("%"%char :: q) s
  = Sql.like_chars q s
    || match s with [] => false | _ :: s' => Sql.like_chars ("%"%char :: q) s' end.
Proof. by destruct s. Qed.

Lemma like_chars_percent_nil s : Sql.like_chars ["%"%char] s = true.
Proof.
  induction s as [|c s IH]; [done|].
  rewrite like_chars_percent, IH. apply orb_true_r.
Qed.

Lemma like_chars_literal c q s :
  c ≠ "%"%char → c ≠ "_"%char →
  Sql.like_chars (c :: q) s
  = match s with
    | [] => false
    | d :: s' =>
        bool_decide (Py.lower_char c = Py.lower_char d) && Sql.like_chars q s'
    end.
Proof.
  intros Hp Hu. simpl. rewrite (bool_decide_eq_false_2 _ Hp).
  destruct s as [|d s']; [done|]. by rewrite (bool_decide_eq_false_2 _ Hu).
Qed.

Lemma like_chars_prefix p s :
  (∀ c, c ∈ p → c ≠ "%"%char ∧ c ≠ "_"%char) →
  Sql.like_chars (p ++ ["%"%char]) s = prefix_ci p s.
Proof.
  revert s. induction p as [|c p IH]; intros s Hp.
  - apply like_chars_percent_nil.
  - destruct (Hp c) as [H1 H2]; [by left|].
    rewrite <- app_comm_cons, like_chars_literal by done.
    destruct s as [|d s']; [done|]. simpl. rewrite IH; [done|].
    intros c' Hc'. apply Hp. by right.
Qed.

Lemma like_chars_contains p s :
  (∀ c, c ∈ p → c ≠ "%"%char ∧ c ≠ "_"%char) →
  Sql.like_chars ("%"%char :: p ++ ["%"%char]) s = occurs_ci p s.
Proof.
  intros Hp. induction s as [|d s IH].
  - rewrite like_chars_percent, like_chars_prefix by done. done.
  - rewrite like_chars_percent, like_chars_prefix, IH by done. done.
Qed.

Lemma list_ascii_of_string_app s t :
  String.list_ascii_of_string (s +:+ t)
  = String.list_ascii_of_string s ++ String.list_ascii_of_string t.
Proof. induction s as [|c s IH]; [done|]. simpl. by rewrite <- IH. Qed.

(** On a pattern without wildcards, [LIKE '%pattern%'] is the substring
    test of the specification. *)
Lemma like_contains pattern s :
  wildcard_free (Some pattern) →
  Sql.like (Some s) ("%" +:+ pattern +:+ "%") = Some (contains_ci pattern s).
Proof.
  intros Hw. unfold Sql.like, contains_ci. simpl. f_equal.
  change (String "%" (pattern +:+ "%")) with ("%" +:+ pattern +:+ "%").
  rewrite !list_ascii_of_string_app. simpl.
  by apply like_chars_contains.
Qed.

Lemma filter_ext_bool {A} (f g : A → bool) (l : list A) :
  (∀ x, f x = g x) → filter (λ x, f x) l = filter (λ x, g x) l.
Proof. intros H. apply list_filter_iff. intros x. by rewrite H. Qed.

Lemma select_run query params table conds :
  mapM (clause_cond params) query = Some conds →
  select query params table
  = Some (Sql.order_by_published_date_desc
            (filter (λ r, where_true conds r) table)).
Proof. unfold select. by intros ->. Qed.

(** The statement built from patterns without wildcards selects the records
    of the specification's filter. *)
Theorem select_without_wildcards args w table :
  wildcard_free (arg_source args) →
  wildcard_free (arg_keyword args) →
  Py.truthy (arg_date args) = false →
  ∃ query params,
    build_query args w = (Return (query, params), w)
    ∧ select query params table
      = Some (Sql.order_by_published_date_desc
                (filter (λ r, matches_filter args (row_data r)) table)).
Proof.
  intros Hs Hk Hd. unfold build_query, matches_filter. rewrite Hd.
  destruct (arg_source args) as [src|], (arg_keyword args) as [kw|];
    cbn [Py.truthy default from_option id];
    repeat (destruct (bool_decide (_ = "")); cbn [negb]);
    eexists _, _; (split; [reflexivity|]);
    (erewrite select_run by reflexivity);
    f_equal; f_equal; apply filter_ext_bool; intros r;
    unfold where_true; cbn [foldl];
    destruct (summary (row_data r)) as [sm|]; cbn [from_option id];
    rewrite ?like_contains by done;
    repeat (destruct (contains_ci _ _); try done).
Qed.

Lemma unconstrained_query_returns_all_by_date_witness :
  ∃ rows w',
    build_query no_filter stocked_world = (Return ([], ∅), stocked_world)
    ∧ select [] ∅ (db stocked_world) = Some rows
    ∧ execute_query sample_env no_filter stocked_world
      = (Return (row_data <$> rows), w')
    ∧ rows ≡ₚ db stocked_world
    ∧ StronglySorted date_ge rows
    ∧ ∀ d, filter (λ r, date_of r = d) rows
           = filter (λ r, date_of r = d) (db stocked_world).
Proof.
  apply (unconstrained_query_returns_all_by_date sample_env no_filter stocked_world).
  - repeat split.
  - reflexivity.
  - reflexivity.
Defined.

Example no_filter_result :
  fst (execute_query sample_env no_filter stocked_world)
  = Return [article_L2; article_L1].
Proof. vm_compute. reflexivity. Qed.

Lemma invalid_date_is_ignored_with_warning_witness :
  ∃ query params,
    build_query (without_date bad_date_args) stocked_world
    = (Return (query, params), stocked_world)
    ∧ build_query bad_date_args stocked_world
      = (Return (query, params),
         set_stdout (stdout stocked_world
                     ++ [date_warning (default "" (arg_date bad_date_args))])
           stocked_world)
    ∧ (DateEq ∉ query)
    ∧ params !! "date" = None
    ∧ fst (execute_query sample_env bad_date_args stocked_world)
      = fst (execute_query sample_env (without_date bad_date_args) stocked_world).
Proof.
  apply (invalid_date_is_ignored_with_warning sample_env bad_date_args stocked_world).
  - reflexivity.
  - intros ymd. vm_compute. discriminate.
Defined.

(** The scenario of the specification: the date [2024-13-40] is reported
    and dropped, the source filter still applies. *)
Example bad_date_result :
  Strptime.strptime "2024-13-40"
  = Raise (Py.ValueError "time data 2024-13-40 does not match format %Y-%m-%d")
  ∧ execute_query sample_env (mkArgs None None (Some "2024-13-40")) stocked_world
    = (Return [article_L2; article_L1],
       mkWorld (db stocked_world) ∅
         ["Warning: Invalid date format provided: 2024-13-40. Required format is YYYY-MM-DD. Ignoring date filter."]
         0 2).
Proof. vm_compute. done. Qed.

(** [strptime] is more lenient than the format suggests: one digit is enough
    for the month and for the day. *)
Example lenient_date :
  Strptime.strptime "2024-1-5" = Return (2024, 1, 5).
Proof. vm_compute. reflexivity. Qed.

(** C7: the source pattern [S_u] selects the records whose source is
    [SourceA] and [SourceB], neither of which contains [S_u]: the [_] of the
    pattern is taken by [LIKE] as a wildcard. *)
Theorem like_takes_pattern_wildcards :
  matches_filter wild_args article_L1 = false
  ∧ matches_filter wild_args article_L2 = false
  ∧ fst (execute_query sample_env wild_args stocked_world)
    = Return [article_L2; article_L1].
Proof. vm_compute. done. Qed.

(** ** Fetch, export and failures *)

Lemma lower_eq_equal_ci s t : Py.lower s = Py.lower t ↔ equal_ci s t = true.
Proof.
  revert t. induction s as [|c s IH]; intros [|d t]; simpl; try done.
  rewrite andb_true_iff, bool_decide_eq_true, <- IH. split.
  - by intros [= ? ?].
  - by intros [-> ->].
Qed.

(** C9: a source filter that is not empty selects, in their order, exactly
    the mock candidates whose source equals it as a whole up to ASCII case;
    without a filter every mock candidate is returned. *)
Theorem fetch_filter_is_exact_match env (f : string) :
  f ≠ "" →
  fetch_mock_data env (Some f)
  = filter (λ a, equal_ci (source a) f = true) (all_articles env)
  ∧ (∀ a, a ∈ fetch_mock_data env (Some f)
          ↔ a ∈ all_articles env ∧ equal_ci (source a) f = true)
  ∧ fetch_mock_data env None = all_articles env.
Proof.
  intros Hf.
  assert (fetch_mock_data env (Some f)
          = filter (λ a, equal_ci (source a) f = true) (all_articles env)) as Heq.
  { unfold fetch_mock_data. simpl. rewrite bool_decide_eq_false_2 by done. simpl.
    apply list_filter_iff. intros a. apply lower_eq_equal_ci. }
  split; [done|]. split; [|done].
  intros a. rewrite Heq, list_elem_of_filter. tauto.
Qed.

Lemma fetch_filter_is_exact_match_witness :
  fetch_mock_data sample_env (Some "sourcea (TECH weekly)")
  = filter (λ a, equal_ci (source a) "sourcea (TECH weekly)" = true)
      (all_articles sample_env)
  ∧ (∀ a, a ∈ fetch_mock_data sample_env (Some "sourcea (TECH weekly)")
          ↔ a ∈ all_articles sample_env
            ∧ equal_ci (source a) "sourcea (TECH weekly)" = true)
  ∧ fetch_mock_data sample_env None = all_articles sample_env.
Proof.
  apply (fetch_filter_is_exact_match sample_env "sourcea (TECH weekly)").
  discriminate.
Defined.

(** A part of the source name selects nothing, the whole name in another
    case selects the three candidates of that source, and the empty filter
    counts as no filter. *)
Example fetch_examples :
  fetch_mock_data sample_env (Some "SourceA") = []
  ∧ link <$> fetch_mock_data sample_env (Some "sourcea (TECH weekly)")
    = ["http://sourcea.com/article1"; "http://sourcea.com/article3";
       "http://sourcea.com/article1_v2"]
  ∧ fetch_mock_data sample_env (Some "") = all_articles sample_env.
Proof. vm_compute. done. Qed.

(** ** Export *)

(** C5 (as stated, refuted): the export of a frame that is not empty to the
    format [xml] raises nothing; it prints a message and returns. *)
Lemma unsupported_format_does_not_raise :
  ("xml" ∉ supported_formats)
  ∧ (¬ ∃ e w', export_data sample_env [article_L1] "out.xml" "xml" empty_world
               = (Raise e, w'))
  ∧ export_data sample_env [article_L1] "out.xml" "xml" empty_world
    = (Return (),
       set_stdout ["Exporting 1 articles to out.xml...";
                   "Error: Unsupported export format 'xml'."] empty_world).
Proof.
  split; [|split].
  - unfold supported_formats. rewrite !elem_of_cons, elem_of_nil.
    intuition discriminate.
  - intros (e & w' & H). vm_compute in H. discriminate.
  - vm_compute. reflexivity.
Qed.

(** C5 (amended): for a format other than [csv], [excel] and [json], the
    export of a frame that is not empty prints that the format is not
    supported and returns normally; no file is created or changed. *)
Theorem unsupported_format_is_reported env (df : DataFrame) output_file
    export_format w :
  df ≠ [] →
  export_format ∉ supported_formats →
  ∃ w',
    export_data env df output_file export_format w = (Return (), w')
    ∧ stdout w'
      = stdout w
        ++ ["Exporting " +:+ pretty (length df) +:+ " articles to "
              +:+ output_file +:+ "...";
            "Error: Unsupported export format '" +:+ export_format +:+ "'."]
    ∧ fs w' = fs w
    ∧ db w' = db w.
Proof.
  intros Hdf Hfmt. destruct df as [|a df]; [done|].
  unfold supported_formats in Hfmt.
  rewrite !elem_of_cons, elem_of_nil in Hfmt.
  unfold export_data. rewrite run_bind. unfold print at 1, modify.
  cbn beta iota. rewrite run_bind, run_try.
  rewrite !bool_decide_eq_false_2 by tauto.
  unfold print, modify. simpl. eexists. split; [reflexivity|].
  simpl. by rewrite <- app_assoc.
Qed.

Lemma unsupported_format_is_reported_witness :
  ∃ w',
    export_data sample_env [article_L1] "out.xml" "xml" empty_world = (Return (), w')
    ∧ stdout w'
      = stdout empty_world
        ++ ["Exporting " +:+ pretty (length [article_L1]) +:+ " articles to "
              +:+ "out.xml" +:+ "...";
            "Error: Unsupported export format '" +:+ "xml" +:+ "'."]
    ∧ fs w' = fs empty_world
    ∧ db w' = db empty_world.
Proof.
  apply (unsupported_format_is_reported sample_env [article_L1] "out.xml" "xml"
           empty_world).
  - discriminate.
  - unfold supported_formats. rewrite !elem_of_cons, elem_of_nil.
    intuition discriminate.
Defined.

(** ** Failures of the store *)

Lemma build_query_returns args w :
  ∃ query params out,
    build_query args w = (Return (query, params), set_stdout (stdout w ++ out) w).
Proof.
  unfold build_query.
  destruct (Py.truthy (arg_source args)), (Py.truthy (arg_keyword args)),
    (Py.truthy (arg_date args));
    try (eexists _, _, []; rewrite app_nil_r; by destruct w).
  all: destruct (Strptime.strptime _) as [ymd|e] eqn:Hp;
    [eexists _, _, []; rewrite app_nil_r; by destruct w|];
    destruct (strptime_raises_ValueError _ _ Hp) as [msg ->];
    eexists _, _, [_]; reflexivity.
Qed.

(** The start of every command: the store is opened and the table is made
    sure to exist. *)
Lemma main_setup env command w :
  db_fault env (db_calls w) = None →
  db_fault env (S (db_calls w)) = None →
  db_fault env (S (S (db_calls w))) = None →
  main env command w
  = (match command with
     | Fetch src =>
         print "--- Running FETCH command ---";;
         print "NOTE: Using mock data. Replace fetch_mock_data with actual API/Scraping logic.";;
         save_articles env (fetch_mock_data env src);;
         print "FETCH complete."
     | Query args =>
         print "--- Running QUERY command ---";;
         df ← execute_query env args;
         match df with
         | [] => print "Query returned no results."
         | _ :: _ =>
             print (String Py.NL "Found " +:+ pretty (length df)
                      +:+ " articles matching criteria:");;
             print (frame_to_string env df)
         end
     | Export args output_file format =>
         print "--- Running EXPORT command ---";;
         df ← execute_query env args;
         match df with
         | [] => print "Query returned no results. Nothing exported."
         | _ :: _ => export_data env df output_file format
         end
     end) (set_db_calls (db_calls w + 3) w).
Proof.
  intros H0 H1 H2. unfold main, get_db_connection, setup_database, commit, gets, modify.
  rewrite !run_bind, db_access_ok by done. cbn beta iota.
  rewrite !run_bind, db_access_ok by done. cbn beta iota.
  rewrite !run_bind, db_access_ok by done. cbn beta iota.
  f_equal. destruct w. unfold bump, set_db, set_db_calls. simpl. f_equal. lia.
Qed.

(** When the store cannot be opened, [execute_query] raises: the failure is
    outside its [try]. *)
Lemma execute_query_connect_fault env args w msg :
  db_fault env (db_calls w) = Some msg →
  ∃ w',
    execute_query env args w = (Raise (Py.OperationalError msg), w')
    ∧ db w' = db w ∧ fs w' = fs w.
Proof.
  intros Hf. destruct (build_query_returns args w) as (q & p & out & Hb).
  unfold execute_query, get_db_connection.
  rewrite run_bind, Hb. cbn beta iota. rewrite !run_bind.
  rewrite (db_access_fault _ _ msg) by done.
  eexists. split; [reflexivity|]. done.
Qed.

(** When the store cannot be opened at the start of a command, the command
    raises and nothing is changed. *)
Lemma main_connect_fault env command w msg :
  db_fault env (db_calls w) = Some msg →
  main env command w = (Raise (Py.OperationalError msg), bump w).
Proof.
  intros Hf. unfold main, get_db_connection.
  rewrite !run_bind. by rewrite (db_access_fault _ _ msg).
Qed.

(** An insert that fails otherwise than on a constraint is reported and the
    loop goes on with the next row. *)
Lemma insert_loop_failed env conn row rest n d w msg :
  insert_result env conn (db_calls w) row = Failed msg →
  insert_loop env conn (row :: rest) n d w
  = insert_loop env conn rest n d
      (set_stdout
         (stdout w ++ ["Error inserting article " +:+ title (row_data row)
                         +:+ ": " +:+ msg])
         (bump w)).
Proof.
  intros Hres. simpl. rewrite run_bind, run_try, execute_insert_run, Hres.
  reflexivity.
Qed.

(** C6 (as stated, refuted): in a fetch whose first insert fails on an I/O
    error, the command does not abort and the store does not stay as it
    was: the failure is printed, the four other records are inserted and
    committed, and the command completes. *)
Lemma failed_insert_does_not_abort_fetch :
  db_fault insert_fault_env 4 = Some "disk I/O error"
  ∧ fst (main insert_fault_env (Fetch None) empty_world) = Return ()
  ∧ db (snd (main insert_fault_env (Fetch None) empty_world)) ≠ db empty_world
  ∧ length (db (snd (main insert_fault_env (Fetch None) empty_world))) = 4
  ∧ stdout (snd (main insert_fault_env (Fetch None) empty_world)) !! 3
    = Some "Error inserting article AI Breakthrough: New LLM achieves record performance: disk I/O error"
  ∧ last (stdout (snd (main insert_fault_env (Fetch None) empty_world)))
    = Some "FETCH complete.".
Proof. vm_compute. repeat split; discriminate. Qed.

(** C6 (amended): when the [SELECT] of a query or export command fails, the
    cause is printed, the command ends on the message that there are no
    results, nothing is exported and the store is as it was; when an insert
    of a fetch fails otherwise than on a constraint, the cause is printed
    and the batch goes on with the next record; when the store cannot be
    opened at the start of a command, the exception reaches the caller with
    its cause and nothing is changed. *)
Theorem store_failure_is_reported env w msg :
  db_fault env (db_calls w) = None →
  db_fault env (S (db_calls w)) = None →
  db_fault env (S (S (db_calls w))) = None →
  db_fault env (db_calls w + 3) = None →
  db_fault env (S (db_calls w + 3)) = Some msg →
  (∀ args, ∃ w' warnings,
      main env (Query args) w = (Return (), w')
      ∧ db w' = db w ∧ fs w' = fs w
      ∧ stdout w'
        = stdout w ++ ["--- Running QUERY command ---"] ++ warnings
          ++ ["Database query failed: " +:+ msg; "Query returned no results."])
  ∧ (∀ args output_file format, ∃ w' warnings,
      main env (Export args output_file format) w = (Return (), w')
      ∧ db w' = db w ∧ fs w' = fs w
      ∧ stdout w'
        = stdout w ++ ["--- Running EXPORT command ---"] ++ warnings
          ++ ["Database query failed: " +:+ msg;
              "Query returned no results. Nothing exported."])
  ∧ (∀ conn row rest n d w0 cause,
      insert_result env conn (db_calls w0) row = Failed cause →
      insert_loop env conn (row :: rest) n d w0
      = insert_loop env conn rest n d
          (set_stdout
             (stdout w0 ++ ["Error inserting article " +:+ title (row_data row)
                              +:+ ": " +:+ cause])
             (bump w0)))
  ∧ (∀ command w0 cause,
      db_fault env (db_calls w0) = Some cause →
      main env command w0 = (Raise (Py.OperationalError cause), bump w0)).
Proof.
  intros H0 H1 H2 H3 H4. split; [|split; [|split]].
  - intros args. rewrite main_setup by done.
    rewrite run_bind. unfold print at 1, modify. cbn beta iota.
    set (w1 := set_stdout _ _).
    destruct (build_query_returns args w1) as (q & p & out & Hb).
    rewrite run_bind, (execute_query_fault env args w1 q p _ msg Hb) by done.
    eexists _, out. split; [reflexivity|]. subst w1. simpl.
    repeat split. by rewrite <- !app_assoc.
  - intros args output_file format. rewrite main_setup by done.
    rewrite run_bind. unfold print at 1, modify. cbn beta iota.
    set (w1 := set_stdout _ _).
    destruct (build_query_returns args w1) as (q & p & out & Hb).
    rewrite run_bind, (execute_query_fault env args w1 q p _ msg Hb) by done.
    eexists _, out. split; [reflexivity|]. subst w1. simpl.
    repeat split. by rewrite <- !app_assoc.
  - intros. by apply insert_loop_failed.
  - intros. by apply main_connect_fault.
Qed.

Lemma store_failure_is_reported_witness :
  (∀ args, ∃ w' warnings,
      main select_fault_env (Query args) stocked_world = (Return (), w')
      ∧ db w' = db stocked_world ∧ fs w' = fs stocked_world
      ∧ stdout w'
        = stdout stocked_world ++ ["--- Running QUERY command ---"] ++ warnings
          ++ ["Database query failed: " +:+ "disk I/O error";
              "Query returned no results."])
  ∧ (∀ args output_file format, ∃ w' warnings,
      main select_fault_env (Export args output_file format) stocked_world
      = (Return (), w')
      ∧ db w' = db stocked_world ∧ fs w' = fs stocked_world
      ∧ stdout w'
        = stdout stocked_world ++ ["--- Running EXPORT command ---"] ++ warnings
          ++ ["Database query failed: " +:+ "disk I/O error";
              "Query returned no results. Nothing exported."])
  ∧ (∀ conn row rest n d w0 cause,
      insert_result select_fault_env conn (db_calls w0) row = Failed cause →
      insert_loop select_fault_env conn (row :: rest) n d w0
      = insert_loop select_fault_env conn rest n d
          (set_stdout
             (stdout w0 ++ ["Error inserting article " +:+ title (row_data row)
                              +:+ ": " +:+ cause])
             (bump w0)))
  ∧ (∀ command w0 cause,
      db_fault select_fault_env (db_calls w0) = Some cause →
      main select_fault_env command w0
      = (Raise (Py.OperationalError cause), bump w0)).
Proof.
  apply (store_failure_is_reported select_fault_env stocked_world "disk I/O error");
    reflexivity.
Defined.

(** ** CSV export and reading back *)

Section csv_reader_steps.
Import Csv.

Lemma is_newline_plain c : plain c → is_newline c = false.
Proof.
  intros (_ & _ & Hn & Hc). unfold is_newline.
  by rewrite !bool_decide_eq_false_2.
Qed.

Lemma feed_all_app r s t :
  feed_all r (s ++ t) = feed_all r s ≫= λ r', feed_all r' t.
Proof.
  revert r. induction s as [|c s IH]; intros r; simpl; [done|].
  destruct (feed r c) as [r'|]; simpl; [apply IH|done].
Qed.

Lemma feed_all_cons r c s :
  feed_all r (c :: s) = feed r c ≫= λ r', feed_all r' s.
Proof. done. Qed.

Lemma feed_plain_start st f fs rs o c :
  st = START_RECORD ∨ st = START_FIELD → plain c →
  feed (mkReader st f fs rs false o) c
  = Some (mkReader IN_FIELD (f ++ [c]) fs rs false true).
Proof.
  intros Hst Hc. pose proof (is_newline_plain c Hc) as Hnl.
  destruct Hc as (H1 & H2 & H3 & H4).
  unfold feed, process, start_field; destruct Hst as [-> | ->]; simpl;
    rewrite ?Hnl; simpl; rewrite ?(bool_decide_eq_false_2 (c = Py.DQUOTE)) by done;
    rewrite ?(bool_decide_eq_false_2 (c = ","%char)) by done; simpl;
    rewrite (bool_decide_eq_false_2 (c = Py.NL)) by done;
    by rewrite (bool_decide_eq_false_2 (c = Py.CR)) by done.
Qed.

Lemma feed_plain_in_field f fs rs o c :
  plain c →
  feed (mkReader IN_FIELD f fs rs false o) c
  = Some (mkReader IN_FIELD (f ++ [c]) fs rs false true).
Proof.
  intros Hc. pose proof (is_newline_plain c Hc) as Hnl.
  destruct Hc as (H1 & H2 & H3 & H4).
  unfold feed, process; simpl. rewrite Hnl.
  rewrite (bool_decide_eq_false_2 (Some c = Some ","%char)) by congruence.
  simpl. rewrite (bool_decide_eq_false_2 (c = Py.NL)) by done.
  by rewrite (bool_decide_eq_false_2 (c = Py.CR)) by done.
Qed.

Lemma feed_comma st f fs rs o :
  st ≠ IN_QUOTED_FIELD → st ≠ EAT_CRNL →
  feed (mkReader st f fs rs false o) ","%char
  = Some (mkReader START_FIELD [] (fs ++ [String.string_of_list_ascii f])
            rs false true).
Proof. by destruct st. Qed.

Lemma feed_quote_start st f fs rs o :
  st = START_RECORD ∨ st = START_FIELD →
  feed (mkReader st f fs rs false o) Py.DQUOTE
  = Some (mkReader IN_QUOTED_FIELD f fs rs false true).
Proof. by intros [-> | ->]. Qed.

Lemma feed_quoted_char f fs rs p o c :
  c ≠ Py.DQUOTE →
  feed (mkReader IN_QUOTED_FIELD f fs rs p o) c
  = Some (mkReader IN_QUOTED_FIELD (f ++ [c]) fs rs
            (bool_decide (c = Py.CR)) (negb (bool_decide (c = Py.NL)))).
Proof.
  intros Hq. unfold feed, process, end_of_line. simpl.
  destruct p, (bool_decide (c = Py.NL)) eqn:Hn; simpl;
    rewrite ?(bool_decide_eq_false_2 (c = Py.DQUOTE)) by done; simpl;
    rewrite ?Hn; simpl; try done.
  all: apply bool_decide_eq_true_1 in Hn as ->; done.
Qed.

Lemma feed_quoted_quote f fs rs p o :
  feed (mkReader IN_QUOTED_FIELD f fs rs p o) Py.DQUOTE
  = Some (mkReader QUOTE_IN_QUOTED_FIELD f fs rs false true).
Proof. by destruct p. Qed.

Lemma feed_quote_quote f fs rs o :
  feed (mkReader QUOTE_IN_QUOTED_FIELD f fs rs false o) Py.DQUOTE
  = Some (mkReader IN_QUOTED_FIELD (f ++ [Py.DQUOTE]) fs rs false true).
Proof. done. Qed.

Lemma feed_nl_end st f fs rs o :
  st = START_FIELD ∨ st = IN_FIELD ∨ st = QUOTE_IN_QUOTED_FIELD →
  feed (mkReader st f fs rs false o) Py.NL
  = Some (mkReader START_RECORD [] []
            (rs ++ [fs ++ [String.string_of_list_ascii f]]) false false).
Proof. by intros [-> | [-> | ->]]. Qed.

Lemma feed_cr_end st f fs rs o :
  st = START_FIELD ∨ st = IN_FIELD ∨ st = QUOTE_IN_QUOTED_FIELD →
  feed (mkReader st f fs rs false o) Py.CR
  = Some (mkReader EAT_CRNL [] (fs ++ [String.string_of_list_ascii f])
            rs true true).
Proof. by intros [-> | [-> | ->]]. Qed.

Lemma feed_nl_after_cr fs rs o :
  feed (mkReader EAT_CRNL [] fs rs true o) Py.NL
  = Some (mkReader START_RECORD [] [] (rs ++ [fs]) false false).
Proof. done. Qed.

End csv_reader_steps.

(** *** The limit on the length of a field *)

Section csv_field_limit.

Lemma length_string_of_list_ascii l :
  String.length (String.string_of_list_ascii l) = length l.
Proof. induction l; simpl; congruence. Qed.

Lemma within_ext r r' :
  Csv.field r = Csv.field r' → Csv.fields r = Csv.fields r' →
  Csv.rows r = Csv.rows r' → within r' → within r.
Proof. unfold within. by intros -> -> ->. Qed.

Lemma within_with_state st r : within (Csv.with_state st r) → within r.
Proof. by apply within_ext. Qed.

Lemma within_add_char c r : within (Csv.add_char c r) → within r.
Proof.
  unfold within, Csv.add_char. cbn [Csv.field Csv.fields Csv.rows].
  rewrite length_app. cbn [length]. intros (H1 & H2 & H3).
  split; [lia|done].
Qed.

Lemma within_save_field r : within (Csv.save_field r) → within r.
Proof.
  unfold within, Csv.save_field. cbn [Csv.field Csv.fields Csv.rows].
  intros (H1 & [H2 H4]%Forall_app & H3).
  split; [|done]. rewrite Forall_singleton in H4. unfold short in H4.
  by rewrite length_string_of_list_ascii in H4.
Qed.

Lemma within_emit r : within (Csv.emit r) → within r.
Proof.
  unfold within, Csv.emit. cbn [Csv.field Csv.fields Csv.rows].
  intros (H1 & H2 & [H3 H4]%Forall_app).
  by rewrite Forall_singleton in H4.
Qed.

Lemma within_flags r p o :
  within (Csv.mkReader (Csv.state r) (Csv.field r) (Csv.fields r) (Csv.rows r) p o)
  → within r.
Proof. by apply within_ext. Qed.

Ltac within_back H :=
  repeat match type of H with
    | within (Csv.with_state _ _) => apply within_with_state in H
    | within (Csv.add_char _ _) => apply within_add_char in H
    | within (Csv.save_field _) => apply within_save_field in H
    | within (Csv.emit _) => apply within_emit in H
    | within (Csv.mkReader _ _ _ _ _ _) => apply within_flags in H
    end;
  try exact H.

Lemma start_field_within c r : within (Csv.start_field c r) → within r.
Proof.
  unfold Csv.start_field. intros H.
  destruct c as [a|]; [|by within_back H].
  destruct (Csv.is_newline a); [by within_back H|].
  repeat case_bool_decide; by within_back H.
Qed.

Ltac within_done Hp H :=
  simplify_eq; try apply start_field_within in H; by within_back H.

Lemma process_within c r r' : Csv.process c r = Some r' → within r' → within r.
Proof.
  unfold Csv.process. intros Hp H. destruct (Csv.state r).
  - destruct c as [a|]; [|within_done Hp H].
    destruct (Csv.is_newline a); within_done Hp H.
  - within_done Hp H.
  - destruct (Csv.ends_line c); [within_done Hp H|].
    case_bool_decide; [within_done Hp H|].
    destruct c as [a|]; cbn [from_option] in Hp; within_done Hp H.
  - destruct c as [a|]; [|within_done Hp H].
    case_bool_decide; within_done Hp H.
  - case_bool_decide; [within_done Hp H|].
    case_bool_decide; [within_done Hp H|].
    destruct (Csv.ends_line c); [within_done Hp H|].
    destruct c as [a|]; cbn [from_option] in Hp; within_done Hp H.
  - destruct c as [a|]; [|within_done Hp H].
    destruct (Csv.is_newline a); [within_done Hp H|done].
Qed.

Lemma end_of_line_within r r' : Csv.end_of_line r = Some r' → within r' → within r.
Proof.
  unfold Csv.end_of_line. intros Hp H.
  destruct (Csv.process None r) as [r1|] eqn:H1; [|done]. cbn in Hp.
  apply (process_within _ _ _ H1). simplify_eq.
  case_bool_decide; by within_back H.
Qed.

Lemma feed_within r c r' : Csv.feed r c = Some r' → within r' → within r.
Proof.
  unfold Csv.feed. intros Hp H.
  destruct (if Csv.pending_cr r && negb (bool_decide (c = Py.NL))
            then Csv.end_of_line r else Some r) as [r1|] eqn:H1; [|done].
  cbn in Hp.
  destruct (Csv.process (Some c) r1) as [r2|] eqn:H2; [|done]. cbn in Hp.
  assert (within r2) as Hr2.
  { case_bool_decide.
    - apply end_of_line_within in Hp; [|done]. by within_back Hp.
    - simplify_eq. by within_back H. }
  apply (process_within _ _ _ H2) in Hr2.
  destruct (Csv.pending_cr r && _); [|by simplify_eq].
  by apply (end_of_line_within _ _ H1).
Qed.

Lemma feed_all_within r s r' : feed_all r s = Some r' → within r' → within r.
Proof.
  revert r. induction s as [|c s IH]; intros r; cbn [feed_all].
  - by intros [= ->].
  - destruct (Csv.feed r c) as [r1|] eqn:H1; [|done]. cbn.
    intros H2 H. apply (feed_within _ _ _ H1). by apply IH.
Qed.

(** On a text none of whose fields goes past the limit, the reader goes
    through the automaton to its end. *)
Lemma steps_within r s r' :
  feed_all r s = Some r' → within r' → Csv.steps r s = Some r'.
Proof.
  revert r. induction s as [|c s IH]; intros r; cbn [feed_all Csv.steps].
  - by intros [= ->].
  - destruct (Csv.feed r c) as [r1|] eqn:H1; [|done]. cbn.
    intros H2 H. unfold Csv.step. rewrite H1. cbn.
    pose proof (feed_all_within _ _ _ H2 H) as (Hf & _).
    rewrite (proj2 (Z.ltb_ge _ _)) by done. by apply IH.
Qed.

End csv_field_limit.

Section csv_roundtrip.
Import Csv.
Context (env : Env) (Hsep : posix_or_dos env).

Lemma special_nl : special env Py.NL = true.
Proof.
  unfold special. apply orb_true_iff. right. apply bool_decide_eq_true_2.
  destruct Hsep as [-> | ->]; cbn [String.list_ascii_of_string].
  - by left.
  - right. by left.
Qed.

Lemma not_special_plain s c :
  cr_safe env s → c ∈ s → special env c = false → plain c.
Proof.
  intros Hcr Hin Hsp. unfold plain.
  assert (∀ d, special env d = true → c ≠ d) as Hne.
  { intros d Hd ->. congruence. }
  repeat split.
  - apply Hne. unfold special. by rewrite bool_decide_eq_true_2.
  - apply Hne. unfold special.
    rewrite (bool_decide_eq_true_2 (Py.DQUOTE = Py.DQUOTE)) by done.
    by rewrite orb_true_r.
  - apply Hne, special_nl.
  - destruct Hcr as [Hcr|Hcr]; [by apply Hne|]. by intros ->.
Qed.

Lemma feed_in_field_plain s f fs rs :
  Forall plain s →
  feed_all (mkReader IN_FIELD f fs rs false true) s
  = Some (mkReader IN_FIELD (f ++ s) fs rs false true).
Proof.
  intros Hs. revert f. induction Hs as [|c s Hc Hs IH]; intros f.
  - by rewrite app_nil_r.
  - rewrite feed_all_cons, feed_plain_in_field by done. cbn [mbind option_bind].
    by rewrite IH, <- app_assoc.
Qed.

Lemma feed_quoted_body s f fs rs p o :
  ∃ p' o',
    feed_all (mkReader IN_QUOTED_FIELD f fs rs p o) (escape s)
    = Some (mkReader IN_QUOTED_FIELD (f ++ s) fs rs p' o').
Proof.
  revert f p o. induction s as [|c s IH]; intros f p o; cbn [escape].
  - eexists _, _. by rewrite app_nil_r.
  - case_bool_decide as Hc.
    + subst c. rewrite feed_all_cons, feed_quoted_quote. cbn [mbind option_bind].
      rewrite feed_all_cons, feed_quote_quote. cbn [mbind option_bind].
      destruct (IH (f ++ [Py.DQUOTE]) false true) as (p' & o' & ->).
      eexists _, _. by rewrite <- app_assoc.
    + rewrite feed_all_cons, feed_quoted_char by done. cbn [mbind option_bind].
      destruct (IH (f ++ [c]) (bool_decide (c = Py.CR))
                  (negb (bool_decide (c = Py.NL)))) as (p' & o' & ->).
      eexists _, _. by rewrite <- app_assoc.
Qed.

(** A written field is read back into the field buffer. *)
Lemma feed_field st s fs rs o :
  st = START_RECORD ∨ st = START_FIELD →
  cr_safe env s →
  ∃ st' o',
    feed_all (mkReader st [] fs rs false o) (write_field env s)
    = Some (mkReader st' s fs rs false o')
    ∧ (st' = st ∨ st' = IN_FIELD ∨ st' = QUOTE_IN_QUOTED_FIELD).
Proof.
  intros Hst Hcr. unfold write_field.
  destruct (existsb (special env) s) eqn:Hex.
  - rewrite feed_all_cons, feed_quote_start by done. cbn [mbind option_bind].
    rewrite feed_all_app.
    destruct (feed_quoted_body s [] fs rs false true) as (p' & o' & ->).
    cbn [mbind option_bind app]. rewrite feed_all_cons, feed_quoted_quote.
    eexists _, _. split; [done|]. auto.
  - assert (Forall plain s) as Hplain.
    { apply Forall_forall. intros c Hc.
      apply (not_special_plain s c Hcr Hc).
      destruct (special env c) eqn:Hsp; [|done].
      assert (existsb (special env) s = true) as Hex'; [|congruence].
      apply existsb_exists. exists c. split; [|done].
      by apply list_elem_of_In. }
    destruct s as [|c s]; [eexists _, _; eauto|].
    apply Forall_cons in Hplain as [Hc Hs].
    rewrite feed_all_cons, feed_plain_start by done. cbn [mbind option_bind app].
    rewrite feed_in_field_plain by done. eexists _, _. split; [done|]. auto.
Qed.

Lemma feed_field_comma st s fs rs o :
  st = START_RECORD ∨ st = START_FIELD →
  cr_safe env s →
  feed_all (mkReader st [] fs rs false o) (write_field env s ++ [","%char])
  = Some (mkReader START_FIELD [] (fs ++ [String.string_of_list_ascii s])
            rs false true).
Proof.
  intros Hst Hcr. rewrite feed_all_app.
  destruct (feed_field st s fs rs o Hst Hcr) as (st' & o' & -> & Hst').
  cbn [mbind option_bind]. rewrite feed_all_cons, feed_comma; [done|..];
    destruct Hst as [-> | ->], Hst' as [-> | [-> | ->]]; done.
Qed.

Lemma feed_field_eol s fs rs o :
  cr_safe env s →
  feed_all (mkReader START_FIELD [] fs rs false o)
    (write_field env s ++ String.list_ascii_of_string (linesep env))
  = Some (mkReader START_RECORD [] []
            (rs ++ [fs ++ [String.string_of_list_ascii s]]) false false).
Proof.
  intros Hcr. rewrite feed_all_app.
  destruct (feed_field START_FIELD s fs rs o (or_intror eq_refl) Hcr)
    as (st' & o' & -> & Hst').
  destruct Hsep as [-> | ->]; cbn [mbind option_bind String.list_ascii_of_string].
  - by rewrite feed_all_cons, feed_nl_end.
  - rewrite feed_all_cons, feed_cr_end by done. cbn [mbind option_bind].
    by rewrite feed_all_cons, feed_nl_after_cr.
Qed.

(** The fields of a record after the first, up to the end of the line. *)
Lemma feed_record_tail (cs : list (list ascii)) fs rs o :
  cs ≠ [] →
  Forall (cr_safe env) cs →
  feed_all (mkReader START_FIELD [] fs rs false o)
    (join_fields (write_field env <$> cs)
     ++ String.list_ascii_of_string (linesep env))
  = Some (mkReader START_RECORD [] []
            (rs ++ [fs ++ (String.string_of_list_ascii <$> cs)]) false false).
Proof.
  intros Hne Hcs. revert fs o.
  induction Hcs as [|c cs Hc Hcs IH]; intros fs o; [done|].
  destruct cs as [|c' cs].
  - simpl. by apply feed_field_eol.
  - change (join_fields (write_field env <$> c :: c' :: cs))
      with (write_field env c ++ ","%char :: join_fields (write_field env <$> c' :: cs)).
    rewrite <- app_assoc.
    change (?a ++ (","%char :: ?b) ++ ?c) with (a ++ [","%char] ++ (b ++ c)).
    rewrite app_assoc, feed_all_app, feed_field_comma by auto.
    simpl mbind. rewrite IH by done. by rewrite <- app_assoc.
Qed.

Lemma join_fields_two_ne (a b : list ascii) cs : join_fields (a :: b :: cs) ≠ [].
Proof. simpl. by destruct a. Qed.

(** A written record of two fields or more is read back as it was. *)
Lemma feed_writerow (c1 c2 : string) (cs : list string) rs :
  Forall (cr_safe env ∘ String.list_ascii_of_string) (c1 :: c2 :: cs) →
  feed_all (mkReader START_RECORD [] [] rs false false)
    (writerow env (c1 :: c2 :: cs))
  = Some (mkReader START_RECORD [] [] (rs ++ [c1 :: c2 :: cs]) false false).
Proof.
  intros Hcs. apply Forall_cons in Hcs as [H1 Hcs].
  assert (Forall (cr_safe env) (String.list_ascii_of_string <$> c2 :: cs))
    as Hcs' by (by apply Forall_fmap).
  clear Hcs. unfold writerow.
  rewrite (list_fmap_compose String.list_ascii_of_string (write_field env)).
  rewrite (fmap_cons String.list_ascii_of_string).
  rewrite (fmap_cons (write_field env)).
  set (l := String.list_ascii_of_string <$> c2 :: cs) in *.
  assert (l ≠ []) as Hl by done.
  assert (String.string_of_list_ascii <$> l = c2 :: cs) as Hback.
  { subst l. rewrite <- list_fmap_compose.
    rewrite <- (list_fmap_id (c2 :: cs)) at 2. apply list_fmap_ext.
    intros _ s _. apply String.string_of_list_ascii_of_string. }
  clearbody l.
  assert (join_fields (write_field env (String.list_ascii_of_string c1)
                       :: (write_field env <$> l))
          = (write_field env (String.list_ascii_of_string c1) ++ [","%char])
            ++ join_fields (write_field env <$> l)) as ->.
  { destruct l as [|c l]; [done|]. rewrite fmap_cons.
    cbn [join_fields]. by rewrite <- app_assoc. }
  rewrite (bool_decide_eq_false_2 (_ ++ _ = [])).
  2:{ by intros [[_ ?]%app_eq_nil _]%app_eq_nil. }
  rewrite andb_false_r. rewrite <- app_assoc, feed_all_app.
  rewrite feed_field_comma; [|by left|exact H1]. cbn [mbind option_bind].
  rewrite feed_record_tail by done.
  by rewrite Hback, String.string_of_list_ascii_of_string.
Qed.

(** The records of a file are read back in order. *)
Lemma feed_records (records : list (list string)) rs :
  Forall (λ r, 2 ≤ length r
               ∧ Forall (cr_safe env ∘ String.list_ascii_of_string) r) records →
  feed_all (mkReader START_RECORD [] [] rs false false)
    (concat (writerow env <$> records))
  = Some (mkReader START_RECORD [] [] (rs ++ records) false false).
Proof.
  intros Hr. revert rs. induction Hr as [|r records [Hlen Hr] _ IH]; intros rs.
  - simpl. by rewrite app_nil_r.
  - rewrite fmap_cons. simpl concat. rewrite feed_all_app.
    destruct r as [|c1 [|c2 cs]]; simpl in Hlen; try lia.
    rewrite feed_writerow by done. simpl mbind.
    rewrite IH. by rewrite <- app_assoc.
Qed.

Lemma reader_writerows (records : list (list string)) :
  Forall (λ r, 2 ≤ length r
               ∧ Forall (cr_safe env ∘ String.list_ascii_of_string) r) records →
  Forall (Forall short) records →
  reader (String.string_of_list_ascii (concat (writerow env <$> records)))
  = Some records.
Proof.
  intros Hr Hs. unfold reader, init.
  rewrite String.list_ascii_of_string_of_list_ascii.
  rewrite (steps_within _ _ _ (feed_records records [] Hr)); [reflexivity|].
  unfold within. cbn [field fields rows app]. split_and!; [|done..].
  cbn. unfold field_size_limit. lia.
Qed.

End csv_roundtrip.

(** *** A field beyond the limit *)

Lemma steps_feed_all r s r' : Csv.steps r s = Some r' → feed_all r s = Some r'.
Proof.
  revert r. induction s as [|c s IH]; intros r; cbn [Csv.steps feed_all]; [done|].
  unfold Csv.step. destruct (Csv.feed r c) as [r1|]; [|done]. cbn.
  case_match; [done|]. cbn. apply IH.
Qed.

Lemma steps_last_short r s r' :
  s ≠ [] → Csv.steps r s = Some r' →
  (Z.of_nat (length (Csv.field r')) ≤ Csv.field_size_limit)%Z.
Proof.
  revert r. induction s as [|c s IH]; intros r Hs; [done|].
  cbn [Csv.steps]. unfold Csv.step.
  destruct (Csv.feed r c) as [r1|]; [|done]. cbn.
  destruct (Csv.field_size_limit <? _)%Z eqn:Hlim; [done|]. cbn.
  destruct s as [|c' s]; [|by apply IH].
  intros [= <-]. by apply Z.ltb_ge.
Qed.

(** A line made of one field that is longer than the limit: the reader
    raises its error. *)
Lemma reader_refuses_a_long_field (s : list ascii) :
  Forall plain s →
  (Csv.field_size_limit < Z.of_nat (length s))%Z →
  Csv.reader (String.string_of_list_ascii s) = None.
Proof.
  intros Hs Hlen. unfold Csv.reader.
  rewrite String.list_ascii_of_string_of_list_ascii.
  destruct (Csv.steps Csv.init s) as [r'|] eqn:Hsteps; [|reflexivity]. exfalso.
  destruct s as [|c s]; [cbn in Hlen; unfold Csv.field_size_limit in Hlen; lia|].
  pose proof (steps_last_short Csv.init (c :: s) r' ltac:(done) Hsteps) as Hshort.
  apply steps_feed_all in Hsteps. apply Forall_cons in Hs as [Hc Hs].
  unfold Csv.init in Hsteps.
  rewrite feed_all_cons, feed_plain_start in Hsteps by auto.
  cbn [mbind option_bind app] in Hsteps.
  rewrite feed_in_field_plain in Hsteps by done.
  injection Hsteps as <-. cbn [Csv.field app] in Hshort. lia.
Qed.

(** Cells written out in full that hold no carriage return. *)
Ltac no_carriage_return :=
  repeat (apply Forall_cons_2;
          [right; simpl; rewrite ?elem_of_cons, elem_of_nil; intuition discriminate|]);
  apply Forall_nil_2.

Lemma columns_cr_safe env :
  Forall (cr_safe env ∘ String.list_ascii_of_string) Csv.columns.
Proof. unfold Csv.columns. no_carriage_return. Qed.

Lemma export_data_csv env (df : DataFrame) output_file w :
  df ≠ [] →
  fs_fault env output_file = None →
  ∃ w',
    export_data env df output_file "csv" w = (Return (), w')
    ∧ fs w' = <[output_file := written env output_file (Csv.to_csv env df)]> (fs w)
    ∧ stdout w'
      = stdout w
        ++ ["Exporting " +:+ pretty (length df) +:+ " articles to "
              +:+ output_file +:+ "...";
            "Successfully exported to CSV: " +:+ output_file].
Proof.
  intros Hdf Hfs. destruct df as [|a df]; [done|].
  unfold export_data. rewrite run_bind. unfold print at 1, modify.
  cbn beta iota. rewrite run_bind, run_try.
  rewrite (bool_decide_eq_true_2 ("csv" = "csv")) by done.
  rewrite run_bind. unfold write_file. rewrite Hfs.
  unfold print, modify. cbn beta iota zeta. eexists. split; [reflexivity|].
  case_bool_decide; cbn [fs stdout set_stdout set_fs set_db];
    by rewrite <- app_assoc.
Qed.

(** C8 (as stated, refuted): a frame whose only record has a NULL summary
    and the frame with an empty summary in its place are written as the
    same text, so no parser gives back the values of every exported
    frame; the reader gives the empty string for both. *)
Lemma to_csv_conflates_null_and_empty :
  [article_L2] ≠ [article_L2_blank]
  ∧ Csv.to_csv sample_env [article_L2] = Csv.to_csv sample_env [article_L2_blank]
  ∧ (¬ ∃ reparse : string → DataFrame,
        ∀ df, df ≠ [] → reparse (Csv.to_csv sample_env df) = df)
  ∧ fs (snd (export_data sample_env [article_L2] "out.csv" "csv" empty_world))
      !! "out.csv"
    = Some (Csv.to_csv sample_env [article_L2])
  ∧ Csv.reader (Csv.to_csv sample_env [article_L2])
    = Some [Csv.columns; ["T2"; ""; "http://a/2"; "SourceB"; "2024-05-02"]].
Proof.
  assert (Csv.to_csv sample_env [article_L2]
          = Csv.to_csv sample_env [article_L2_blank]) as Heq by reflexivity.
  split; [discriminate|]. split; [exact Heq|]. split; [|split].
  - intros [reparse Hre].
    pose proof (Hre [article_L2] ltac:(discriminate)) as H1.
    pose proof (Hre [article_L2_blank] ltac:(discriminate)) as H2.
    rewrite Heq, H2 in H1. discriminate.
  - vm_compute. reflexivity.
  - vm_compute. reflexivity.
Qed.

(** C8 (amended): when the line terminator is LF or CR LF, the file can be
    written and its path is one that pandas writes as it is, exporting a
    frame that is not empty as CSV says so and leaves in the file a text
    that [csv.reader] reads back as the header of the five visible columns
    followed by the cells of the records, in the order of the frame, a NULL
    summary being read back as the empty string, provided no cell holds a
    carriage return that the writer leaves unquoted and no cell is longer
    than the limit of the reader on the length of a field.  The identifier
    is not a column.  (The limit is one that the reader keeps: on a line
    made of one plain field that is longer, it raises its error.) *)
Theorem export_csv_reads_back env (df : DataFrame) output_file w :
  df ≠ [] →
  posix_or_dos env →
  frame_cr_safe env df →
  frame_short df →
  fs_fault env output_file = None →
  compression env output_file = None →
  ∃ w' text,
    export_data env df output_file "csv" w = (Return (), w')
    ∧ last (stdout w') = Some ("Successfully exported to CSV: " +:+ output_file)
    ∧ fs w' !! output_file = Some text
    ∧ Csv.reader text = Some (Csv.columns :: (Csv.cells <$> df))
    ∧ ("id" ∉ Csv.columns)
    ∧ ∀ s, Forall plain s →
           (Csv.field_size_limit < Z.of_nat (length s))%Z →
           Csv.reader (String.string_of_list_ascii s) = None.
Proof.
  intros Hdf Hsep Hcr Hshort Hfs Hz.
  destruct (export_data_csv env df output_file w Hdf Hfs)
    as (w' & Hrun & Hfs' & Hout).
  unfold written in Hfs'. rewrite Hz in Hfs'.
  exists w', (Csv.to_csv env df). split; [done|].
  split; [by rewrite Hout, last_app|].
  split; [by rewrite Hfs', lookup_insert_eq|]. split.
  - unfold Csv.to_csv. apply reader_writerows; [done| |].
    + constructor; [split; [simpl; lia|apply columns_cr_safe]|].
      apply Forall_fmap. eapply Forall_impl; [exact Hcr|].
      intros a Ha. split; [simpl; lia|done].
    + constructor; [|by apply Forall_fmap].
      unfold Csv.columns.
      repeat constructor; unfold short, Csv.field_size_limit; cbn; lia.
  - split; [|apply reader_refuses_a_long_field].
    unfold Csv.columns. rewrite !elem_of_cons, elem_of_nil. intuition discriminate.
Qed.

Lemma export_csv_reads_back_witness :
  ∃ w' text,
    export_data sample_env [article_awkward; article_L1] "out.csv" "csv" empty_world
    = (Return (), w')
    ∧ last (stdout w') = Some ("Successfully exported to CSV: " +:+ "out.csv")
    ∧ fs w' !! "out.csv" = Some text
    ∧ Csv.reader text
      = Some (Csv.columns :: (Csv.cells <$> [article_awkward; article_L1]))
    ∧ ("id" ∉ Csv.columns)
    ∧ ∀ s, Forall plain s →
           (Csv.field_size_limit < Z.of_nat (length s))%Z →
           Csv.reader (String.string_of_list_ascii s) = None.
Proof.
  apply (export_csv_reads_back sample_env [article_awkward; article_L1]
           "out.csv" empty_world).
  - discriminate.
  - left. reflexivity.
  - unfold frame_cr_safe.
    repeat (apply Forall_cons_2; [unfold Csv.cells; no_carriage_return|]).
    apply Forall_nil_2.
  - unfold frame_short.
    repeat (apply Forall_cons_2;
            [unfold Csv.cells;
             repeat (apply Forall_cons_2;
                     [unfold short, Csv.field_size_limit; simpl; lia|]);
             apply Forall_nil_2|]).
    apply Forall_nil_2.
  - reflexivity.
  - reflexivity.
Defined.

(** With a writer that leaves a carriage return unquoted, a cell that holds
    one is read back as the end of a record. *)
Example bare_carriage_return :
  Csv.reader (Csv.to_csv sample_env
    [mkArticle (String "a" (String Py.CR "b")) (Some "s") "l" "src" "d"])
  = Some [Csv.columns; ["a"]; ["b"; "s"; "l"; "src"; "d"]].
Proof. vm_compute. reflexivity. Qed.

(** * Further properties of the aggregator *)

(** ** Deduplication *)

Lemma drop_duplicates_from_sublist seen df :
  drop_duplicates_from seen df `sublist_of` df.
Proof.
  revert seen. induction df as [|a df IH]; intros seen; simpl; [done|].
  case_bool_decide; [by apply sublist_cons|by apply sublist_skip].
Qed.

(** Deduplicating a batch whose links are pairwise distinct, none of them
    seen before, changes nothing. *)
Lemma drop_duplicates_from_id seen df :
  NoDup (link <$> df) →
  (∀ a, a ∈ df → link a ∉ seen) →
  drop_duplicates_from seen df = df.
Proof.
  revert seen. induction df as [|a df IH]; intros seen Hnd Hseen; simpl; [done|].
  rewrite fmap_cons in Hnd. apply NoDup_cons in Hnd as [Ha Hnd].
  rewrite bool_decide_eq_false_2 by (apply Hseen; by left).
  f_equal. apply IH; [done|].
  intros b Hb. rewrite not_elem_of_cons. split; [|apply Hseen; by right].
  intros Heq. apply Ha. rewrite <- Heq. by apply list_elem_of_fmap_2.
Qed.

(** X1: [drop_duplicates] keeps, for every link of the batch, the first
    record that carries it and nothing else: the links of the result are
    pairwise distinct, the result is a sub-sequence of the batch, every link
    of the batch is still there, each record kept is the first of its link,
    and a second pass changes nothing. *)
Theorem drop_duplicates_keeps_first_of_each_link (B : list Article) :
  NoDup (link <$> drop_duplicates B)
  ∧ drop_duplicates B `sublist_of` B
  ∧ (∀ a, a ∈ B → link a ∈ link <$> drop_duplicates B)
  ∧ (∀ a, a ∈ drop_duplicates B →
        ∃ l1 l2, B = l1 ++ a :: l2 ∧ link a ∉ link <$> l1)
  ∧ drop_duplicates (drop_duplicates B) = drop_duplicates B.
Proof.
  split; [apply drop_duplicates_NoDup|].
  split; [apply drop_duplicates_from_sublist|].
  split; [|split].
  - intros a Ha.
    destruct (drop_duplicates_from_complete [] B a Ha) as [H|H]; [|done].
    by apply elem_of_nil in H.
  - apply drop_duplicates_first_wins.
  - apply drop_duplicates_from_id; [apply drop_duplicates_NoDup|].
    intros a _. apply not_elem_of_nil.
Qed.

(** ** Frames *)

Section frames.
Context (R : relation World) `{!PreOrder R} (Hd : durable R).

Lemma keeps_ret {A} (a : A) : keeps R (mret a).
Proof. intros w. reflexivity. Qed.

Lemma keeps_raise {A} e : keeps R (raise (A := A) e).
Proof. intros w. reflexivity. Qed.

Lemma keeps_bind {A B} (m : Run A) (f : A → Run B) :
  keeps R m → (∀ a, keeps R (f a)) → keeps R (m ≫= f).
Proof.
  intros Hm Hf w. rewrite run_bind. specialize (Hm w).
  destruct (m w) as [[a|e] w1]; simpl in *; [|done].
  etrans; [exact Hm|apply Hf].
Qed.

Lemma keeps_try {A} (m : Run A) : keeps R m → keeps R (try m).
Proof. intros Hm w. rewrite run_try. apply Hm. Qed.

Lemma keeps_gets {A} (f : World → A) : keeps R (gets f).
Proof. intros w. reflexivity. Qed.

Lemma keeps_print line : keeps R (print line).
Proof. intros w. by apply (Hd w). Qed.

Lemma keeps_db_access env : keeps R (db_access env).
Proof.
  intros w. unfold db_access.
  destruct (db_fault env (db_calls w)); by apply (Hd w).
Qed.

Lemma keeps_get_db_connection env : keeps R (get_db_connection env).
Proof. apply keeps_bind; [apply keeps_db_access|intros; apply keeps_gets]. Qed.

Lemma keeps_fresh_ids env n : keeps R (fresh_ids env n).
Proof. intros w. by apply (Hd w). Qed.

Lemma keeps_build_query args : keeps R (build_query args).
Proof.
  intros w. destruct (build_query_returns args w) as (q & p & out & ->).
  by apply (Hd w).
Qed.

Lemma keeps_read_sql_query env query params conn :
  keeps R (read_sql_query env query params conn).
Proof.
  apply keeps_bind; [apply keeps_db_access|intros _].
  destruct (select _ _ _); [apply keeps_ret|apply keeps_raise].
Qed.

Lemma keeps_execute_query env args : keeps R (execute_query env args).
Proof.
  apply keeps_bind; [apply keeps_build_query|intros [query params]].
  apply keeps_bind; [apply keeps_get_db_connection|intros conn].
  apply keeps_bind; [apply keeps_try, keeps_read_sql_query|intros [df|e]].
  - apply keeps_ret.
  - apply keeps_bind; [apply keeps_print|intros; apply keeps_ret].
Qed.

Lemma keeps_execute_insert env conn row : keeps R (execute_insert env conn row).
Proof.
  apply keeps_bind; [apply keeps_db_access|intros _].
  repeat case_bool_decide; first [apply keeps_raise|apply keeps_ret].
Qed.

Lemma keeps_insert_loop env conn rows n d : keeps R (insert_loop env conn rows n d).
Proof.
  revert conn n d. induction rows as [|row rest IH]; intros conn n d;
    cbn [insert_loop]; [apply keeps_ret|].
  apply keeps_bind; [apply keeps_try, keeps_execute_insert|].
  intros [conn'|[]]; try apply IH;
    (apply keeps_bind; [apply keeps_print|intros; apply IH]).
Qed.

(** Committing the rows that the connection was opened on changes nothing. *)
Lemma keeps_setup env :
  keeps R (conn ← get_db_connection env; setup_database env conn).
Proof.
  intros w. unfold get_db_connection, setup_database, commit.
  rewrite !run_bind. unfold db_access at 1.
  destruct (db_fault env (db_calls w)); cbn [fst snd]; [by apply (Hd w)|].
  unfold gets at 1. cbn beta iota. rewrite run_bind.
  unfold db_access at 1. cbn [db_calls set_db_calls].
  destruct (db_fault env (S (db_calls w))); cbn [fst snd]; [by apply (Hd w)|].
  rewrite run_bind. unfold db_access at 1. cbn [db_calls set_db_calls].
  destruct (db_fault env (S (S (db_calls w)))); cbn [fst snd]; by apply (Hd w).
Qed.

End frames.

Global Instance same_store_preorder : PreOrder same_store.
Proof. split; [done|]. intros x y z H1 H2. unfold same_store in *. congruence. Qed.
Global Instance same_files_preorder : PreOrder same_files.
Proof. split; [done|]. intros x y z H1 H2. unfold same_files in *. congruence. Qed.
Global Instance same_files_but_preorder path : PreOrder (same_files_but path).
Proof.
  split; [done|]. intros x y z H1 H2 p Hp. rewrite (H2 p Hp). by apply H1.
Qed.
Global Instance same_store_unless_preorder path : PreOrder (same_store_unless path).
Proof.
  split; [by left|]. unfold same_store_unless.
  intros x y z [H1|[? H1]] [H2|[? H2]].
  - left. congruence.
  - by right.
  - right. split; [done|congruence].
  - by right.
Qed.
Global Instance grows_preorder : PreOrder grows.
Proof.
  split; [by split|]. intros x y z [H1 H1'] [H2 H2']. split; [by etrans|auto].
Qed.

Lemma same_store_durable : durable same_store.
Proof. intros w w' H1 _ w0. unfold same_store. congruence. Qed.
Lemma same_files_durable : durable same_files.
Proof. intros w w' _ H1 w0. unfold same_files. congruence. Qed.
Lemma same_files_but_durable path : durable (same_files_but path).
Proof. intros w w' _ H1 w0 H p Hp. rewrite H1. by apply H. Qed.
Lemma same_store_unless_durable path : durable (same_store_unless path).
Proof. intros w w' H1 _ w0. unfold same_store_unless. by rewrite H1. Qed.
Lemma grows_durable : durable grows.
Proof. intros w w' H1 _ w0. unfold grows. by rewrite H1. Qed.

(** ** The store under [save_articles] *)

Lemma conn_after_grows conn row r :
  (is_inserted r = true →
   (row_id row ∉ row_id <$> conn)
   ∧ link (row_data row) ∉ (link ∘ row_data) <$> conn) →
  conn `prefix_of` conn_after conn row r
  ∧ (store_ok conn → store_ok (conn_after conn row r)).
Proof.
  intros Hr. unfold conn_after. destruct (is_inserted r); [|done].
  destruct Hr as [Hid Hlink]; [done|].
  split; [by apply prefix_app_r|]. intros [H1 H2].
  split; rewrite fmap_app; apply NoDup_app; (split; [done|]);
    (split; [|apply NoDup_singleton]);
    intros x Hx ->%list_elem_of_singleton; done.
Qed.

Lemma insert_result_inserted env conn k row :
  is_inserted (insert_result env conn k row) = true →
  (row_id row ∉ row_id <$> conn)
  ∧ link (row_data row) ∉ (link ∘ row_data) <$> conn.
Proof.
  unfold insert_result. destruct (db_fault env k); [done|].
  do 2 case_bool_decide; done.
Qed.

Lemma conn_final_grows env conn k rows :
  conn `prefix_of` conn_final env conn k rows
  ∧ (store_ok conn → store_ok (conn_final env conn k rows)).
Proof.
  revert conn k. induction rows as [|row rest IH]; intros conn k; simpl; [done|].
  destruct (conn_after_grows conn row (insert_result env conn k row)
              (insert_result_inserted env conn k row)) as [H1 H2].
  destruct (IH (conn_after conn row (insert_result env conn k row)) (S k))
    as [H3 H4].
  split; [by etrans|auto].
Qed.

(** The rows a run adds come from the batch, in batch order. *)
Lemma conn_final_new env conn k rows :
  ∃ new, conn_final env conn k rows = conn ++ new ∧ new `sublist_of` rows.
Proof.
  revert conn k. induction rows as [|row rest IH]; intros conn k; simpl.
  - exists []. by rewrite app_nil_r.
  - destruct (IH (conn_after conn row (insert_result env conn k row)) (S k))
      as (new & -> & Hsub).
    unfold conn_after. destruct (is_inserted _).
    + exists (row :: new). rewrite <- app_assoc. split; [done|by apply sublist_skip].
    + exists new. split; [done|by apply sublist_cons].
Qed.

(** What a run of [save_articles] does to the store and the files,
    whatever fails. *)
Lemma save_articles_store env (articles : list Article) w :
  (∃ new, db (snd (save_articles env articles w)) = db w ++ new
          ∧ new `sublist_of` staged_rows env w articles)
  ∧ (store_ok (db w) → store_ok (db (snd (save_articles env articles w))))
  ∧ fs (snd (save_articles env articles w)) = fs w.
Proof.
  destruct articles as [|a articles].
  { rewrite save_articles_empty. cbn [snd]. split; [|done].
    exists []. rewrite app_nil_r. split; [done|apply sublist_nil_l]. }
  assert (a :: articles ≠ []) as Hne by done.
  destruct (db_fault env (db_calls w)) as [msg|] eqn:H1.
  { destruct (save_articles_connect_fault env _ w msg Hne H1)
      as (w1 & -> & Hdb & Hfs & _). cbn [snd]. rewrite Hdb.
    split; [|done]. exists []. rewrite app_nil_r. split; [done|apply sublist_nil_l]. }
  destruct (db_fault env (S (db_calls w) + length (drop_duplicates (a :: articles))))
    as [msg|] eqn:H2.
  { destruct (save_articles_commit_fault env _ w msg Hne H1 H2)
      as (w1 & -> & Hdb & Hfs). cbn [snd]. rewrite Hdb.
    split; [|done]. exists []. rewrite app_nil_r. split; [done|apply sublist_nil_l]. }
  destruct (save_articles_run env _ w Hne H1 H2) as (w1 & -> & Hdb & Hfs & _).
  cbn [snd]. rewrite Hdb. split; [|split; [|done]].
  - apply conn_final_new.
  - apply conn_final_grows.
Qed.

(** X2: whatever fails, [save_articles] only appends to the store: the
    rows it adds carry records of the deduplicated batch, in batch order,
    behind the rows that were there; a store in which no two rows share an
    identifier or a link stays so; no file is touched. *)
Theorem save_articles_only_appends env (articles : list Article) w :
  (∃ new, db (snd (save_articles env articles w)) = db w ++ new
          ∧ row_data <$> new `sublist_of` drop_duplicates articles)
  ∧ (store_ok (db w) → store_ok (db (snd (save_articles env articles w))))
  ∧ fs (snd (save_articles env articles w)) = fs w.
Proof.
  destruct (save_articles_store env articles w) as ((new & Hnew & Hsub) & Hok & Hfs).
  split; [|done]. exists new. split; [done|].
  rewrite <- (staged_rows_data env w). by apply fmap_sublist.
Qed.

Lemma keeps_save_articles_files env articles :
  keeps same_files (save_articles env articles).
Proof. intros w. apply (save_articles_store env articles w). Qed.

Lemma keeps_save_articles_grows env articles :
  keeps grows (save_articles env articles).
Proof.
  intros w. destruct (save_articles_store env articles w)
    as ((new & Hnew & _) & Hok & _).
  split; [|done]. rewrite Hnew. by apply prefix_app_r.
Qed.

(** ** Files under [export_data] *)

Lemma keeps_write_file_store env path content :
  keeps (same_store_unless path) (write_file env path content).
Proof.
  intros w. unfold write_file, same_store_unless.
  destruct (fs_fault env path); [by left|].
  cbn [snd]. case_bool_decide; [right|left]; done.
Qed.

Lemma keeps_write_file_but env path content :
  keeps (same_files_but path) (write_file env path content).
Proof.
  intros w. unfold write_file. destruct (fs_fault env path); [done|].
  intros p Hp. cbn [snd]. case_bool_decide; cbn; by rewrite lookup_insert_ne.
Qed.

Lemma keeps_to_excel (R : relation World) `{!PreOrder R} env df path :
  (∀ content, keeps R (write_file env path content)) →
  keeps R (to_excel env df path).
Proof.
  intros Hw. unfold to_excel.
  destruct (excel_refusal env df path); [by apply keeps_raise|].
  apply keeps_bind; [done|apply Hw|intros _].
  destruct (excel_fault env df); [by apply keeps_raise|by apply keeps_ret].
Qed.

Lemma keeps_export_data (R : relation World) `{!PreOrder R} env df output_file
    export_format :
  durable R →
  (∀ content, keeps R (write_file env output_file content)) →
  keeps R (export_data env df output_file export_format).
Proof.
  intros Hd Hw. destruct df as [|a df]; [by apply keeps_print|].
  unfold export_data.
  apply keeps_bind; [done|by apply keeps_print|intros _].
  apply keeps_bind; [done| |].
  - apply keeps_try.
    repeat case_bool_decide;
      try (apply keeps_bind;
           [done|first [apply Hw|by apply keeps_to_excel]
           |intros; by apply keeps_print]).
    by apply keeps_print.
  - intros [[]|e]; [by apply keeps_ret|by apply keeps_print].
Qed.

Lemma run_assoc {A B C} (m : Run A) (f : A → Run B) (g : B → Run C) w :
  ((m ≫= f) ≫= g) w = (m ≫= λ a, f a ≫= g) w.
Proof.
  rewrite !run_bind. destruct (m w) as [[a|e] w1]; [|done]. by rewrite run_bind.
Qed.

Section command_frames.
Context (R : relation World) `{!PreOrder R} (Hd : durable R) (env : Env).

Lemma keeps_after_setup {A} (k : Run A) :
  keeps R k →
  keeps R (conn ← get_db_connection env; setup_database env conn;; k).
Proof.
  intros Hk w. rewrite <- run_assoc.
  by apply keeps_bind; [done|apply keeps_setup|].
Qed.

Lemma keeps_main_fetch src :
  keeps R (save_articles env (fetch_mock_data env src)) →
  keeps R (main env (Fetch src)).
Proof.
  intros Hsave. apply keeps_after_setup.
  apply keeps_bind; [done|by apply keeps_print|intros _].
  apply keeps_bind; [done|by apply keeps_print|intros _].
  apply keeps_bind; [done|exact Hsave|intros _]. by apply keeps_print.
Qed.

Lemma keeps_main_query args : keeps R (main env (Query args)).
Proof.
  apply keeps_after_setup.
  apply keeps_bind; [done|by apply keeps_print|intros _].
  apply keeps_bind; [done|by apply keeps_execute_query|intros [|a df]].
  - by apply keeps_print.
  - apply keeps_bind; [done|by apply keeps_print|intros _]. by apply keeps_print.
Qed.

Lemma keeps_main_export args output_file format :
  (∀ content, keeps R (write_file env output_file content)) →
  keeps R (main env (Export args output_file format)).
Proof.
  intros Hw. apply keeps_after_setup.
  apply keeps_bind; [done|by apply keeps_print|intros _].
  apply keeps_bind; [done|by apply keeps_execute_query|intros [|a df]].
  - by apply keeps_print.
  - by apply keeps_export_data.
Qed.

End command_frames.


(** An export to the database file: the text takes the place of the
    table. *)
Example export_over_the_database :
  db (snd (main sample_env (Export no_filter DB_FILE "json") stocked_world)) = []
  ∧ fs (snd (main sample_env (Export no_filter DB_FILE "json") stocked_world))
      !! DB_FILE
    = Some (json_text sample_env (query_frame no_filter (db stocked_world)))
  ∧ last (stdout (snd (main sample_env (Export no_filter DB_FILE "json")
                         stocked_world)))
    = Some "Successfully exported to JSON: articles.db".
Proof. vm_compute. done. Qed.

(** ** Query *)

Lemma order_by_same_date d l :
  Forall (λ r, date_of r = d) l → Sql.order_by_published_date_desc l = l.
Proof.
  induction 1 as [|x l Hx Hl IH]; [done|]. simpl. rewrite IH.
  destruct Hl as [|y l Hy Hl]; [done|]. simpl.
  unfold date_of in *. rewrite Hx, Hy.
  destruct (String.ltb d d) eqn:E; [|done].
  by apply ltb_true_ne in E.
Qed.

Lemma select_with_date args w table ymd :
  wildcard_free (arg_source args) →
  wildcard_free (arg_keyword args) →
  Py.truthy (arg_date args) = true →
  Strptime.strptime (default "" (arg_date args)) = Return ymd →
  ∃ query params,
    build_query args w = (Return (query, params), w)
    ∧ select query params table
      = Some (Sql.order_by_published_date_desc (filter (λ r, hit args r) table)).
Proof.
  intros Hs Hk Hd Hp. unfold build_query, hit, matches_filter, date_matches.
  rewrite Hd, Hp.
  destruct (arg_source args) as [src|], (arg_keyword args) as [kw|];
    cbn [Py.truthy default from_option id];
    repeat (destruct (bool_decide (_ = "")); cbn [negb]);
    eexists _, _; (split; [reflexivity|]);
    (erewrite select_run by reflexivity);
    f_equal; f_equal; apply filter_ext_bool; intros r;
    unfold where_true; cbn [foldl];
    destruct (summary (row_data r)) as [sm|]; cbn [from_option id];
    rewrite ?like_contains by done;
    repeat (destruct (contains_ci _ _); try done);
    cbn [Sql.and3 Sql.or3 andb orb];
    by repeat case_bool_decide.
Qed.

(** X4: a query whose source and keyword hold no wildcard of [LIKE] and
    whose date, if given, is one that [strptime] accepts returns, when the
    store answers, exactly the records that contain the source, contain the
    keyword in title or summary, and carry the date as given; newest first,
    and in table order when a date is given.  No warning is printed. *)
Theorem query_selects_filtered_records env args w :
  wildcard_free (arg_source args) →
  wildcard_free (arg_keyword args) →
  date_accepted args →
  db_fault env (db_calls w) = None →
  db_fault env (S (db_calls w)) = None →
  fst (execute_query env args w)
  = Return (row_data <$>
              Sql.order_by_published_date_desc (filter (λ r, hit args r) (db w)))
  ∧ stdout (snd (execute_query env args w)) = stdout w
  ∧ (Py.truthy (arg_date args) = true →
     fst (execute_query env args w)
     = Return (row_data <$> filter (λ r, hit args r) (db w))).
Proof.
  intros Hs Hk Hd H1 H2.
  assert (∃ query params,
    build_query args w = (Return (query, params), w)
    ∧ select query params (db w)
      = Some (Sql.order_by_published_date_desc (filter (λ r, hit args r) (db w))))
    as (query & params & Hb & Hsel).
  { destruct (Py.truthy (arg_date args)) eqn:Ht.
    - destruct (Hd Ht) as [ymd Hp]. by apply (select_with_date _ _ _ ymd).
    - destruct (select_without_wildcards args w (db w) Hs Hk Ht)
        as (query & params & Hb & Hsel).
      exists query, params. split; [done|]. rewrite Hsel. do 2 f_equal.
      apply filter_ext_bool. intros r. unfold hit, date_matches.
      by rewrite Ht, andb_true_r. }
  rewrite (execute_query_ok env args w query params w _ Hb H1 H2 Hsel).
  cbn [fst snd]. split; [done|split; [done|]].
  intros Ht. do 2 f_equal. apply (order_by_same_date (default "" (arg_date args))).
  apply Forall_forall. intros r [Hr _]%list_elem_of_filter.
  unfold hit, date_matches in Hr. rewrite Ht in Hr.
  apply andb_prop_elim in Hr as [_ Hr]. by apply bool_decide_unpack in Hr.
Qed.

Lemma query_selects_filtered_records_witness :
  fst (execute_query sample_env (mkArgs (Some "sourcea") None (Some "2024-05-01"))
         stocked_world)
  = Return (row_data <$>
              Sql.order_by_published_date_desc
                (filter (λ r, hit (mkArgs (Some "sourcea") None (Some "2024-05-01")) r)
                   (db stocked_world)))
  ∧ stdout (snd (execute_query sample_env
                   (mkArgs (Some "sourcea") None (Some "2024-05-01")) stocked_world))
    = stdout stocked_world
  ∧ (Py.truthy (arg_date (mkArgs (Some "sourcea") None (Some "2024-05-01"))) = true →
     fst (execute_query sample_env
            (mkArgs (Some "sourcea") None (Some "2024-05-01")) stocked_world)
     = Return (row_data <$>
                 filter (λ r, hit (mkArgs (Some "sourcea") None (Some "2024-05-01")) r)
                   (db stocked_world))).
Proof.
  apply (query_selects_filtered_records sample_env
           (mkArgs (Some "sourcea") None (Some "2024-05-01")) stocked_world).
  - intros c Hc. simpl in Hc. rewrite !elem_of_cons, elem_of_nil in Hc.
    split; intros ->; intuition discriminate.
  - intros c Hc. simpl in Hc. by apply elem_of_nil in Hc.
  - intros _. exists (2024, 5, 1). vm_compute. reflexivity.
  - reflexivity.
  - reflexivity.
Defined.

Example dated_query_result :
  fst (execute_query sample_env (mkArgs (Some "sourcea") None (Some "2024-05-01"))
         stocked_world)
  = Return [article_L1].
Proof. vm_compute. reflexivity. Qed.

(** ** Case of letters in [LIKE] *)

Lemma lower_char_percent c :
  bool_decide (Py.lower_char c = "%"%char) = bool_decide (c = "%"%char).
Proof. by destruct c as [[] [] [] [] [] [] [] []]. Qed.

Lemma lower_char_underscore c :
  bool_decide (Py.lower_char c = "_"%char) = bool_decide (c = "_"%char).
Proof. by destruct c as [[] [] [] [] [] [] [] []]. Qed.

Lemma lower_char_idemp c : Py.lower_char (Py.lower_char c) = Py.lower_char c.
Proof. by destruct c as [[] [] [] [] [] [] [] []]. Qed.

Lemma list_ascii_of_lower s :
  String.list_ascii_of_string (Py.lower s)
  = Py.lower_char <$> String.list_ascii_of_string s.
Proof. induction s as [|c s IH]; [done|]. simpl. by rewrite IH. Qed.

Lemma like_chars_lower_pattern p s :
  Sql.like_chars (Py.lower_char <$> p) s = Sql.like_chars p s.
Proof.
  revert s. induction p as [|c p IH]; intros s; [done|].
  rewrite fmap_cons. destruct (decide (c = "%"%char)) as [->|Hc].
  - change (Py.lower_char "%") with "%"%char.
    induction s as [|d s IHs].
    + by rewrite !like_chars_percent, IH.
    + by rewrite (like_chars_percent _ (d :: s)),
        (like_chars_percent p (d :: s)), IH, IHs.
  - cbn [Sql.like_chars].
    rewrite lower_char_percent, (bool_decide_eq_false_2 _ Hc).
    destruct s as [|d s]; [done|].
    by rewrite lower_char_underscore, lower_char_idemp, IH.
Qed.

Lemma like_chars_lower_subject p s :
  Sql.like_chars p (Py.lower_char <$> s) = Sql.like_chars p s.
Proof.
  revert s. induction p as [|c p IH]; intros s; [by destruct s|].
  destruct (decide (c = "%"%char)) as [->|Hc].
  - induction s as [|d s IHs].
    + by rewrite !like_chars_percent, IH.
    + rewrite fmap_cons, (like_chars_percent _ (_ :: _)),
        (like_chars_percent p (d :: s)), IHs. f_equal.
      rewrite <- fmap_cons. apply IH.
  - cbn [Sql.like_chars]. rewrite (bool_decide_eq_false_2 _ Hc).
    destruct s as [|d s]; [done|].
    by rewrite fmap_cons, lower_char_idemp, IH.
Qed.

Lemma like_lower x pattern :
  Sql.like x (Py.lower pattern) = Sql.like x pattern.
Proof.
  destruct x as [s|]; [|done]. unfold Sql.like. simpl. f_equal.
  by rewrite list_ascii_of_lower, like_chars_lower_pattern.
Qed.

Lemma lower_app s t : Py.lower (s +:+ t) = Py.lower s +:+ Py.lower t.
Proof. induction s as [|c s IH]; [done|]. simpl. by rewrite IH. Qed.

Lemma like_same_case x s1 s2 :
  Py.lower s1 = Py.lower s2 →
  Sql.like x ("%" +:+ s1 +:+ "%") = Sql.like x ("%" +:+ s2 +:+ "%").
Proof.
  intros H. rewrite <- (like_lower x ("%" +:+ s1 +:+ "%")),
    <- (like_lower x ("%" +:+ s2 +:+ "%")).
  by rewrite !lower_app, H.
Qed.

Lemma truthy_same_case o1 o2 :
  same_up_to_case o1 o2 → Py.truthy o1 = Py.truthy o2.
Proof.
  destruct o1 as [[|c s]|], o2 as [[|d t]|]; try done; intros [= H]; done.
Qed.

Lemma select_same_case query params1 params2 table :
  (∀ key : string, key ∈ ["source"; "keyword"] →
     match params1 !! key, params2 !! key with
     | Some p1, Some p2 => ∀ x, Sql.like x p1 = Sql.like x p2
     | None, None => True
     | _, _ => False
     end) →
  params1 !! "date" = params2 !! "date" →
  select query params1 table = select query params2 table.
Proof.
  intros Hlike Hdate. unfold select.
  assert (∀ c, match clause_cond params1 c, clause_cond params2 c with
               | Some f, Some g => ∀ r, f r = g r
               | None, None => True
               | _, _ => False
               end) as Hc.
  { assert ("source" ∈ ["source"; "keyword"]) as Hsrc by left.
    assert ("keyword" ∈ ["source"; "keyword"]) as Hkw by (right; left).
    intros [].
    - pose proof (Hlike "source" Hsrc) as H. unfold clause_cond.
      destruct (params1 !! "source"), (params2 !! "source"); cbn -[Sql.like];
        try done.
    - pose proof (Hlike "keyword" Hkw) as H. unfold clause_cond.
      destruct (params1 !! "keyword"), (params2 !! "keyword"); cbn -[Sql.like];
        try done.
      intros r. by rewrite !H.
    - unfold clause_cond. rewrite Hdate. by destruct (params2 !! "date"). }
  assert (match mapM (clause_cond params1) query, mapM (clause_cond params2) query with
          | Some fs, Some gs => Forall2 (λ f g, ∀ r, f r = g r) fs gs
          | None, None => True
          | _, _ => False
          end) as Hm.
  { induction query as [|c query IH]; simpl; [by constructor|].
    specialize (Hc c).
    destruct (clause_cond params1 c), (clause_cond params2 c); simpl; try done.
    destruct (mapM (clause_cond params1) query), (mapM (clause_cond params2) query);
      simpl; try done.
    by constructor. }
  destruct (mapM (clause_cond params1) query) as [fs|],
    (mapM (clause_cond params2) query) as [gs|]; simpl; try done.
  assert (∀ r acc, foldl (λ acc c, Sql.and3 acc (c r)) acc fs
                   = foldl (λ acc c, Sql.and3 acc (c r)) acc gs) as Hfold.
  { intros r. induction Hm as [|f g fs gs Hfg _ IH]; intros acc; [done|].
    simpl. by rewrite Hfg, IH. }
  do 2 f_equal. apply filter_ext_bool. intros r. unfold where_true.
  by rewrite Hfold.
Qed.

Lemma build_query_same_case args1 args2 w :
  same_up_to_case (arg_source args1) (arg_source args2) →
  same_up_to_case (arg_keyword args1) (arg_keyword args2) →
  arg_date args1 = arg_date args2 →
  ∃ query params1 params2 w1,
    build_query args1 w = (Return (query, params1), w1)
    ∧ build_query args2 w = (Return (query, params2), w1)
    ∧ ∀ table, select query params1 table = select query params2 table.
Proof.
  intros Hs Hk Hd.
  pose proof (truthy_same_case _ _ Hs) as Hts.
  pose proof (truthy_same_case _ _ Hk) as Htk.
  unfold build_query. rewrite <- Hts, <- Htk, <- Hd.
  assert (∀ o1 o2, same_up_to_case o1 o2 →
            ∀ x, Sql.like x ("%" +:+ default "" o1 +:+ "%")
                 = Sql.like x ("%" +:+ default "" o2 +:+ "%")) as Hl.
  { intros [s1|] [s2|]; try done. intros [= H] x. by apply like_same_case. }
  destruct (Py.truthy (arg_source args1)), (Py.truthy (arg_keyword args1)),
    (Py.truthy (arg_date args1));
    try (destruct (Strptime.strptime _) as [ymd|e] eqn:Hp;
         [|destruct (strptime_raises_ValueError _ _ Hp) as [msg ->]]);
    eexists _, _, _, _; (split; [reflexivity|]); (split; [reflexivity|]);
    intros table; apply select_same_case;
    try (intros key Hkey; rewrite !elem_of_cons, elem_of_nil in Hkey;
         destruct Hkey as [->|[->|[]]]; simplify_map_eq; try done; by apply Hl);
    by simplify_map_eq.
Qed.

(** X5: the case of the ASCII letters of the source and of the keyword
    makes no difference to a query: the result and everything printed are
    the same. *)
Theorem query_ignores_ascii_case env args1 args2 w :
  same_up_to_case (arg_source args1) (arg_source args2) →
  same_up_to_case (arg_keyword args1) (arg_keyword args2) →
  arg_date args1 = arg_date args2 →
  execute_query env args1 w = execute_query env args2 w.
Proof.
  intros Hs Hk Hd.
  destruct (build_query_same_case args1 args2 w Hs Hk Hd)
    as (query & p1 & p2 & w1 & H1 & H2 & Hsel).
  unfold execute_query. rewrite !run_bind, H1, H2. cbn beta iota.
  rewrite !run_bind. destruct (get_db_connection env w1) as [[conn|e] w2]; [|done].
  rewrite !run_bind, !run_try. unfold read_sql_query. rewrite !run_bind.
  destruct (db_access env w2) as [[[]|e] w3]; [|done].
  by rewrite Hsel.
Qed.

Lemma query_ignores_ascii_case_witness :
  execute_query sample_env (mkArgs (Some "SOURCEa") (Some "t1") None) stocked_world
  = execute_query sample_env (mkArgs (Some "sourceA") (Some "T1") None) stocked_world.
Proof.
  apply (query_ignores_ascii_case sample_env
           (mkArgs (Some "SOURCEa") (Some "t1") None)
           (mkArgs (Some "sourceA") (Some "T1") None) stocked_world);
    reflexivity.
Defined.

(** ** Dates that [strptime] accepts *)

Section strptime_matchers.
Import Strptime.

Lemma in_range_bounds lo hi c :
  in_range lo hi c = true → lo ≤ Py.digit_val c ≤ hi.
Proof.
  unfold in_range. rewrite !andb_true_iff, !Nat.leb_le. tauto.
Qed.

Lemma is_digit_bound c : Py.is_digit c = true → Py.digit_val c ≤ 9.
Proof.
  unfold Py.is_digit, Py.digit_val. rewrite andb_true_iff, !Nat.leb_le. lia.
Qed.

Lemma two_elem lo1 hi1 lo2 hi2 s n r :
  (n, r) ∈ two lo1 hi1 lo2 hi2 s →
  10 * lo1 + lo2 ≤ n ≤ 10 * hi1 + hi2 ∧ length s = 2 + length r.
Proof.
  unfold two. destruct s as [|a [|b s]]; try by intros ?%elem_of_nil.
  destruct (in_range lo1 hi1 a) eqn:Ha; [|by intros ?%elem_of_nil].
  destruct (in_range lo2 hi2 b) eqn:Hb; [|by intros ?%elem_of_nil].
  intros [= -> ->]%list_elem_of_singleton.
  apply in_range_bounds in Ha, Hb. simpl. lia.
Qed.

Lemma one_elem lo hi s n r :
  (n, r) ∈ one lo hi s → lo ≤ n ≤ hi ∧ length s = 1 + length r.
Proof.
  unfold one. destruct s as [|a s]; [by intros ?%elem_of_nil|].
  destruct (in_range lo hi a) eqn:Ha; [|by intros ?%elem_of_nil].
  intros [= -> ->]%list_elem_of_singleton.
  apply in_range_bounds in Ha. simpl. lia.
Qed.

Lemma lit_elem c s r : r ∈ lit c s → s = c :: r.
Proof.
  unfold lit. destruct s as [|a s]; [by intros ?%elem_of_nil|].
  case_bool_decide as Ha; [|by intros ?%elem_of_nil].
  intros ->%list_elem_of_singleton. by rewrite Ha.
Qed.

Lemma re_Y_elem s y r :
  (y, r) ∈ re_Y s → y < 10 * 1000 ∧ length s = 4 + length r.
Proof.
  unfold re_Y. destruct s as [|a [|b [|c [|d s]]]]; try by intros ?%elem_of_nil.
  destruct (Py.is_digit a) eqn:Ha; [|by intros ?%elem_of_nil].
  destruct (Py.is_digit b) eqn:Hb; [|by intros ?%elem_of_nil].
  destruct (Py.is_digit c) eqn:Hc; [|by intros ?%elem_of_nil].
  destruct (Py.is_digit d) eqn:Hd; [|by intros ?%elem_of_nil].
  intros [= -> ->]%list_elem_of_singleton.
  apply is_digit_bound in Ha, Hb, Hc, Hd. simpl length. lia.
Qed.

Lemma re_m_elem s m r :
  (m, r) ∈ re_m s → 1 ≤ m ≤ 12 ∧ 1 + length r ≤ length s ≤ 2 + length r.
Proof.
  unfold re_m. rewrite !elem_of_app.
  intros [H|[H|H]]; [apply two_elem in H..|apply one_elem in H]; lia.
Qed.

Lemma re_d_elem s d r :
  (d, r) ∈ re_d s → 1 ≤ d ≤ 31 ∧ 1 + length r ≤ length s ≤ 2 + length r.
Proof.
  unfold re_d. rewrite !elem_of_app.
  intros [H|[H|[H|[H|H]]]]; [apply two_elem in H..|apply one_elem in H|]; try lia.
  apply list_elem_of_bind in H as (r' & H & ->%lit_elem).
  apply one_elem in H. simpl. lia.
Qed.

Lemma regex_match_elem s y m d r :
  regex_match s = Some (y, m, d, r) →
  y < 10 * 1000 ∧ 1 ≤ m ≤ 12 ∧ 1 ≤ d ≤ 31
  ∧ 8 + length r ≤ length s ≤ 10 + length r.
Proof.
  unfold regex_match. intros H%head_Some_elem_of.
  apply list_elem_of_bind in H as ([y' r1] & H & HY%re_Y_elem).
  apply list_elem_of_bind in H as (r2 & H & ->%lit_elem).
  apply list_elem_of_bind in H as ([m' r3] & H & Hm%re_m_elem).
  apply list_elem_of_bind in H as (r4 & H & ->%lit_elem).
  apply list_elem_of_bind in H as ([d' r5] & H & Hd%re_d_elem).
  apply list_elem_of_singleton in H as [= -> -> -> ->].
  simpl length in *. lia.
Qed.

End strptime_matchers.

Lemma length_list_ascii_of_string s :
  length (String.list_ascii_of_string s) = String.length s.
Proof. induction s; simpl; congruence. Qed.

(** X6: a text that the date option accepts is a date of the calendar: a
    year of four digits that is not zero, a month from 1 to 12 and a day
    that the month has in that year, written in 8 to 10 characters. *)
Theorem strptime_returns_calendar_dates s y m d :
  Strptime.strptime s = Return (y, m, d) →
  1 ≤ y < 10 * 1000
  ∧ 1 ≤ m ≤ 12
  ∧ 1 ≤ d ≤ Strptime.days_in_month y m
  ∧ 8 ≤ String.length s ≤ 10.
Proof.
  unfold Strptime.strptime.
  destruct (Strptime.regex_match _) as [[[[y' m'] d'] r]|] eqn:Hr; [|done].
  case_bool_decide as Hnil; [|done]. cbn [negb].
  destruct (y' <? 1) eqn:Hy; [done|].
  destruct (Strptime.days_in_month y' m' <? d') eqn:Hdm; [done|].
  intros [= -> -> ->]. apply regex_match_elem in Hr. subst r.
  rewrite length_list_ascii_of_string in Hr. simpl in Hr.
  apply Nat.ltb_ge in Hy, Hdm. lia.
Qed.

Lemma strptime_returns_calendar_dates_witness :
  1 ≤ 2024 < 10 * 1000
  ∧ 1 ≤ 2 ≤ 12
  ∧ 1 ≤ 29 ≤ Strptime.days_in_month 2024 2
  ∧ 8 ≤ String.length "2024-2-29" ≤ 10.
Proof.
  apply (strptime_returns_calendar_dates "2024-2-29" 2024 2 29).
  vm_compute. reflexivity.
Defined.

Example strptime_rejects_a_day_past_the_month :
  Strptime.strptime "2023-02-29"
  = Raise (Py.ValueError "day is out of range for month").
Proof. vm_compute. reflexivity. Qed.

(** ** Export *)

(** [export_data] never raises: what it writes and prints, by format and
    by how the writer of the format fails. *)
Lemma export_data_outcome env (df : DataFrame) output_file export_format w :
  df ≠ [] →
  ∃ w',
    export_data env df output_file export_format w = (Return (), w')
    ∧ match export_content env export_format output_file df with
      | Some (content, word) =>
          match export_failure env export_format df output_file with
          | None =>
              fs w' = <[output_file := content]> (fs w)
              ∧ db w' = db_after_write output_file (db w)
              ∧ stdout w'
                = stdout w ++ [exporting_line df output_file;
                               "Successfully exported to " +:+ word +:+ ": "
                                 +:+ output_file]
          | Some (Unwritten msg) =>
              fs w' = fs w
              ∧ db w' = db w
              ∧ stdout w'
                = stdout w ++ [exporting_line df output_file;
                               "An error occurred during export: " +:+ msg]
          | Some (Written msg) =>
              fs w' = <[output_file := content]> (fs w)
              ∧ db w' = db_after_write output_file (db w)
              ∧ stdout w'
                = stdout w ++ [exporting_line df output_file;
                               "An error occurred during export: " +:+ msg]
          end
      | None => fs w' = fs w ∧ db w' = db w
      end.
Proof.
  intros Hdf. destruct df as [|a df]; [done|]. clear Hdf.
  unfold export_content, export_failure, export_data, exporting_line, to_excel.
  rewrite run_bind. unfold print, modify. cbn beta iota.
  rewrite run_bind, run_try.
  repeat case_bool_decide; simplify_eq.
  4:{ eexists. split; [reflexivity|]. done. }
  all: try destruct (excel_refusal env _ output_file) as [msg0|];
    unfold write_file; cbn [fs set_stdout set_fs];
    destruct (fs_fault env output_file) as [msg|];
    try destruct (excel_fault env _) as [msg1|];
    unfold mbind, Run_bind, mret, Run_ret, raise;
    cbn [fst snd fmap option_fmap option_map];
    (eexists; split; [reflexivity|]);
    unfold db_after_write; destruct (bool_decide (output_file = DB_FILE));
    cbn [db fs stdout set_stdout set_fs set_db Py.str];
    rewrite <- ?app_assoc; done.
Qed.



(** A workbook asked for under a name that pandas does not take for one:
    nothing is written and the refusal is printed. *)
Example excel_needs_a_workbook_name :
  export_data sample_env [article_L1] "out.csv" "excel" empty_world
  = (Return (),
     set_stdout ["Exporting 1 articles to out.csv...";
                 "An error occurred during export: Invalid extension for engine 'openpyxl'"]
       empty_world)
  ∧ fs (snd (export_data sample_env [article_L1] "out.xlsx" "excel" empty_world))
      !! "out.xlsx"
    = Some (excel_bytes sample_env [article_L1]).
Proof. vm_compute. done. Qed.

(** ** Ingestion: failures that end the run *)

(** X9: a run of [save_articles] that raises leaves the store as it was:
    it raises only when the store cannot be opened or the commit fails, the
    error is the one of the store, and the rows inserted before a failed
    commit are not kept. *)
Theorem save_articles_raises_without_a_trace env (articles : list Article) w e :
  fst (save_articles env articles w) = Raise e →
  db (snd (save_articles env articles w)) = db w
  ∧ articles ≠ []
  ∧ ∃ msg,
      e = Py.OperationalError msg
      ∧ (db_fault env (db_calls w) = Some msg
         ∨ db_fault env (S (db_calls w) + length (drop_duplicates articles))
           = Some msg).
Proof.
  destruct articles as [|a articles].
  { by rewrite save_articles_empty. }
  assert (a :: articles ≠ []) as Hne by done.
  destruct (db_fault env (db_calls w)) as [msg|] eqn:H1.
  { destruct (save_articles_connect_fault env _ w msg Hne H1)
      as (w1 & -> & Hdb & _). cbn [fst snd]. intros [= <-].
    split; [done|split; [done|]]. exists msg. auto. }
  destruct (db_fault env (S (db_calls w) + length (drop_duplicates (a :: articles))))
    as [msg|] eqn:H2.
  { destruct (save_articles_commit_fault env _ w msg Hne H1 H2)
      as (w1 & -> & Hdb & _). cbn [fst snd]. intros [= <-].
    split; [done|split; [done|]]. exists msg. auto. }
  destruct (save_articles_run env _ w Hne H1 H2) as (w1 & -> & _). done.
Qed.

Lemma save_articles_raises_without_a_trace_witness :
  db (snd (save_articles commit_fault_env sample_batch empty_world)) = db empty_world
  ∧ sample_batch ≠ []
  ∧ ∃ msg,
      Py.OperationalError "database is locked" = Py.OperationalError msg
      ∧ (db_fault commit_fault_env (db_calls empty_world) = Some msg
         ∨ db_fault commit_fault_env
             (S (db_calls empty_world) + length (drop_duplicates sample_batch))
           = Some msg).
Proof.
  apply (save_articles_raises_without_a_trace commit_fault_env sample_batch
           empty_world (Py.OperationalError "database is locked")).
  vm_compute. reflexivity.
Defined.

(** ** The export command *)

(** The statement that [build_query] builds does not depend on the world. *)
Lemma build_query_pure args w1 w2 :
  fst (build_query args w1) = fst (build_query args w2).
Proof.
  unfold build_query.
  destruct (Py.truthy (arg_source args)), (Py.truthy (arg_keyword args)),
    (Py.truthy (arg_date args)); try done;
    by destruct (Strptime.strptime _) as [ymd|[]].
Qed.

Lemma execute_query_no_faults env args w :
  no_faults env →
  ∃ w',
    execute_query env args w = (Return (query_frame args (db w)), w')
    ∧ db w' = db w ∧ fs w' = fs w ∧ db_calls w' = S (S (db_calls w)).
Proof.
  intros Hnf. unfold query_frame.
  rewrite (build_query_pure args empty_world w).
  destruct (build_query_returns args w) as (query & params & out & Hb).
  rewrite Hb. cbn [fst].
  destruct (select query params (db w)) as [rows|] eqn:Hsel.
  - erewrite execute_query_ok by (try exact Hb; try exact Hsel; apply Hnf).
    eexists. split; [reflexivity|]. done.
  - unfold execute_query, get_db_connection, read_sql_query, gets.
    rewrite run_bind, Hb. cbn beta iota.
    rewrite !run_bind, db_access_ok by apply Hnf.
    cbn beta iota. rewrite run_bind, run_try, run_bind.
    rewrite db_access_ok by apply Hnf.
    cbn beta iota. change (db (bump (set_stdout (stdout w ++ out) w))) with (db w).
    rewrite Hsel. cbn [fst snd raise]. rewrite run_bind.
    eexists. split; [reflexivity|]. done.
Qed.



(** * Properties of the student records *)

Section roster_input.
Import Roster.

Lemma m_bind {A B} (m : M A) (f : A → M B) (st : State) :
  (m ≫= f) st =
  match m st with
  | (Ok a, st') => f a st'
  | (Err e, st') => (Err e, st')
  end.
Proof. reflexivity. Qed.

Lemma m_ret {A} (a : A) (st : State) : mret (M := M) a st = (Ok a, st).
Proof. reflexivity. Qed.

Lemma input_run prompt st :
  input prompt st
  = match stdin st with
    | line :: _ => (Ok line, consumed 1 [prompt] st)
    | [] => (Err EOFError, consumed 0 [prompt] st)
    end.
Proof. destruct st as [f o [|line rest] n fn d]; reflexivity. Qed.

Lemma print_run line st :
  print line st = (Ok (), consumed 0 [line +:+ String Py.NL ""] st).
Proof. by destruct st. Qed.

Lemma consumed_consumed n k p q st :
  consumed n p (consumed k q st) = consumed (k + n) (q ++ p) st.
Proof. unfold consumed. cbn. by rewrite drop_drop, app_assoc. Qed.

Lemma stdin_consumed n p st : stdin (consumed n p st) = drop n (stdin st).
Proof. done. Qed.

(** [get_input] on enough fuel: the blank lines are answered with the
    request to try again, the first line that is not blank is the answer;
    when the input ends first, so does the program. *)
Lemma get_input_loop_run fuel prompt st :
  length (stdin st) < fuel →
  get_input_loop fuel prompt false st
  = match stdin st !! leading_blanks (stdin st) with
    | Some line =>
        (Ok (strip line),
         consumed (S (leading_blanks (stdin st)))
           (asked prompt (leading_blanks (stdin st))) st)
    | None =>
        (Err EOFError,
         consumed (leading_blanks (stdin st))
           (asked prompt (leading_blanks (stdin st))) st)
    end.
Proof.
  revert st. induction fuel as [|fuel IH]; intros st Hlen; [lia|].
  cbn [get_input_loop]. rewrite m_bind, input_run. fold (prompt_text prompt).
  destruct (stdin st) as [|line rest] eqn:Hin; [done|].
  cbn [leading_blanks]. unfold blank.
  case_bool_decide as Hb; cbn [negb orb].
  - rewrite m_bind, print_run. fold retry_text. rewrite consumed_consumed.
    rewrite IH by (rewrite stdin_consumed, Hin, length_drop; simpl in *; lia).
    rewrite stdin_consumed, Hin. cbn [drop lookup list_lookup Nat.add].
    rewrite drop_0.
    destruct (rest !! leading_blanks rest); rewrite consumed_consumed;
      unfold asked; cbn [replicate concat Nat.add]; by rewrite <- !app_assoc.
  - by rewrite m_ret.
Qed.

Lemma get_input_loop_any fuel prompt st :
  get_input_loop (S fuel) prompt true st
  = match stdin st with
    | line :: _ => (Ok (strip line), consumed 1 [prompt_text prompt] st)
    | [] => (Err EOFError, consumed 0 [prompt_text prompt] st)
    end.
Proof.
  cbn [get_input_loop]. rewrite m_bind, input_run. fold (prompt_text prompt).
  destruct (stdin st) as [|line rest] eqn:Hin; [done|].
  by rewrite orb_true_r, m_ret.
Qed.

(** The fuel that [get_input] hands to its loop is enough: more fuel gives
    the same run. *)
Lemma get_input_loop_fuel fuel prompt allow_empty st :
  length (stdin st) < fuel →
  get_input_loop fuel prompt allow_empty st = get_input prompt allow_empty st.
Proof.
  intros Hlen. unfold get_input, get. rewrite m_bind. cbn beta iota.
  destruct allow_empty.
  - destruct fuel; [lia|]. by rewrite !get_input_loop_any.
  - rewrite !get_input_loop_run by lia. done.
Qed.

Lemma get_input_run prompt st :
  get_input prompt false st
  = match stdin st !! leading_blanks (stdin st) with
    | Some line =>
        (Ok (strip line),
         consumed (S (leading_blanks (stdin st)))
           (asked prompt (leading_blanks (stdin st))) st)
    | None =>
        (Err EOFError,
         consumed (leading_blanks (stdin st))
           (asked prompt (leading_blanks (stdin st))) st)
    end.
Proof.
  unfold get_input, get. rewrite m_bind. cbn beta iota.
  by rewrite get_input_loop_run by lia.
Qed.

Lemma get_input_any prompt st :
  get_input prompt true st
  = match stdin st with
    | line :: _ => (Ok (strip line), consumed 1 [prompt_text prompt] st)
    | [] => (Err EOFError, consumed 0 [prompt_text prompt] st)
    end.
Proof.
  unfold get_input, get. rewrite m_bind. cbn beta iota.
  by rewrite get_input_loop_any.
Qed.

Lemma leading_blanks_spec lines :
  Forall (λ line, blank line = true) (take (leading_blanks lines) lines)
  ∧ leading_blanks lines ≤ length lines
  ∧ ∀ line, lines !! leading_blanks lines = Some line → blank line = false.
Proof.
  induction lines as [|l lines (IH1 & IH2 & IH3)]; cbn.
  - split; [constructor|]. split; [lia|]. done.
  - destruct (blank l) eqn:Hb; cbn.
    + split; [by constructor|]. split; [lia|]. done.
    + split; [constructor|]. split; [lia|]. by intros line [= <-].
Qed.

End roster_input.

(** ** Dictionaries *)

Section dict_facts.
Import Roster.
Context {K V : Type} `{EqDecision K}.
Implicit Types (k : K) (v : V) (d : list (K * V)).

Lemma dict_get_None k d : dict_get k d = None ↔ k ∉ d.*1.
Proof.
  induction d as [|[k' v'] d IH]; cbn [dict_get fmap list_fmap fst].
  - split; [intros _; apply not_elem_of_nil|done].
  - rewrite not_elem_of_cons. destruct (decide (k' = k)) as [->|Hne].
    + split; [done|]. by intros [? _].
    + rewrite IH. split; [by split|by intros [_ ?]].
Qed.

Lemma dict_in_get k d : dict_in k d = bool_decide (is_Some (dict_get k d)).
Proof.
  unfold dict_in. apply bool_decide_ext.
  rewrite <- not_eq_None_Some, dict_get_None.
  destruct (decide (k ∈ d.*1)); tauto.
Qed.

Lemma dict_in_true k d : dict_in k d = true ↔ k ∈ d.*1.
Proof. unfold dict_in. apply bool_decide_eq_true. Qed.

Lemma dict_in_false k d : dict_in k d = false ↔ k ∉ d.*1.
Proof. unfold dict_in. apply bool_decide_eq_false. Qed.

Lemma dict_get_Some k v d : dict_get k d = Some v → (k, v) ∈ d.
Proof.
  induction d as [|[k' v'] d IH]; cbn [dict_get]; [done|].
  destruct (decide (k' = k)) as [->|Hne].
  - intros [= ->]. left.
  - intros ?. right. auto.
Qed.

Lemma dict_get_elem k v d : NoDup d.*1 → (k, v) ∈ d → dict_get k d = Some v.
Proof.
  induction d as [|[k' v'] d IH]; cbn [dict_get fmap list_fmap fst];
    [by intros _ ?%elem_of_nil|].
  intros [Hk Hd]%NoDup_cons [[= -> ->]|Hin]%elem_of_cons.
  - by rewrite decide_True.
  - rewrite decide_False; [auto|]. intros ->. apply Hk.
    by apply (list_elem_of_fmap_2 fst) in Hin.
Qed.

Lemma dict_set_fresh k v d : k ∉ d.*1 → dict_set k v d = d ++ [(k, v)].
Proof.
  induction d as [|[k' v'] d IH]; cbn [dict_set fmap list_fmap fst]; [done|].
  intros [Hne Hk]%not_elem_of_cons.
  rewrite decide_False by done. by rewrite IH.
Qed.

Lemma dict_set_keys_there k v d : k ∈ d.*1 → (dict_set k v d).*1 = d.*1.
Proof.
  induction d as [|[k' v'] d IH]; cbn [dict_set fmap list_fmap fst];
    [by intros ?%elem_of_nil|].
  intros Hk. destruct (decide (k' = k)) as [->|Hne]; [done|].
  cbn [fmap list_fmap fst]. f_equal. apply IH.
  apply elem_of_cons in Hk as [->|]; done.
Qed.

Lemma dict_set_keys k v d :
  (dict_set k v d).*1 = if bool_decide (k ∈ d.*1) then d.*1 else d.*1 ++ [k].
Proof.
  case_bool_decide as Hk.
  - by apply dict_set_keys_there.
  - by rewrite dict_set_fresh, fmap_app.
Qed.

Lemma dict_set_NoDup k v d : NoDup d.*1 → NoDup (dict_set k v d).*1.
Proof.
  intros Hd. rewrite dict_set_keys. case_bool_decide as Hk; [done|].
  apply NoDup_app. split; [done|]. split; [|apply NoDup_singleton].
  by intros x Hx ->%list_elem_of_singleton.
Qed.

Lemma dict_get_set k' k v d :
  dict_get k' (dict_set k v d)
  = if decide (k' = k) then Some v else dict_get k' d.
Proof.
  induction d as [|[k0 v0] d IH]; cbn [dict_set dict_get].
  - destruct (decide (k' = k)) as [->|Hne].
    + by rewrite decide_True.
    + by rewrite decide_False by done.
  - destruct (decide (k0 = k)) as [->|Hne]; cbn [dict_get].
    + destruct (decide (k' = k)) as [->|Hne'].
      * by rewrite decide_True.
      * by rewrite !decide_False by done.
    + destruct (decide (k0 = k')) as [->|Hne'].
      * by rewrite decide_False by done.
      * apply IH.
Qed.

Lemma dict_del_filter k d : dict_del k d = filter (λ kv, kv.1 ≠ k) d.
Proof.
  induction d as [|[k' v'] d IH]; cbn [dict_del]; [done|].
  destruct (decide (k' = k)) as [->|Hne].
  - rewrite filter_cons_False; [done|]. cbn. by intros ?.
  - by rewrite filter_cons_True, IH by done.
Qed.

Lemma dict_del_keys k d : (dict_del k d).*1 = filter (λ k', k' ≠ k) d.*1.
Proof.
  induction d as [|[k' v'] d IH]; cbn [dict_del fmap list_fmap fst]; [done|].
  destruct (decide (k' = k)) as [->|Hne].
  - rewrite filter_cons_False; [done|]. by intros ?.
  - rewrite filter_cons_True by done. cbn [fmap list_fmap fst]. by rewrite <- IH.
Qed.

Lemma dict_del_NoDup k d : NoDup d.*1 → NoDup (dict_del k d).*1.
Proof. intros Hd. rewrite dict_del_keys. by apply NoDup_filter. Qed.

Lemma dict_get_del k' k d :
  dict_get k' (dict_del k d)
  = if decide (k' = k) then None else dict_get k' d.
Proof.
  induction d as [|[k0 v0] d IH]; cbn [dict_del dict_get].
  - by destruct (decide (k' = k)).
  - destruct (decide (k0 = k)) as [->|Hne]; cbn [dict_get].
    + rewrite IH. destruct (decide (k' = k)) as [->|Hne']; [done|].
      by rewrite decide_False by done.
    + destruct (decide (k0 = k')) as [->|Hne'].
      * by rewrite decide_False by done.
      * apply IH.
Qed.

Lemma dict_del_absent k d : k ∉ d.*1 → dict_del k d = d.
Proof.
  induction d as [|[k' v'] d IH]; cbn [dict_del fmap list_fmap fst]; [done|].
  intros [Hne Hk]%not_elem_of_cons.
  rewrite decide_False by done. by rewrite IH.
Qed.

(** In a dictionary without a key twice, setting a key that is there
    changes its value in place. *)
Lemma dict_set_there k v d :
  NoDup d.*1 → k ∈ d.*1 →
  ∃ d1 v0 d2, d = d1 ++ (k, v0) :: d2 ∧ dict_set k v d = d1 ++ (k, v) :: d2
              ∧ (k ∉ d1.*1) ∧ k ∉ d2.*1.
Proof.
  induction d as [|[k' v'] d IH]; cbn [dict_set fmap list_fmap fst];
    [by intros _ ?%elem_of_nil|].
  intros [Hk' Hd]%NoDup_cons Hk.
  destruct (decide (k' = k)) as [->|Hne].
  - exists [], v', d. split; [done|]. split; [done|]. split; [apply not_elem_of_nil|done].
  - apply elem_of_cons in Hk as [->|Hk]; [done|].
    destruct (IH Hd Hk) as (d1 & v0 & d2 & -> & -> & H1 & H2).
    exists ((k', v') :: d1), v0, d2. split; [done|]. split; [done|].
    split; [|done]. cbn. rewrite not_elem_of_cons. by split; [intros ->|].
Qed.

(** In a dictionary without a key twice, deleting a key that is there
    takes out its item and nothing else. *)
Lemma dict_del_there k d :
  NoDup d.*1 → k ∈ d.*1 →
  ∃ d1 v0 d2, d = d1 ++ (k, v0) :: d2 ∧ dict_del k d = d1 ++ d2.
Proof.
  induction d as [|[k' v'] d IH]; cbn [dict_del fmap list_fmap fst];
    [by intros _ ?%elem_of_nil|].
  intros [Hk' Hd]%NoDup_cons Hk.
  destruct (decide (k' = k)) as [->|Hne].
  - exists [], v', d. split; [done|]. by apply dict_del_absent.
  - apply elem_of_cons in Hk as [->|Hk]; [done|].
    destruct (IH Hd Hk) as (d1 & v0 & d2 & -> & ->).
    by exists ((k', v') :: d1), v0, d2.
Qed.

End dict_facts.

(** ** The dictionary of the manager stays keyed by the identifiers *)

Section roster_keyed.
Import Roster.

Lemma maintains_ret {A} P (a : A) : maintains P (mret a).
Proof. by intros st. Qed.

Lemma maintains_throw {A} P e : maintains P (throw (A := A) e).
Proof. by intros st. Qed.

Lemma maintains_bind {A B} P (m : M A) (f : A → M B) :
  maintains P m → (∀ a, maintains P (f a)) → maintains P (m ≫= f).
Proof.
  intros Hm Hf st HP. rewrite m_bind. specialize (Hm st HP).
  destruct (m st) as [[a|e] st1]; [by apply Hf|done].
Qed.

Lemma maintains_get {A} P (f : State → A) : maintains P (get f).
Proof. by intros st. Qed.

Lemma maintains_print P line : of_manager P → maintains P (print line).
Proof. intros HP st. by apply HP. Qed.

Lemma maintains_input P prompt : of_manager P → maintains P (input prompt).
Proof.
  intros HP st. rewrite input_run. destruct (stdin st); by apply HP.
Qed.

Lemma maintains_open P env : of_manager P → maintains P (open env).
Proof.
  intros HP st. unfold open, get, update. rewrite !m_bind. cbn.
  destruct (open_fault env (opens st)); by apply HP.
Qed.

Lemma maintains_get_input_loop P fuel prompt allow_empty :
  of_manager P → maintains P (get_input_loop fuel prompt allow_empty).
Proof.
  intros HP. induction fuel as [|fuel IH]; [apply maintains_throw|].
  cbn [get_input_loop].
  apply maintains_bind; [by apply maintains_input|intros line].
  destruct (_ || _); [apply maintains_ret|].
  apply maintains_bind; [by apply maintains_print|done].
Qed.

Lemma maintains_get_input P prompt allow_empty :
  of_manager P → maintains P (get_input prompt allow_empty).
Proof.
  intros HP. apply maintains_bind; [apply maintains_get|intros lines].
  by apply maintains_get_input_loop.
Qed.

Lemma maintains_save_records P env : of_manager P → maintains P (_save_records env).
Proof.
  intros HP.
  apply maintains_bind; [apply maintains_get|intros path].
  apply maintains_bind; [by apply maintains_open|intros _].
  apply maintains_bind; [apply maintains_get|intros d].
  apply maintains_bind; [|intros _; by apply maintains_print].
  intros st. by apply HP.
Qed.

Lemma maintains_print_records P l : of_manager P → maintains P (print_records l).
Proof.
  intros HP. induction l as [|s l IH]; [apply maintains_ret|]. cbn [print_records].
  destruct (record_line s); [|apply maintains_throw].
  apply maintains_bind; [by apply maintains_print|done].
Qed.

Lemma maintains_list_students P : of_manager P → maintains P list_students.
Proof.
  intros HP. apply maintains_bind; [apply maintains_get|intros [|kv d]].
  { by apply maintains_print. }
  do 5 (apply maintains_bind; [by apply maintains_print|intros _]).
  destruct (sorted_by_id _); [|apply maintains_throw].
  apply maintains_bind; [by apply maintains_print_records|intros _].
  by apply maintains_print.
Qed.

Lemma maintains_menu P : of_manager P → maintains P menu.
Proof.
  intros HP. unfold menu.
  do 8 (apply maintains_bind; [by apply maintains_print|intros _]).
  by apply maintains_print.
Qed.

Lemma keyed_of_manager : of_manager keyed_state.
Proof. intros st st' _ Hs. unfold keyed_state. by rewrite Hs. Qed.

Lemma keyed_nil : keyed [].
Proof. split; [constructor|constructor]. Qed.

Lemma keyed_set d s : keyed d → keyed (dict_set (student_id s) s d).
Proof.
  intros [Hnd Hid]. split; [by apply dict_set_NoDup|].
  clear Hnd. induction d as [|[k' s'] d IH]; simpl.
  - by repeat constructor.
  - apply Forall_cons in Hid as [Hk Hid].
    destruct (decide (k' = student_id s)); constructor; auto.
Qed.

Lemma keyed_del d k : keyed d → keyed (dict_del k d).
Proof.
  intros [Hnd Hid]. split; [by apply dict_del_NoDup|].
  rewrite dict_del_filter. rewrite Forall_forall in Hid |- *.
  intros kv [_ Hkv]%list_elem_of_filter. by apply Hid.
Qed.

Lemma keyed_get d k s : keyed d → dict_get k d = Some s → student_id s = k.
Proof.
  intros [_ Hid] Hs%dict_get_Some.
  rewrite Forall_forall in Hid. apply (Hid _ Hs).
Qed.

Lemma keyed_load_row d row : keyed d → keyed (load_row d row).
Proof.
  intros Hd. unfold load_row. destruct (_ && _); [|done].
  by apply (keyed_set d (mkStudent _ _ _)).
Qed.

Lemma keyed_load_rows d rows : keyed d → keyed (foldl load_row d rows).
Proof.
  revert d. induction rows as [|row rows IH]; intros d Hd; [done|].
  simpl. by apply IH, keyed_load_row.
Qed.

(** Whatever the file holds, the manager starts keyed by the identifiers. *)
Lemma keyed_StudentManager env path st :
  keyed_state (snd (StudentManager env path st)).
Proof.
  unfold StudentManager, _load_records, update, get. rewrite !m_bind.
  cbn [fst snd files filename students set_filename set_students].
  destruct (files st !! path) as [text|]; [|apply keyed_nil].
  rewrite m_bind. unfold open, get, update. rewrite !m_bind. cbn.
  destruct (open_fault env (opens st)); [apply keyed_nil|]. cbn.
  destruct (reader text) as [rows failed]. rewrite !m_bind. cbn.
  destruct failed; apply keyed_load_rows, keyed_nil.
Qed.

End roster_keyed.

(** ** The file: what is saved is what is loaded *)

Section roster_files_facts.
Import Roster.

(** On a text none of whose fields goes past the limit, the reader of the
    manager is the reader of the library. *)
Lemma read_rows_within r s r' :
  feed_all r s = Some r' → within r' →
  read_rows r s
  = match Csv.finish r' with
    | Some rows => (rows, false)
    | None => (Csv.rows r', true)
    end.
Proof.
  revert r. induction s as [|c s IH]; intros r; cbn [feed_all read_rows].
  - by intros [= ->].
  - destruct (Csv.feed r c) as [r1|] eqn:H1; [|done]. cbn.
    intros H2 H. unfold Csv.step. rewrite H1. cbn.
    pose proof (feed_all_within _ _ _ H2 H) as (Hf & _).
    rewrite (proj2 (Z.ltb_ge _ _)) by done. by apply IH.
Qed.

Lemma excel_dos : posix_or_dos excel.
Proof. by right. Qed.

Lemma excel_cr_safe s : cr_safe excel s.
Proof. by left. Qed.

Lemma records_text_rows d :
  records_text d
  = String.string_of_list_ascii
      (concat (Csv.writerow excel <$> (fieldnames :: (cells <$> d.*2)))).
Proof.
  unfold records_text. f_equal. rewrite fmap_cons. cbn [concat]. f_equal.
  f_equal. induction (d.*2) as [|s l IH]; [done|].
  rewrite !fmap_cons. by rewrite IH.
Qed.

Lemma list_ascii_of_string_of_list_ascii l :
  String.list_ascii_of_string (String.string_of_list_ascii l) = l.
Proof. induction l; simpl; congruence. Qed.

(** The rows that the reader of the manager finds in a file that the
    manager wrote. *)
Lemma reader_records_text d :
  Forall (Forall short) (cells <$> d.*2) →
  reader (records_text d) = (fieldnames :: (cells <$> d.*2), false).
Proof.
  intros Hshort. unfold reader. rewrite records_text_rows.
  rewrite list_ascii_of_string_of_list_ascii.
  assert (Forall (λ r, 2 ≤ length r
                       ∧ Forall (cr_safe excel ∘ String.list_ascii_of_string) r)
            (fieldnames :: (cells <$> d.*2))) as Hrec.
  { constructor.
    - split; [cbn; lia|]. apply Forall_forall. intros. apply excel_cr_safe.
    - apply Forall_fmap, Forall_forall. intros s _. split; [cbn; lia|].
      apply Forall_forall. intros. apply excel_cr_safe. }
  pose proof (feed_records excel excel_dos _ [] Hrec) as Hfeed.
  unfold Csv.init. rewrite (read_rows_within _ _ _ Hfeed); [done|].
  unfold within. cbn [Csv.field Csv.fields Csv.rows]. split_and!.
  - cbn. unfold Csv.field_size_limit. lia.
  - constructor.
  - rewrite app_nil_l. constructor; [|done].
    repeat constructor; unfold short, Csv.field_size_limit; cbn; lia.
Qed.

End roster_files_facts.

Section roster_runs_facts.
Import Roster.

Lemma save_records_run env st :
  _save_records env st
  = match open_fault env (opens st) with
    | Some msg => (Err (OSError msg), opened st)
    | None => (Ok (), saved st)
    end.
Proof.
  destruct st as [f o i n fn d].
  unfold _save_records, open, get, update, print, write. rewrite !m_bind. cbn.
  by destruct (open_fault env n).
Qed.

Lemma add_student_run env s st :
  add_student env s st
  = if dict_in (student_id s) (students st)
    then (Ok false, printed (exists_line (student_id s)) st)
    else
      let st1 := holding (dict_set (student_id s) s (students st)) st in
      match open_fault env (opens st) with
      | Some msg => (Err (OSError msg), opened st1)
      | None =>
          (Ok true,
           printed (String Py.NL "✨ Student '" +:+ str (name s)
                      +:+ "' added successfully.") (saved st1))
      end.
Proof.
  destruct st as [f o i n fn d].
  unfold add_student. rewrite m_bind. unfold get at 1.
  cbn [students holding opens set_students].
  destruct (dict_in _ _); [reflexivity|].
  rewrite m_bind. unfold update at 1. cbn beta iota zeta.
  rewrite m_bind, save_records_run. cbn [opens set_students].
  by destruct (open_fault env n).
Qed.

Lemma update_student_run env k new_name new_grade st :
  update_student env k new_name new_grade st
  = match dict_get k (students st) with
    | None => (Ok false, printed (not_found_line k) st)
    | Some s =>
        let st1 := holding (dict_set k (updated new_name new_grade s) (students st)) st in
        match open_fault env (opens st) with
        | Some msg => (Err (OSError msg), opened st1)
        | None =>
            (Ok true,
             printed (String Py.NL "🔄 Student ID '" +:+ str k
                        +:+ "' updated successfully.") (saved st1))
        end
    end.
Proof.
  destruct st as [f o i n fn d].
  unfold update_student. rewrite m_bind. unfold get at 1.
  cbn [students holding opens set_students].
  destruct (dict_get k d) as [[sn si sg]|]; [|reflexivity].
  rewrite m_bind. unfold update at 1. cbn beta iota zeta.
  rewrite m_bind, save_records_run. cbn [opens set_students].
  destruct (open_fault env n); [|destruct new_name, new_grade; reflexivity].
  destruct new_name, new_grade; reflexivity.
Qed.

Lemma delete_student_run env k st :
  delete_student env k st
  = if dict_in k (students st)
    then
      let st1 := holding (dict_del k (students st)) st in
      match open_fault env (opens st) with
      | Some msg => (Err (OSError msg), opened st1)
      | None =>
          (Ok true,
           printed (String Py.NL "🗑️ Student ID '" +:+ str k
                      +:+ "' deleted successfully.") (saved st1))
      end
    else (Ok false, printed (not_found_line k) st).
Proof.
  destruct st as [f o i n fn d].
  unfold delete_student. rewrite m_bind. unfold get at 1.
  cbn [students holding opens set_students].
  destruct (dict_in _ _); cbn [negb]; [|reflexivity].
  rewrite m_bind. unfold update at 1. cbn beta iota zeta.
  rewrite m_bind, save_records_run. cbn [opens set_students].
  by destruct (open_fault env n).
Qed.

Lemma StudentManager_run env path st :
  StudentManager env path st
  = match files st !! path with
    | None =>
        (Ok (), mkState (files st) (stdout st) (stdin st) (opens st) path [])
    | Some text =>
        match open_fault env (opens st) with
        | Some msg =>
            (Err (OSError msg),
             mkState (files st) (stdout st) (stdin st) (S (opens st)) path [])
        | None =>
            (if (reader text).2
             then Err (CsvError "field larger than field limit (131072)")
             else Ok (),
             mkState (files st) (stdout st) (stdin st) (S (opens st)) path
               (foldl load_row [] (DictReader (reader text).1)))
        end
    end.
Proof.
  destruct st as [f o i n fn d].
  unfold StudentManager, _load_records, update, get. rewrite !m_bind.
  cbn [fst snd files filename students set_filename set_students stdout stdin opens].
  destruct (f !! path) as [text|]; [|reflexivity].
  rewrite m_bind. unfold open, get, update. rewrite !m_bind.
  cbn [fst snd files filename students set_filename set_students stdout stdin opens
       set_opens].
  destruct (open_fault env n); [reflexivity|].
  destruct (reader text) as [rows []]; reflexivity.
Qed.

(** ** What is saved is what is loaded *)

Lemma load_row_cells acc n i g :
  load_row acc (row_dict fieldnames [i; n; g])
  = dict_set (Some i) (mkStudent (Some n) (Some i) (Some g)) acc.
Proof. reflexivity. Qed.

Lemma DictReader_cells (l : list Student) :
  DictReader (fieldnames :: (cells <$> l)) = row_dict fieldnames ∘ cells <$> l.
Proof.
  unfold DictReader. rewrite list_fmap_compose. f_equal.
  induction l as [|s l IH]; [done|].
  rewrite fmap_cons, filter_cons_True by done. by rewrite IH.
Qed.

Lemma load_rows_keyed d acc :
  keyed d → Forall storable d.*2 →
  (∀ k, k ∈ d.*1 → k ∉ acc.*1) →
  foldl load_row acc (row_dict fieldnames ∘ cells <$> d.*2) = acc ++ d.
Proof.
  revert acc. induction d as [|[k s] d IH]; intros acc [Hnd Hid] Hst Hacc.
  { by rewrite app_nil_r. }
  cbn [fmap list_fmap snd fst foldl compose] in *.
  apply NoDup_cons in Hnd as [Hk Hnd].
  apply Forall_cons in Hid as [Hks Hid]. cbn [fst snd] in Hks.
  apply Forall_cons in Hst as [(n & i & g & -> & _) Hst].
  cbn [student_id] in Hks. subst k.
  change (cells (mkStudent (Some n) (Some i) (Some g))) with [i; n; g].
  rewrite load_row_cells, dict_set_fresh by (apply Hacc; left).
  rewrite IH; [by rewrite <- app_assoc|by split|done|].
  intros k Hkd. rewrite fmap_app, not_elem_of_app. split.
  - apply Hacc. by right.
  - cbn. rewrite not_elem_of_cons. split; [by intros ->|apply not_elem_of_nil].
Qed.

Lemma storable_cells_short (l : list Student) :
  Forall storable l → Forall (Forall short) (cells <$> l).
Proof.
  intros H. apply Forall_fmap. eapply Forall_impl; [exact H|].
  intros s (n & i & g & -> & Hn & Hi & Hg). by repeat constructor.
Qed.

(** A manager made on the file that a keyed dictionary of storable
    students was saved to holds that dictionary again. *)
Lemma loaded_records_text d :
  keyed d → Forall storable d.*2 → loaded (Some (records_text d)) = Some d.
Proof.
  intros Hk Hs. unfold loaded.
  rewrite reader_records_text by by apply storable_cells_short.
  rewrite DictReader_cells, load_rows_keyed; [done..|].
  intros k _. apply not_elem_of_nil.
Qed.

Lemma StudentManager_loaded env path st d :
  loaded (files st !! path) = Some d →
  (is_Some (files st !! path) → open_fault env (opens st) = None) →
  ∃ st', StudentManager env path st = (Ok (), st')
         ∧ students st' = d ∧ files st' = files st ∧ filename st' = path
         ∧ stdin st' = stdin st ∧ stdout st' = stdout st.
Proof.
  intros Hl Ho. rewrite StudentManager_run.
  destruct (files st !! path) as [text|].
  - rewrite Ho by done. unfold loaded in Hl.
    destruct (reader text) as [rows []]; [done|]. simplify_eq.
    eexists. split; [reflexivity|]. done.
  - cbn in Hl. simplify_eq. eexists. split; [reflexivity|]. done.
Qed.

(** X10: persistence.  When the dictionary of the manager is keyed by the
    identifiers and every student is storable (no field is [None] or longer
    than the reader accepts), and the file can be opened, [_save_records]
    writes a file from which a new manager loads the same students in the
    same order. *)
Theorem saved_records_load_back env st :
  keyed (students st) →
  Forall storable (students st).*2 →
  open_fault env (opens st) = None →
  open_fault env (S (opens st)) = None →
  ∃ st1 st2,
    _save_records env st = (Ok (), st1)
    ∧ StudentManager env (filename st) st1 = (Ok (), st2)
    ∧ students st2 = students st
    ∧ files st2 = files st1
    ∧ files st1 !! filename st = Some (records_text (students st)).
Proof.
  intros Hk Hs Ho1 Ho2. rewrite save_records_run, Ho1.
  assert (files (saved st) !! filename st = Some (records_text (students st)))
    as Hfile by apply lookup_insert_eq.
  destruct (StudentManager_loaded env (filename st) (saved st) (students st))
    as (st2 & Hrun & Hd & Hf & _).
  { rewrite Hfile. by apply loaded_records_text. }
  { done. }
  by exists (saved st), st2.
Qed.

Lemma saved_records_load_back_witness :
  ∃ st1 st2,
    _save_records calm class_state = (Ok (), st1)
    ∧ StudentManager calm (filename class_state) st1 = (Ok (), st2)
    ∧ students st2 = students class_state
    ∧ files st2 = files st1
    ∧ files st1 !! filename class_state
      = Some (records_text (students class_state)).
Proof.
  apply (saved_records_load_back calm class_state).
  - split; [|by repeat constructor].
    cbn. repeat (apply NoDup_cons; split;
                 [rewrite ?elem_of_cons, elem_of_nil; intuition discriminate|]).
    apply NoDup_nil_2.
  - repeat constructor; eexists _, _, _; (split; [reflexivity|]);
      unfold short, Csv.field_size_limit; cbn; lia.
  - reflexivity.
  - reflexivity.
Defined.

(** A field that is [None] is not kept apart from an empty one: it is
    written as nothing and loaded as the empty string. *)
Example none_is_loaded_as_empty :
  records_text [(Some "a1", mkStudent None (Some "a1") (Some "A"))]
  = records_text [(Some "a1", mkStudent (Some "") (Some "a1") (Some "A"))]
  ∧ loaded (Some (records_text [(Some "a1", mkStudent None (Some "a1") (Some "A"))]))
    = Some [(Some "a1", mkStudent (Some "") (Some "a1") (Some "A"))].
Proof. split; vm_compute; reflexivity. Qed.

End roster_runs_facts.

(** ** The operations of the manager *)

Section roster_operations.
Import Roster.

Lemma dict_get_split {K V} `{EqDecision K} (k : K) (v0 : V) d :
  dict_get k d = Some v0 →
  ∃ d1 d2, d = d1 ++ (k, v0) :: d2 ∧ (k ∉ d1.*1)
           ∧ ∀ v, dict_set k v d = d1 ++ (k, v) :: d2.
Proof.
  induction d as [|[k' v'] d IH]; cbn [dict_get]; [done|].
  destruct (decide (k' = k)) as [->|Hne].
  - intros [= ->]. exists [], d. split; [done|]. split; [apply not_elem_of_nil|].
    intros v. cbn. by rewrite decide_True.
  - intros (d1 & d2 & -> & Hk & Hset)%IH.
    exists ((k', v') :: d1), d2. split; [done|]. split.
    + cbn. rewrite not_elem_of_cons. by split; [intros ->|].
    + intros v. cbn. by rewrite decide_False, Hset by done.
Qed.

(** X11: [add_student] either refuses or appends.  When the identifier is
    taken it returns [False] and changes nothing but the output: no file is
    opened.  Otherwise the student goes behind the students that are there,
    which stay as they are; then the file is written with the new
    dictionary and the result is [True], or, when the file cannot be
    opened, the file is left as it was and the error of [open] is
    raised. *)
Theorem add_student_refuses_or_appends env (s : Student) st :
  if dict_in (student_id s) (students st)
  then add_student env s st = (Ok false, printed (exists_line (student_id s)) st)
  else
    students (snd (add_student env s st)) = students st ++ [(student_id s, s)]
    ∧ match open_fault env (opens st) with
      | None =>
          fst (add_student env s st) = Ok true
          ∧ files (snd (add_student env s st))
            = <[filename st := records_text (students st ++ [(student_id s, s)])]>
                (files st)
      | Some msg =>
          fst (add_student env s st) = Err (OSError msg)
          ∧ files (snd (add_student env s st)) = files st
      end.
Proof.
  rewrite add_student_run.
  destruct (dict_in _ _) eqn:Hin; [done|].
  apply dict_in_false in Hin. cbn zeta.
  destruct (open_fault env (opens st)); cbn [fst snd];
    unfold printed, consumed, saved, opened, holding; cbn;
    by rewrite dict_set_fresh.
Qed.

(** X12: [update_student] changes one student in place.  An identifier
    that is not there gives [False] and changes nothing but the output.
    Otherwise the student under it gets the name and the grade that are
    given, keeps the ones that are [None], keeps its identifier and its
    place, and no other student changes; then the file is written with the
    new dictionary, or, when it cannot be opened, is left as it was while
    the error of [open] is raised. *)
Theorem update_student_changes_one_in_place env k new_name new_grade st :
  match dict_get k (students st) with
  | None =>
      update_student env k new_name new_grade st
      = (Ok false, printed (not_found_line k) st)
  | Some old =>
      ∃ d1 d2,
        students st = d1 ++ (k, old) :: d2
        ∧ (k ∉ d1.*1)
        ∧ students (snd (update_student env k new_name new_grade st))
          = d1 ++ (k, updated new_name new_grade old) :: d2
        ∧ match open_fault env (opens st) with
          | None =>
              fst (update_student env k new_name new_grade st) = Ok true
              ∧ files (snd (update_student env k new_name new_grade st))
                = <[filename st :=
                      records_text
                        (d1 ++ (k, updated new_name new_grade old) :: d2)]>
                    (files st)
          | Some msg =>
              fst (update_student env k new_name new_grade st) = Err (OSError msg)
              ∧ files (snd (update_student env k new_name new_grade st)) = files st
          end
  end.
Proof.
  rewrite update_student_run.
  destruct (dict_get k (students st)) as [old|] eqn:Hget; [|done].
  destruct (dict_get_split _ _ _ Hget) as (d1 & d2 & Hd & Hk & Hset).
  exists d1, d2. split; [done|]. split; [done|]. cbn zeta.
  destruct (open_fault env (opens st)); cbn [fst snd];
    unfold printed, consumed, saved, opened, holding; cbn;
    by rewrite Hset.
Qed.

(** X13: [delete_student] takes out one student.  An identifier that is
    not there gives [False] and changes nothing but the output.  Otherwise,
    in a dictionary keyed by the identifiers, the student under it goes and
    every other student stays in its place; then the file is written with
    the new dictionary, or, when it cannot be opened, is left as it was
    while the error of [open] is raised. *)
Theorem delete_student_takes_out_one env k st :
  keyed (students st) →
  if dict_in k (students st)
  then
    ∃ d1 old d2,
      students st = d1 ++ (k, old) :: d2
      ∧ students (snd (delete_student env k st)) = d1 ++ d2
      ∧ match open_fault env (opens st) with
        | None =>
            fst (delete_student env k st) = Ok true
            ∧ files (snd (delete_student env k st))
              = <[filename st := records_text (d1 ++ d2)]> (files st)
        | Some msg =>
            fst (delete_student env k st) = Err (OSError msg)
            ∧ files (snd (delete_student env k st)) = files st
        end
  else delete_student env k st = (Ok false, printed (not_found_line k) st).
Proof.
  intros [Hnd _]. rewrite delete_student_run.
  destruct (dict_in _ _) eqn:Hin; [|done].
  apply dict_in_true in Hin.
  destruct (dict_del_there k _ Hnd Hin) as (d1 & old & d2 & Hd & Hdel).
  exists d1, old, d2. split; [done|]. cbn zeta.
  destruct (open_fault env (opens st)); cbn [fst snd];
    unfold printed, consumed, saved, opened, holding; cbn;
    by rewrite Hdel.
Qed.

Lemma keyed_two_students : keyed two_students.
Proof.
  split; [|by repeat constructor].
  cbn. repeat (apply NoDup_cons; split;
               [rewrite ?elem_of_cons, elem_of_nil; intuition discriminate|]).
  apply NoDup_nil_2.
Qed.

Lemma delete_student_takes_out_one_witness :
  ∃ d1 old d2,
    students class_state = d1 ++ (Some "b2", old) :: d2
    ∧ students (snd (delete_student calm (Some "b2") class_state)) = d1 ++ d2
    ∧ fst (delete_student calm (Some "b2") class_state) = Ok true
    ∧ files (snd (delete_student calm (Some "b2") class_state))
      = <[filename class_state := records_text (d1 ++ d2)]> (files class_state).
Proof.
  apply (delete_student_takes_out_one calm (Some "b2") class_state).
  apply keyed_two_students.
Defined.

(** ** The dictionary stays keyed by the identifiers *)

Lemma maintains_keyed_add env s : maintains keyed_state (add_student env s).
Proof.
  intros st Hst. rewrite add_student_run. unfold keyed_state in *.
  destruct (dict_in _ _); [done|]. cbn zeta.
  destruct (open_fault env (opens st)); cbn; by apply keyed_set.
Qed.

Lemma keyed_updated d k new_name new_grade s :
  keyed d → dict_get k d = Some s →
  keyed (dict_set k (updated new_name new_grade s) d).
Proof.
  intros Hd Hs. rewrite <- (keyed_get d k s Hd Hs) at 1.
  by apply (keyed_set d (updated new_name new_grade s)).
Qed.

Lemma maintains_keyed_update env k new_name new_grade :
  maintains keyed_state (update_student env k new_name new_grade).
Proof.
  intros st Hst. rewrite update_student_run. unfold keyed_state in *.
  destruct (dict_get _ _) eqn:Hget; [|done]. cbn zeta.
  destruct (open_fault env (opens st)); cbn; by apply keyed_updated.
Qed.

Lemma maintains_keyed_delete env k : maintains keyed_state (delete_student env k).
Proof.
  intros st Hst. rewrite delete_student_run. unfold keyed_state in *.
  destruct (dict_in _ _); [|done]. cbn zeta.
  destruct (open_fault env (opens st)); cbn; by apply keyed_del.
Qed.

(** The three functions that talk to the user keep what the operations
    of the manager keep. *)
Lemma maintains_cli_add P env :
  of_manager P → (∀ s, maintains P (add_student env s)) →
  maintains P (cli_add_student env).
Proof.
  intros HP Hadd. unfold cli_add_student.
  apply maintains_bind; [by apply maintains_print|intros _].
  apply maintains_bind; [by apply maintains_get_input|intros name].
  apply maintains_bind; [by apply maintains_get_input|intros student_id].
  apply maintains_bind; [by apply maintains_get_input|intros grade].
  destruct (negb _); [by apply maintains_print|].
  apply maintains_bind; [apply Hadd|intros; apply maintains_ret].
Qed.

Lemma maintains_cli_update P env :
  of_manager P → (∀ k n g, maintains P (update_student env k n g)) →
  maintains P (cli_update_student env).
Proof.
  intros HP Hup. unfold cli_update_student.
  apply maintains_bind; [by apply maintains_print|intros _].
  apply maintains_bind; [by apply maintains_get_input|intros student_id].
  apply maintains_bind; [apply maintains_get|intros d].
  destruct (dict_get _ d); [|by apply maintains_print].
  apply maintains_bind; [by apply maintains_print|intros _].
  apply maintains_bind; [by apply maintains_get_input|intros new_name].
  apply maintains_bind; [by apply maintains_get_input|intros new_grade].
  apply maintains_bind; [apply Hup|intros; apply maintains_ret].
Qed.

Lemma maintains_cli_delete P env :
  of_manager P → (∀ k, maintains P (delete_student env k)) →
  maintains P (cli_delete_student env).
Proof.
  intros HP Hdel. unfold cli_delete_student.
  apply maintains_bind; [by apply maintains_print|intros _].
  apply maintains_bind; [by apply maintains_get_input|intros student_id].
  apply maintains_bind; [apply maintains_get|intros d].
  destruct (negb _); [by apply maintains_print|].
  apply maintains_bind; [by apply maintains_get_input|intros confirm].
  case_bool_decide; [|by apply maintains_print].
  apply maintains_bind; [apply Hdel|intros; apply maintains_ret].
Qed.

Lemma maintains_main_loop P fuel env :
  of_manager P →
  (∀ s, maintains P (add_student env s)) →
  (∀ k n g, maintains P (update_student env k n g)) →
  (∀ k, maintains P (delete_student env k)) →
  maintains P (main_loop fuel env).
Proof.
  intros HP Hadd Hup Hdel.
  induction fuel as [|fuel IH]; [apply maintains_throw|]. cbn [main_loop].
  apply maintains_bind; [by apply maintains_menu|intros _].
  apply maintains_bind; [by apply maintains_get_input|intros choice].
  repeat case_bool_decide.
  - apply maintains_bind; [by apply maintains_cli_add|done].
  - apply maintains_bind; [by apply maintains_list_students|done].
  - apply maintains_bind; [by apply maintains_cli_update|done].
  - apply maintains_bind; [by apply maintains_cli_delete|done].
  - by apply maintains_print.
  - apply maintains_bind; [by apply maintains_print|done].
Qed.

(** X14: identifiers stay unique.  Whatever the file holds, a new manager
    has no identifier twice and every student under its own identifier;
    [add_student], [update_student] and [delete_student] keep it so, whether
    the file can be written or not; and so it is at the end of every run
    of the program, whatever is typed and however the run ends. *)
Theorem manager_stays_keyed env :
  (∀ path st, keyed (students (snd (StudentManager env path st))))
  ∧ (∀ s, maintains keyed_state (add_student env s))
  ∧ (∀ k new_name new_grade,
       maintains keyed_state (update_student env k new_name new_grade))
  ∧ (∀ k, maintains keyed_state (delete_student env k))
  ∧ (∀ st, keyed (students (snd (main env st)))).
Proof.
  split; [apply keyed_StudentManager|].
  split; [apply maintains_keyed_add|].
  split; [apply maintains_keyed_update|].
  split; [apply maintains_keyed_delete|].
  intros st. unfold main. rewrite m_bind, print_run.
  rewrite m_bind.
  pose proof (keyed_StudentManager env DATA_FILE
                (consumed 0 ["🚀 Initializing Student Management System..."
                              +:+ String Py.NL ""] st)) as Hk.
  destruct (StudentManager env DATA_FILE _) as [[[]|e] st1]; [|done].
  rewrite m_bind. unfold get at 1. cbn beta iota.
  apply (maintains_main_loop keyed_state); try done.
  - apply keyed_of_manager.
  - apply maintains_keyed_add.
  - apply maintains_keyed_update.
  - apply maintains_keyed_delete.
Qed.

End roster_operations.

(** ** The table of [list_students] *)

Section roster_listing_facts.
Import Roster.

Lemma insert_by_id_perm x l : insert_by_id x l ≡ₚ x :: l.
Proof.
  induction l as [|y l IH]; cbn [insert_by_id]; [done|].
  destruct (String.leb _ _); [done|]. rewrite IH. apply Permutation_swap.
Qed.

Lemma sort_by_id_perm l : foldr insert_by_id [] l ≡ₚ l.
Proof.
  induction l as [|x l IH]; cbn [foldr]; [done|].
  by rewrite insert_by_id_perm, IH.
Qed.

Global Instance id_le_trans : Transitive id_le.
Proof. intros a b c Hab Hbc. unfold id_le in *. by etrans. Qed.

Lemma insert_by_id_sorted x l :
  StronglySorted id_le l → StronglySorted id_le (insert_by_id x l).
Proof.
  induction 1 as [|y l Hl IH Hy]; cbn [insert_by_id].
  { repeat constructor. }
  destruct (String.leb (default "" (student_id x)) (default "" (student_id y)))
    eqn:Hxy.
  - assert (id_le x y) as Hle by (unfold id_le, id_of, String.le; by rewrite Hxy).
    constructor; [by constructor|]. constructor; [done|].
    eapply Forall_impl; [exact Hy|]. intros z Hz. by etrans.
  - constructor; [done|].
    assert (id_le y x) as Hle.
    { unfold id_le, id_of. destruct (total String.le (default "" (student_id y))
                                       (default "" (student_id x))) as [|H]; [done|].
      unfold String.le in H. by rewrite Hxy in H. }
    rewrite (Forall_forall _ (insert_by_id x l)). intros z Hz.
    rewrite insert_by_id_perm in Hz. apply elem_of_cons in Hz as [->|Hz]; [done|].
    rewrite Forall_forall in Hy. by apply Hy.
Qed.

Lemma sort_by_id_sorted l : StronglySorted id_le (foldr insert_by_id [] l).
Proof.
  induction l as [|x l IH]; cbn [foldr]; [constructor|].
  by apply insert_by_id_sorted.
Qed.

Lemma sorted_by_id_presentable l :
  Forall presentable l → sorted_by_id l = Some (foldr insert_by_id [] l).
Proof.
  intros Hl. unfold sorted_by_id.
  assert (existsb (λ s, bool_decide (student_id s = None)) l = false) as ->.
  { induction Hl as [|s l [[i Hi] _] _ IH]; [done|]. cbn.
    rewrite IH, Hi. by rewrite bool_decide_eq_false_2. }
  by rewrite andb_false_r.
Qed.

Lemma sorted_by_id_perm l sorted :
  sorted_by_id l = Some sorted → sorted ≡ₚ l.
Proof.
  unfold sorted_by_id. destruct (_ && _); [done|].
  intros [= <-]. apply sort_by_id_perm.
Qed.

Lemma record_line_Some s :
  presentable s →
  ∃ line, record_line s = Some line ∧ line +:+ String Py.NL "" = table_line s.
Proof.
  destruct s as [[n|] [i|] [g|]]; intros ([? ?] & [? ?] & [? ?]); simplify_eq.
  eexists. split; reflexivity.
Qed.

Lemma record_line_None s : ¬ presentable s → record_line s = None.
Proof.
  destruct s as [[n|] [i|] [g|]]; intros Hs; try reflexivity.
  destruct Hs. repeat split; by eexists.
Qed.

Lemma print_records_run l st :
  Forall presentable l →
  print_records l st = (Ok (), consumed 0 (table_line <$> l) st).
Proof.
  intros Hl. revert st. induction Hl as [|s l Hs _ IH]; intros st.
  { destruct st. cbn. unfold consumed. cbn. by rewrite drop_0, app_nil_r. }
  cbn [print_records]. destruct (record_line_Some s Hs) as (line & -> & Hline).
  rewrite m_bind, print_run, IH, consumed_consumed, Hline. done.
Qed.

Lemma print_records_raises l st :
  Exists (λ s, ¬ presentable s) l → fst (print_records l st) = Err TypeError.
Proof.
  intros Hl. revert st. induction l as [|s l IH]; intros st.
  { by apply Exists_nil in Hl. }
  cbn [print_records].
  destruct (decide (presentable s)) as [Hs|Hs].
  - destruct (record_line_Some s Hs) as (line & -> & _).
    rewrite m_bind, print_run. apply IH.
    apply Exists_cons in Hl as [|]; done.
  - by rewrite record_line_None.
Qed.

Lemma list_students_run st :
  students st ≠ [] →
  list_students st
  = match sorted_by_id (students st).*2 with
    | None => (Err TypeError, consumed 0 table_head st)
    | Some sorted_students =>
        (print_records sorted_students;; print (times "=" 50))
          (consumed 0 table_head st)
    end.
Proof.
  intros Hd. unfold list_students. rewrite m_bind. unfold get at 1.
  cbn beta iota. destruct (students st) as [|kv d] eqn:Hst; [done|].
  rewrite <- Hst. clear Hst.
  do 5 (rewrite m_bind, print_run; cbn beta iota).
  rewrite !consumed_consumed. cbn [Nat.add app].
  destruct (sorted_by_id _); reflexivity.
Qed.

Lemma same_id_same_student (l : list Student) x1 x2 :
  NoDup (student_id <$> l) → x1 ∈ l → x2 ∈ l →
  student_id x1 = student_id x2 → x1 = x2.
Proof.
  intros Hnd H1 H2 Heq.
  apply list_elem_of_lookup in H1 as [i1 H1]. apply list_elem_of_lookup in H2 as [i2 H2].
  assert (i1 = i2) as ->; [|congruence].
  apply (NoDup_lookup _ _ _ (student_id x1) Hnd); rewrite list_lookup_fmap.
  - by rewrite H1.
  - by rewrite H2, Heq.
Qed.

Lemma keyed_ids d : keyed d → student_id <$> d.*2 = d.*1.
Proof.
  intros [_ Hid]. induction Hid as [|[k s] d Hk _ IH]; [done|].
  cbn in *. by rewrite Hk, IH.
Qed.

(** The order of the table does not depend on the order of the
    dictionary. *)
Lemma sort_by_id_unique (l1 l2 : list Student) :
  NoDup (student_id <$> l1) → Forall presentable l1 → l1 ≡ₚ l2 →
  foldr insert_by_id [] l1 = foldr insert_by_id [] l2.
Proof.
  intros Hnd Hp Hperm.
  apply (StronglySorted_unique_strong id_le); try apply sort_by_id_sorted.
  - intros x1 x2 H1 H2 H12 H21.
    rewrite sort_by_id_perm in H1. rewrite sort_by_id_perm, <- Hperm in H2.
    apply (same_id_same_student l1); try done.
    rewrite Forall_forall in Hp.
    destruct (Hp _ H1) as [[i1 Hi1] _], (Hp _ H2) as [[i2 Hi2] _].
    unfold id_le, id_of in *. rewrite Hi1, Hi2 in *. cbn in *.
    f_equal. by apply (anti_symm String.le).
  - by rewrite !sort_by_id_perm.
Qed.

(** X15: the table of [list_students].  When the manager holds a student
    and no field of a student is [None], [list_students] writes the head of
    the table, one line for every student and the closing rule, and
    returns; the lines show each student once, in ascending order of the
    identifiers, whatever the order of the dictionary: two dictionaries
    keyed by the identifiers that hold the same students give the same
    table. *)
Theorem list_students_shows_all_by_id st :
  students st ≠ [] →
  Forall presentable (students st).*2 →
  ∃ shown,
    list_students st
    = (Ok (), consumed 0 (table_head ++ (table_line <$> shown) ++ [table_foot]) st)
    ∧ shown ≡ₚ (students st).*2
    ∧ StronglySorted id_le shown
    ∧ ∀ st', keyed (students st) → students st' ≡ₚ students st →
             list_students st'
             = (Ok (), consumed 0 (table_head ++ (table_line <$> shown)
                                     ++ [table_foot]) st').
Proof.
  intros Hne Hp. exists (foldr insert_by_id [] (students st).*2).
  assert (∀ st', students st' ≠ [] → Forall presentable (students st').*2 →
            list_students st'
            = (Ok (), consumed 0 (table_head
                                  ++ (table_line <$> foldr insert_by_id [] (students st').*2)
                                  ++ [table_foot]) st')) as Hrun.
  { intros st' Hne' Hp'. rewrite list_students_run by done.
    rewrite sorted_by_id_presentable by done.
    rewrite m_bind, print_records_run by (by rewrite sort_by_id_perm).
    rewrite print_run, !consumed_consumed. cbn [Nat.add]. done. }
  split; [by apply Hrun|]. split; [apply sort_by_id_perm|].
  split; [apply sort_by_id_sorted|].
  intros st' Hk Hperm.
  assert ((students st').*2 ≡ₚ (students st).*2) as Hperm2 by by rewrite Hperm.
  rewrite Hrun.
  - rewrite (sort_by_id_unique (students st).*2 (students st').*2); [done| |done|done].
    rewrite keyed_ids by done. apply Hk.
  - intros Hnil. rewrite Hnil in Hperm. by apply Permutation_nil in Hperm.
  - by rewrite Hperm2.
Qed.

Lemma list_students_shows_all_by_id_witness :
  ∃ shown,
    list_students class_state
    = (Ok (), consumed 0 (table_head ++ (table_line <$> shown) ++ [table_foot])
                class_state)
    ∧ shown ≡ₚ (students class_state).*2
    ∧ StronglySorted id_le shown
    ∧ ∀ st', keyed (students class_state) →
             students st' ≡ₚ students class_state →
             list_students st'
             = (Ok (), consumed 0 (table_head ++ (table_line <$> shown)
                                     ++ [table_foot]) st').
Proof.
  apply (list_students_shows_all_by_id class_state).
  - discriminate.
  - repeat constructor; by eexists.
Defined.

Example class_table :
  stdout (snd (list_students class_state))
  = table_head
    ++ ["| a1     | Ann                  | A      |" +:+ String Py.NL "";
        "| b2     | Bob, Jr.             | B      |" +:+ String Py.NL "";
        table_foot].
Proof. vm_compute. reflexivity. Qed.

(** X16: a field that is [None] ends [list_students] in a [TypeError]:
    when the dictionary holds a student with such a field, the head of the
    table is written and the call raises, before or at the line of that
    student.  A student read, under the header of the three columns, from
    a row that has fewer fields has such a field. *)
Theorem list_students_raises_on_none st :
  Exists (λ s, ¬ presentable s) (students st).*2 →
  fst (list_students st) = Err TypeError
  ∧ (∃ lines, stdout (snd (list_students st)) = stdout st ++ table_head ++ lines)
  ∧ ∀ row, row ≠ [] → length row < length fieldnames →
      ∃ s, load_row [] (row_dict fieldnames row) = [(student_id s, s)]
           ∧ ¬ presentable s.
Proof.
  intros Hex.
  assert (fst (list_students st) = Err TypeError
          ∧ ∃ lines, stdout (snd (list_students st))
                     = stdout st ++ table_head ++ lines) as [H1 H2].
  {
    assert (students st ≠ []) as Hne.
    { intros Hnil. rewrite Hnil in Hex. by apply Exists_nil in Hex. }
    rewrite list_students_run by done.
    destruct (sorted_by_id _) as [sorted|] eqn:Hs.
    - rewrite m_bind.
      assert (Exists (λ s, ¬ presentable s) sorted) as Hex'.
      { apply sorted_by_id_perm in Hs. by rewrite Hs. }
      pose proof (print_records_raises sorted (consumed 0 table_head st) Hex') as Hr.
      assert (∀ l st0, ∃ lines, stdout (snd (print_records l st0)) = stdout st0 ++ lines)
        as Hout.
      { clear. induction l as [|s l IH]; intros st0.
        - exists []. rewrite app_nil_r. reflexivity.
        - cbn [print_records]. destruct (record_line s) as [line|].
          + rewrite m_bind, print_run.
            destruct (IH (consumed 0 [line +:+ String Py.NL ""] st0)) as [lines ->].
            eexists. cbn [stdout consumed]. by rewrite <- app_assoc.
          + exists []. rewrite app_nil_r. reflexivity. }
      destruct (Hout sorted (consumed 0 table_head st)) as [lines Hlines].
      destruct (print_records sorted _) as [[[]|e] st1]; [done|].
      cbn [fst snd] in *. split; [done|]. exists lines.
      rewrite Hlines. cbn [stdout consumed]. by rewrite <- app_assoc.
    - cbn [fst snd]. split; [done|]. exists []. by rewrite app_nil_r.
  }
  split; [done|]. split; [done|].
  intros [|i [|n [|g row]]] Hrow Hlen; [done| | |cbn in Hlen; lia].
  - exists (mkStudent None (Some i) None). split; [reflexivity|].
    by intros (_ & [x Hx] & _).
  - exists (mkStudent (Some n) (Some i) None). split; [reflexivity|].
    by intros (_ & _ & [x Hx]).
Qed.

Lemma list_students_raises_on_none_witness :
  fst (list_students short_row_state) = Err TypeError
  ∧ (∃ lines, stdout (snd (list_students short_row_state))
              = stdout short_row_state ++ table_head ++ lines)
  ∧ ∀ row, row ≠ [] → length row < length fieldnames →
      ∃ s, load_row [] (row_dict fieldnames row) = [(student_id s, s)]
           ∧ ¬ presentable s.
Proof.
  apply (list_students_raises_on_none short_row_state).
  apply Exists_cons_tl, Exists_cons_hd. intros (_ & _ & [g Hg]). discriminate.
Defined.

End roster_listing_facts.

(** ** Asking the user *)

Section roster_asking.
Import Roster.

Lemma quiet_refl st : quiet st st.
Proof. done. Qed.

Lemma quiet_consumed n pieces st : quiet st (consumed n pieces st).
Proof. done. Qed.

Lemma quiet_trans st1 st2 st3 : quiet st1 st2 → quiet st2 st3 → quiet st1 st3.
Proof.
  unfold quiet. intros (-> & -> & -> & ->) (-> & -> & -> & ->). done.
Qed.

Lemma closed_consumed P n pieces st : closed P → P st → P (consumed n pieces st).
Proof. intros HP. apply HP; [done|]. apply suffix_drop. Qed.

(** What [get_input] gives and what it leaves. *)
Lemma get_input_spec prompt allow_empty st :
  match get_input prompt allow_empty st with
  | (Ok a, st') =>
      (allow_empty = false → a ≠ "")
      ∧ (∃ n pieces, st' = consumed (S n) pieces st
                     ∧ ∃ line, stdin st !! n = Some line ∧ a = strip line)
  | (Err e, st') =>
      e = EOFError ∧ ∃ n pieces, st' = consumed n pieces st
  end.
Proof.
  destruct allow_empty.
  - rewrite get_input_any. destruct (stdin st) as [|line rest] eqn:Hin.
    + split; [done|]. by eexists _, _.
    + split; [done|]. eexists 0, _. split; [done|]. by exists line.
  - rewrite get_input_run.
    destruct (stdin st !! leading_blanks (stdin st)) as [line|] eqn:Hline.
    + split.
      * intros _. destruct (leading_blanks_spec (stdin st)) as (_ & _ & Hnb).
        specialize (Hnb line Hline). unfold blank in Hnb.
        by apply bool_decide_eq_false in Hnb.
      * eexists _, _. split; [done|]. by exists line.
    + split; [done|]. by eexists _, _.
Qed.

Lemma triple_ret {A} P (a : A) (Q : A → State → Prop) E :
  (∀ st, P st → Q a st) → triple P (mret a) Q E.
Proof. intros H st HP. by apply H. Qed.

Lemma triple_bind {A B} P (m : M A) (f : A → M B) Q R E :
  triple P m Q E → (∀ a, triple (Q a) (f a) R E) → triple P (m ≫= f) R E.
Proof.
  intros Hm Hf st HP. rewrite m_bind. specialize (Hm st HP).
  destruct (m st) as [[a|e] st1]; [by apply Hf|done].
Qed.

Lemma triple_weaken {A} (P P' : State → Prop) (m : M A) (Q Q' : A → State → Prop)
    (E E' : State → Prop) :
  triple P' m Q' E' →
  (∀ st, P st → P' st) → (∀ a st, Q' a st → Q a st) → (∀ st, E' st → E st) →
  triple P m Q E.
Proof.
  intros Hm HP HQ HE st Hst. specialize (Hm st (HP st Hst)).
  destruct (m st) as [[a|e] st1]; auto.
Qed.

Lemma triple_print P line E : closed P → triple P (print line) (λ _, P) E.
Proof. intros HP st Hst. rewrite print_run. by apply closed_consumed. Qed.

Lemma triple_get {A} P (f : State → A) E :
  triple P (get f) (λ a st, P st ∧ a = f st) E.
Proof. by intros st Hst. Qed.

Lemma triple_get_input P (L : string → Prop) prompt allow_empty :
  closed P →
  (∀ st, P st → Forall L (stdin st)) →
  triple P (get_input prompt allow_empty)
    (λ a st, P st ∧ answer_of L a ∧ (allow_empty = false → a ≠ "")) P.
Proof.
  intros HP HL st Hst. pose proof (get_input_spec prompt allow_empty st) as Hs.
  destruct (get_input prompt allow_empty st) as [[a|e] st1].
  - destruct Hs as (Ha & n & pieces & -> & line & Hline & ->).
    split; [by apply closed_consumed|]. split; [|done].
    exists line. split; [|done].
    specialize (HL st Hst). rewrite Forall_forall in HL.
    apply HL. by apply list_elem_of_lookup_2 in Hline.
  - destruct Hs as (_ & n & pieces & ->). by apply closed_consumed.
Qed.

(** X17: [get_input] on a prompt that must be answered skips the lines
    that are blank once stripped, asking again for each, and returns the
    first other line, stripped, which is not empty; when the input ends
    first it raises [EOFError].  When an empty answer is allowed it takes
    the next line, stripped.  The loop always ends: more fuel than lines
    gives the same run. *)
Theorem get_input_takes_the_first_answer prompt st :
  Forall (λ line, strip line = "") (take (leading_blanks (stdin st)) (stdin st))
  ∧ match stdin st !! leading_blanks (stdin st) with
    | Some line =>
        strip line ≠ ""
        ∧ get_input prompt false st
          = (Ok (strip line),
             consumed (S (leading_blanks (stdin st)))
               (asked prompt (leading_blanks (stdin st))) st)
    | None =>
        leading_blanks (stdin st) = length (stdin st)
        ∧ get_input prompt false st
          = (Err EOFError,
             consumed (leading_blanks (stdin st))
               (asked prompt (leading_blanks (stdin st))) st)
    end
  ∧ get_input prompt true st
    = match stdin st with
      | line :: _ => (Ok (strip line), consumed 1 [prompt_text prompt] st)
      | [] => (Err EOFError, consumed 0 [prompt_text prompt] st)
      end
  ∧ ∀ fuel allow_empty,
      length (stdin st) < fuel →
      get_input_loop fuel prompt allow_empty st = get_input prompt allow_empty st.
Proof.
  destruct (leading_blanks_spec (stdin st)) as (Hb & Hle & Hnb).
  split.
  { eapply Forall_impl; [exact Hb|]. intros line Hl. unfold blank in Hl.
    by apply bool_decide_eq_true in Hl. }
  split; [|split; [apply get_input_any|]].
  - rewrite get_input_run.
    destruct (stdin st !! leading_blanks (stdin st)) as [line|] eqn:Hline.
    + split; [|done]. specialize (Hnb line eq_refl). unfold blank in Hnb.
      by apply bool_decide_eq_false in Hnb.
    + split; [|done]. apply lookup_ge_None in Hline. lia.
  - intros fuel allow_empty. apply get_input_loop_fuel.
Qed.

Example get_input_example :
  get_input "Enter ID" false class_state
  = (Ok "b2",
     mkState (files class_state)
       ["   Enter ID: "; retry_text; "   Enter ID: "] ["y"] 0 "students.csv"
       two_students).
Proof. vm_compute. reflexivity. Qed.

End roster_asking.

(** ** The dialogues *)

Section roster_dialogue_facts.
Import Roster.

Lemma elem_stdin_consumed n pieces st line :
  line ∈ stdin (consumed n pieces st) → line ∈ stdin st.
Proof.
  cbn [stdin consumed]. intros [k Hk]%list_elem_of_lookup.
  rewrite lookup_drop in Hk. by apply list_elem_of_lookup_2 in Hk.
Qed.

Lemma get_run {A} (f : State → A) st : get f st = (Ok (f st), st).
Proof. done. Qed.

Ltac from_input H :=
  apply list_elem_of_lookup_2 in H; repeat apply elem_stdin_consumed in H.

Ltac ask H :=
  rewrite m_bind;
  match goal with
  | |- context [get_input ?p ?ae ?st] =>
      pose proof (get_input_spec p ae st) as H;
      destruct (get_input p ae st) as [[? | ?] ?]
  end.

(** X18: [cli_add_student] adds at most one student, and only a new one.
    Whatever is typed, the manager and the files are left as they were
    (when the input ends, the identifier is not alphanumeric, or it is
    taken), or one student goes behind the others: its name, identifier
    and grade are lines of the input, stripped and not empty, the
    identifier is alphanumeric and was not there, the grade is in upper
    case; the file then holds the new dictionary, unless it could not be
    opened. *)
Theorem cli_add_student_adds_at_most_one env st :
  quiet st (snd (cli_add_student env st))
  ∨ ∃ n i g,
      answer_of (λ line, line ∈ stdin st) n
      ∧ answer_of (λ line, line ∈ stdin st) i
      ∧ answer_of (λ line, line ∈ stdin st) g
      ∧ n ≠ "" ∧ g ≠ "" ∧ isalnum i = true
      ∧ (Some i ∉ (students st).*1)
      ∧ students (snd (cli_add_student env st))
        = students st ++ [(Some i, mkStudent (Some n) (Some i) (Some (upper g)))]
      ∧ match fst (cli_add_student env st) with
        | Ok _ =>
            files (snd (cli_add_student env st))
            = <[filename st :=
                  records_text (students (snd (cli_add_student env st)))]>
                (files st)
        | Err _ => files (snd (cli_add_student env st)) = files st
        end.
Proof.
  unfold cli_add_student. rewrite m_bind, print_run.
  ask Hn; [|left; by destruct Hn as (_ & ? & ? & ->)].
  destruct Hn as (Hn & kn & pn & -> & ln & Hln & ->).
  ask Hi; [|left; by destruct Hi as (_ & ? & ? & ->)].
  destruct Hi as (Hi & ki & pi & -> & li & Hli & ->).
  ask Hg; [|left; by destruct Hg as (_ & ? & ? & ->)].
  destruct Hg as (Hg & kg & pg & -> & lg & Hlg & ->).
  destruct (isalnum (strip li)) eqn:Halnum; cbn [negb].
  2:{ left. by rewrite print_run. }
  rewrite m_bind, add_student_run.
  cbn [students student_id consumed].
  destruct (dict_in _ _) eqn:Hin; [by left|].
  apply dict_in_false in Hin. right.
  exists (strip ln), (strip li), (strip lg).
  from_input Hln. from_input Hli. from_input Hlg.
  split; [by exists ln|]. split; [by exists li|]. split; [by exists lg|].
  split; [by apply Hn|]. split; [by apply Hg|]. split; [done|]. split; [done|].
  cbn zeta. cbn [opens consumed].
  destruct (open_fault env (opens st));
    cbn [fst snd students files filename consumed printed saved opened holding
         set_students set_opens];
    by rewrite dict_set_fresh.
Qed.

(** X19: in [cli_update_student] a field left blank keeps its value.  When
    the first line names a student that is there, the next two lines are
    the new name and the new grade: each is stripped; a line that is then
    empty leaves the field as it is, another name is taken as typed and
    another grade in upper case.  The student keeps its identifier and its
    place, and the others are as they were. *)
Theorem cli_update_student_keeps_blank_fields env st i_line n_line g_line rest old :
  stdin st = i_line :: n_line :: g_line :: rest →
  strip i_line ≠ "" →
  dict_get (Some (strip i_line)) (students st) = Some old →
  ∃ d1 d2,
    students st = d1 ++ (Some (strip i_line), old) :: d2
    ∧ students (snd (cli_update_student env st))
      = d1 ++ (Some (strip i_line),
               updated (entered n_line) (upper <$> entered g_line) old) :: d2
    ∧ stdin (snd (cli_update_student env st)) = rest
    ∧ (entered n_line = None → entered g_line = None →
       students (snd (cli_update_student env st)) = students st).
Proof.
  intros Hin Hi Hget.
  destruct (dict_get_split _ _ _ Hget) as (d1 & d2 & Hd & Hk & Hset).
  exists d1, d2. split; [done|].
  assert (blank i_line = false) as Hb by (unfold blank; by rewrite bool_decide_eq_false_2).
  destruct st as [f o inp n fn d]. cbn [stdin students] in Hin, Hget, Hd, Hset |- *.
  subst inp.
  unfold cli_update_student. rewrite m_bind, print_run.
  rewrite m_bind, get_input_run.
  cbn [stdin consumed drop leading_blanks]. rewrite Hb.
  cbn [lookup list_lookup]. cbn beta iota.
  rewrite m_bind, get_run. cbn [students consumed]. rewrite Hget.
  cbn beta iota. rewrite m_bind, print_run.
  rewrite m_bind, get_input_any. cbn [stdin consumed drop]. cbn beta iota.
  rewrite m_bind, get_input_any. cbn [stdin consumed drop]. cbn beta iota.
  rewrite m_bind, update_student_run. cbn [students consumed opens].
  rewrite Hget. cbn zeta.
  assert ((if bool_decide (strip n_line = "") then None else Some (strip n_line))
          = entered n_line) as -> by done.
  assert ((if bool_decide (strip g_line = "") then None
           else Some (upper (strip g_line)))
          = upper <$> entered g_line) as ->.
  { unfold entered. by case_bool_decide. }
  assert (updated None None old = old) as Hsame by by destruct old.
  destruct (open_fault env n);
    cbn [fst snd students stdin consumed printed saved opened holding
         set_students set_opens drop];
    rewrite Hset; (split; [reflexivity|]); (split; [reflexivity|]);
    intros -> ->; cbn [fmap option_fmap option_map]; by rewrite Hsame.
Qed.

Lemma cli_update_student_keeps_blank_fields_witness :
  ∃ d1 d2,
    students regrade_state = d1 ++ (Some (strip " a1"), ann) :: d2
    ∧ students (snd (cli_update_student calm regrade_state))
      = d1 ++ (Some (strip " a1"),
               updated (entered "") (upper <$> entered " b ") ann) :: d2
    ∧ stdin (snd (cli_update_student calm regrade_state)) = []
    ∧ (entered "" = None → entered " b " = None →
       students (snd (cli_update_student calm regrade_state))
       = students regrade_state).
Proof.
  apply (cli_update_student_keeps_blank_fields calm regrade_state " a1" "" " b " [] ann).
  - reflexivity.
  - vm_compute. discriminate.
  - vm_compute. reflexivity.
Defined.

Example regrade_result :
  students (snd (cli_update_student calm regrade_state))
  = [(Some "b2", bob); (Some "a1", mkStudent (Some "Ann") (Some "a1") (Some "B"))].
Proof. vm_compute. reflexivity. Qed.

(** X20: [cli_delete_student] deletes nothing without a yes.  When no line
    of the input is [Y] or [y] once stripped, the manager and the files are
    left as they were, whatever else is typed. *)
Theorem cli_delete_student_needs_a_yes env st :
  Forall (λ line, upper (strip line) ≠ "Y") (stdin st) →
  quiet st (snd (cli_delete_student env st)).
Proof.
  intros Hno. unfold cli_delete_student. rewrite m_bind, print_run.
  ask Hi; [|by destruct Hi as (_ & ? & ? & ->)].
  destruct Hi as (Hi & ki & pi & -> & li & Hli & ->).
  rewrite m_bind. unfold get at 1. cbn beta iota.
  destruct (dict_in _ _); cbn [negb]; [|by rewrite print_run].
  ask Hc; [|by destruct Hc as (_ & ? & ? & ->)].
  destruct Hc as (Hc & kc & pc & -> & lc & Hlc & ->).
  rewrite bool_decide_eq_false_2; [by rewrite print_run|].
  rewrite Forall_forall in Hno. apply Hno. by from_input Hlc.
Qed.

Lemma cli_delete_student_needs_a_yes_witness :
  quiet hesitant_state (snd (cli_delete_student calm hesitant_state)).
Proof.
  apply (cli_delete_student_needs_a_yes calm hesitant_state).
  repeat constructor; vm_compute; discriminate.
Defined.

Example delete_with_a_yes :
  students (snd (cli_delete_student calm class_state)) = [(Some "a1", ann)]
  ∧ loaded (files (snd (cli_delete_student calm class_state)) !! "students.csv")
    = Some [(Some "a1", ann)].
Proof. split; vm_compute; reflexivity. Qed.

End roster_dialogue_facts.

(** ** A whole session *)

Section roster_session_facts.
Import Roster.

Lemma length_lstrip l : length (lstrip l) ≤ length l.
Proof. induction l as [|c l IH]; cbn; [done|]. destruct (is_space c); cbn; lia. Qed.

Lemma strip_short s : short s → short (strip s).
Proof.
  unfold short, strip. rewrite length_string_of_list_ascii, length_rev.
  pose proof (length_lstrip (rev (lstrip (String.list_ascii_of_string s)))) as H1.
  pose proof (length_lstrip (String.list_ascii_of_string s)) as H2.
  rewrite length_rev in H1. rewrite length_list_ascii_of_string in H2. lia.
Qed.

Lemma length_upper s : String.length (upper s) = String.length s.
Proof. induction s; cbn; congruence. Qed.

Lemma upper_short s : short s → short (upper s).
Proof. unfold short. by rewrite length_upper. Qed.

Lemma answer_short a : answer_of short a → short a.
Proof. intros (line & Hl & ->). by apply strip_short. Qed.

Lemma settled_closed : closed settled.
Proof.
  intros st st' (Hf & _ & Hn & Hd) Hsuf (H1 & H2 & H3 & H4).
  unfold settled. rewrite Hf, Hn, Hd. split; [done|]. split; [done|].
  split; [done|]. destruct Hsuf as [l Hl]. rewrite Hl in H4.
  by apply Forall_app in H4 as [_ ?].
Qed.

Lemma storable_set (d : list (Value * Student)) k s :
  Forall storable d.*2 → storable s → Forall storable (dict_set k s d).*2.
Proof.
  intros Hd Hs. induction d as [|[k' s'] d IH]; cbn [dict_set fmap list_fmap snd].
  - by constructor.
  - apply Forall_cons in Hd as [Hs' Hd].
    destruct (decide (k' = k)); constructor; auto.
Qed.

Lemma storable_del (d : list (Value * Student)) k :
  Forall storable d.*2 → Forall storable (dict_del k d).*2.
Proof.
  intros Hd. induction d as [|[k' s'] d IH]; cbn [dict_del fmap list_fmap snd]; [done|].
  apply Forall_cons in Hd as [Hs' Hd].
  destruct (decide (k' = k)); [auto|]. constructor; auto.
Qed.

Lemma storable_updated new_name new_grade s :
  storable s →
  from_option short True new_name → from_option short True new_grade →
  storable (updated new_name new_grade s).
Proof.
  intros (n & i & g & -> & Hn & Hi & Hg) Hnn Hng.
  destruct new_name as [n'|], new_grade as [g'|]; cbn in *;
    eexists _, _, _; (split; [reflexivity|]); done.
Qed.

(** After a save that worked, the manager is settled. *)
Lemma settled_saved line d st :
  settled st → keyed d → Forall storable d.*2 →
  settled (printed line (saved (holding d st))).
Proof.
  intros (_ & _ & _ & Hin) Hk Hs. unfold settled.
  cbn [students files filename stdin printed consumed saved holding set_students].
  split; [done|]. split; [done|]. split; [|by rewrite drop_0].
  rewrite lookup_insert_eq. by apply loaded_records_text.
Qed.

Lemma triple_add_student env s :
  never_fails env → storable s →
  triple settled (add_student env s) (λ _, settled) settled.
Proof.
  intros Hnf Hs st Hst. rewrite add_student_run.
  destruct (dict_in _ _); [by apply (closed_consumed settled), Hst; apply settled_closed|].
  cbn zeta. rewrite Hnf. destruct Hst as (Hk & Hall & Hl & Hin).
  apply settled_saved; [done|by apply keyed_set|by apply storable_set].
Qed.

Lemma triple_update_student env k new_name new_grade :
  never_fails env →
  from_option short True new_name → from_option short True new_grade →
  triple settled (update_student env k new_name new_grade) (λ _, settled) settled.
Proof.
  intros Hnf Hn Hg st Hst. rewrite update_student_run.
  destruct (dict_get _ _) as [old|] eqn:Hget;
    [|by apply (closed_consumed settled), Hst; apply settled_closed].
  cbn zeta. rewrite Hnf. pose proof Hst as (Hk & Hall & Hl & Hin).
  apply settled_saved; [done|by apply keyed_updated|].
  apply storable_set; [done|]. apply storable_updated; [|done..].
  apply dict_get_Some in Hget. rewrite Forall_forall in Hall.
  apply Hall. by apply (list_elem_of_fmap_2 snd) in Hget.
Qed.

Lemma triple_delete_student env k :
  never_fails env →
  triple settled (delete_student env k) (λ _, settled) settled.
Proof.
  intros Hnf st Hst. rewrite delete_student_run.
  destruct (dict_in _ _);
    [|by apply (closed_consumed settled), Hst; apply settled_closed].
  cbn zeta. rewrite Hnf. pose proof Hst as (Hk & Hall & Hl & Hin).
  apply settled_saved; [done|by apply keyed_del|by apply storable_del].
Qed.

Lemma settled_input st : settled st → Forall short (stdin st).
Proof. by intros (_ & _ & _ & ?). Qed.

Lemma triple_ask prompt allow_empty :
  triple settled (get_input prompt allow_empty)
    (λ a st, settled st ∧ short a) settled.
Proof.
  eapply triple_weaken;
    [apply (triple_get_input settled short);
       [apply settled_closed|apply settled_input]| | |]; try done.
  intros a st (Hst & Ha & _). split; [done|by apply answer_short].
Qed.

Lemma triple_pure {A} (P : State → Prop) (φ : Prop) (m : M A) Q E :
  (φ → triple P m Q E) → triple (λ st, P st ∧ φ) m Q E.
Proof. intros H st [HP Hφ]. by apply H. Qed.

Lemma triple_then {A B} P (m : M A) (m' : M B) Q E :
  triple P m (λ _, P) E → triple P m' Q E → triple P (m;; m') Q E.
Proof. intros H1 H2. eapply triple_bind; [exact H1|]. intros a. exact H2. Qed.

Lemma triple_get_any {A} P (f : State → A) E : triple P (get f) (λ _, P) E.
Proof. by intros st Hst. Qed.

Lemma triple_cli_add env :
  never_fails env →
  triple settled (cli_add_student env) (λ _, settled) settled.
Proof.
  intros Hnf. unfold cli_add_student.
  apply triple_then; [apply triple_print, settled_closed|].
  eapply triple_bind; [apply triple_ask|intros a_name].
  apply triple_pure. intros Hname.
  eapply triple_bind; [apply triple_ask|intros a_id].
  apply triple_pure. intros Hid.
  eapply triple_bind; [apply triple_ask|intros a_grade].
  apply triple_pure. intros Hgrade.
  destruct (negb _); [apply triple_print, settled_closed|].
  eapply triple_bind; [apply triple_add_student; [done|]|].
  - eexists _, _, _. split; [reflexivity|]. split; [done|]. split; [done|].
    by apply upper_short.
  - intros ?. by apply triple_ret.
Qed.

Lemma triple_cli_update env :
  never_fails env →
  triple settled (cli_update_student env) (λ _, settled) settled.
Proof.
  intros Hnf. unfold cli_update_student.
  apply triple_then; [apply triple_print, settled_closed|].
  eapply triple_bind; [apply triple_ask|intros a_id].
  apply triple_pure. intros Hid.
  eapply triple_bind; [apply triple_get_any|intros d].
  destruct (dict_get _ d); [|apply triple_print, settled_closed].
  apply triple_then; [apply triple_print, settled_closed|].
  eapply triple_bind; [apply triple_ask|intros new_name].
  apply triple_pure. intros Hname.
  eapply triple_bind; [apply triple_ask|intros new_grade].
  apply triple_pure. intros Hgrade.
  eapply triple_bind; [apply triple_update_student; [done| |]|].
  - by case_bool_decide.
  - case_bool_decide; [done|]. by apply upper_short.
  - intros ?. by apply triple_ret.
Qed.

Lemma triple_cli_delete env :
  never_fails env →
  triple settled (cli_delete_student env) (λ _, settled) settled.
Proof.
  intros Hnf. unfold cli_delete_student.
  apply triple_then; [apply triple_print, settled_closed|].
  eapply triple_bind; [apply triple_ask|intros a_id].
  apply triple_pure. intros Hid.
  eapply triple_bind; [apply triple_get_any|intros d].
  destruct (negb _); [apply triple_print, settled_closed|].
  eapply triple_bind; [apply triple_ask|intros confirm].
  apply triple_pure. intros Hc.
  case_bool_decide; [|apply triple_print, settled_closed].
  eapply triple_bind; [by apply triple_delete_student|].
  intros ?. by apply triple_ret.
Qed.

Lemma triple_maintains {A} P (m : M A) :
  maintains P m → triple P m (λ _, P) P.
Proof.
  intros H st Hst. specialize (H st Hst). by destruct (m st) as [[a|e] st1].
Qed.

Lemma maintains_triple {A} P (m : M A) :
  triple P m (λ _, P) P → maintains P m.
Proof.
  intros H st Hst. specialize (H st Hst). by destruct (m st) as [[a|e] st1].
Qed.

(** [list_students] and [menu] only write. *)
Lemma print_records_writes l st :
  ∃ pieces, snd (print_records l st) = consumed 0 pieces st.
Proof.
  revert st. induction l as [|s l IH]; intros st.
  - exists []. destruct st. cbn. unfold consumed. cbn. by rewrite app_nil_r.
  - cbn [print_records]. destruct (record_line s) as [line|].
    + rewrite m_bind, print_run.
      destruct (IH (consumed 0 [line +:+ String Py.NL ""] st)) as [pieces ->].
      eexists. by rewrite consumed_consumed.
    + exists []. destruct st. cbn. unfold consumed. cbn. by rewrite app_nil_r.
Qed.

Lemma list_students_writes st :
  ∃ pieces, snd (list_students st) = consumed 0 pieces st.
Proof.
  destruct (decide (students st = [])) as [Hnil|Hne].
  - unfold list_students. rewrite m_bind, get_run, Hnil. cbn beta iota.
    rewrite print_run. by eexists.
  - rewrite list_students_run by done.
    destruct (sorted_by_id _) as [sorted|]; [|by eexists].
    rewrite m_bind.
    destruct (print_records_writes sorted (consumed 0 table_head st)) as [pieces Hp].
    destruct (print_records sorted _) as [[[]|e] st1]; cbn [snd] in Hp; subst st1.
    + rewrite print_run, !consumed_consumed. by eexists.
    + rewrite consumed_consumed. by eexists.
Qed.

Lemma menu_writes st : ∃ pieces, menu st = (Ok (), consumed 0 pieces st).
Proof.
  unfold menu. do 8 (rewrite m_bind, print_run; cbn beta iota).
  rewrite print_run, !consumed_consumed. by eexists.
Qed.

Lemma triple_main_loop fuel env :
  never_fails env →
  triple settled (main_loop fuel env) (λ _, settled) settled.
Proof.
  intros Hnf. induction fuel as [|fuel IH]; [by intros st Hst|].
  cbn [main_loop].
  apply triple_then.
  { intros st Hst. destruct (menu_writes st) as [pieces ->].
    by apply closed_consumed; [apply settled_closed|]. }
  eapply triple_bind; [apply triple_ask|intros choice].
  apply triple_pure. intros _.
  repeat case_bool_decide.
  - apply triple_then; [by apply triple_cli_add|done].
  - apply triple_then; [|done].
    apply triple_maintains. intros st Hst.
    destruct (list_students_writes st) as [pieces ->].
    by apply closed_consumed; [apply settled_closed|].
  - apply triple_then; [by apply triple_cli_update|done].
  - apply triple_then; [by apply triple_cli_delete|done].
  - apply triple_print, settled_closed.
  - apply triple_then; [apply triple_print, settled_closed|done].
Qed.

Lemma loaded_keyed content d : loaded content = Some d → keyed d.
Proof.
  unfold loaded. destruct content as [text|]; [|intros [= <-]; apply keyed_nil].
  destruct (reader text) as [rows []]; [done|]. intros [= <-].
  apply keyed_load_rows, keyed_nil.
Qed.

(** X21: what is on file at the end of a session is what the manager
    holds.  When the file can always be opened, no line typed is longer
    than a field may be, and the manager starts from no file or from a file
    that loads without a field that is [None], then, whatever the user
    does and however the session ends, a new manager made on the file
    would hold the students that the manager holds at the end, in the same
    order; the identifiers are pairwise distinct and no field is [None]. *)
Theorem session_leaves_file_and_manager_agreeing env st d :
  never_fails env →
  Forall short (stdin st) →
  loaded (files st !! DATA_FILE) = Some d →
  Forall storable d.*2 →
  loaded (files (snd (main env st)) !! DATA_FILE)
  = Some (students (snd (main env st)))
  ∧ keyed (students (snd (main env st)))
  ∧ Forall storable (students (snd (main env st))).*2
  ∧ ∀ fuel st0, settled st0 → settled (snd (main_loop fuel env st0)).
Proof.
  intros Hnf Hin Hl Hs.
  assert (∀ fuel st0, settled st0 → settled (snd (main_loop fuel env st0))) as Hloop.
  { intros fuel st0 H0. by apply maintains_triple, H0; apply triple_main_loop. }
  unfold main. rewrite m_bind, print_run. rewrite m_bind.
  destruct (StudentManager_loaded env DATA_FILE
              (consumed 0 ["🚀 Initializing Student Management System..."
                            +:+ String Py.NL ""] st) d)
    as (st1 & -> & Hd & Hf & Hn & Hi & _); [done|by intros _|].
  cbn beta iota. rewrite m_bind, get_run. cbn beta iota.
  assert (settled st1) as H1.
  { unfold settled. rewrite Hd, Hf, Hn, Hi. split; [by eapply loaded_keyed|].
    split; [done|]. split; [done|]. cbn. by rewrite drop_0. }
  pose proof (Hloop (S (length (stdin st1))) st1 H1) as (Hk' & Hs' & Hl' & _).
  assert (filename (snd (main_loop (S (length (stdin st1))) env st1)) = DATA_FILE)
    as Hname.
  { rewrite <- Hn.
    apply (maintains_main_loop (λ s, filename s = filename st1)); try done.
    - intros s s' Hfn _ H. by rewrite Hfn.
    - intros s0 s Hfn. rewrite add_student_run.
      destruct (dict_in _ _); [done|]. cbn zeta. by destruct (open_fault env _).
    - intros k n g s Hfn. rewrite update_student_run.
      destruct (dict_get _ _); [|done]. cbn zeta. by destruct (open_fault env _).
    - intros k s Hfn. rewrite delete_student_run.
      destruct (dict_in _ _); [|done]. cbn zeta. by destruct (open_fault env _). }
  rewrite Hname in Hl'. done.
Qed.

Lemma session_leaves_file_and_manager_agreeing_witness :
  loaded (files (snd (main calm busy_state)) !! DATA_FILE)
  = Some (students (snd (main calm busy_state)))
  ∧ keyed (students (snd (main calm busy_state)))
  ∧ Forall storable (students (snd (main calm busy_state))).*2
  ∧ ∀ fuel st0, settled st0 → settled (snd (main_loop fuel calm st0)).
Proof.
  apply (session_leaves_file_and_manager_agreeing calm busy_state []).
  - intros k. reflexivity.
  - repeat constructor; unfold short, Csv.field_size_limit; cbn; lia.
  - reflexivity.
  - constructor.
Defined.

Example busy_session :
  fst (main calm busy_state) = Ok ()
  ∧ students (snd (main calm busy_state))
    = [(Some "a1", mkStudent (Some "Ann") (Some "a1") (Some "C"))]
  ∧ stdin (snd (main calm busy_state)) = [].
Proof. vm_compute. repeat split. Qed.

End roster_session_facts.

(** ** Every session ends *)

Section roster_turns_facts.
Import Roster.

Lemma lines_left_closed n : closed (lines_left n).
Proof.
  intros st st' _ Hsuf H. unfold lines_left in *.
  apply suffix_length in Hsuf. lia.
Qed.

Lemma triple_ask_any P prompt allow_empty :
  closed P → triple P (get_input prompt allow_empty) (λ _, P) P.
Proof.
  intros HP. eapply triple_weaken;
    [apply (triple_get_input P (λ _, True)); [done|]| | |]; try done.
  - intros st _. by apply Forall_true.
  - by intros a st (Hst & _).
Qed.

Section any_closed.
Context (P : State → Prop) (HP : closed P) (env : Env).
Context (Hadd : ∀ s, triple P (add_student env s) (λ _, P) P).
Context (Hupdate : ∀ k n g, triple P (update_student env k n g) (λ _, P) P).
Context (Hdelete : ∀ k, triple P (delete_student env k) (λ _, P) P).

Lemma closed_cli_add : triple P (cli_add_student env) (λ _, P) P.
Proof.
  unfold cli_add_student.
  apply triple_then; [by apply triple_print|].
  eapply triple_bind; [by apply triple_ask_any|intros a_name].
  eapply triple_bind; [by apply triple_ask_any|intros a_id].
  eapply triple_bind; [by apply triple_ask_any|intros a_grade].
  destruct (negb _); [by apply triple_print|].
  eapply triple_bind; [apply Hadd|]. intros ?. by apply triple_ret.
Qed.

Lemma closed_cli_update : triple P (cli_update_student env) (λ _, P) P.
Proof.
  unfold cli_update_student.
  apply triple_then; [by apply triple_print|].
  eapply triple_bind; [by apply triple_ask_any|intros a_id].
  eapply triple_bind; [apply triple_get_any|intros d].
  destruct (dict_get _ d); [|by apply triple_print].
  apply triple_then; [by apply triple_print|].
  eapply triple_bind; [by apply triple_ask_any|intros new_name].
  eapply triple_bind; [by apply triple_ask_any|intros new_grade].
  eapply triple_bind; [apply Hupdate|]. intros ?. by apply triple_ret.
Qed.

Lemma closed_cli_delete : triple P (cli_delete_student env) (λ _, P) P.
Proof.
  unfold cli_delete_student.
  apply triple_then; [by apply triple_print|].
  eapply triple_bind; [by apply triple_ask_any|intros a_id].
  eapply triple_bind; [apply triple_get_any|intros d].
  destruct (negb _); [by apply triple_print|].
  eapply triple_bind; [by apply triple_ask_any|intros confirm].
  case_bool_decide; [|by apply triple_print].
  eapply triple_bind; [apply Hdelete|]. intros ?. by apply triple_ret.
Qed.

Lemma closed_list_students : triple P list_students (λ _, P) P.
Proof.
  apply triple_maintains. intros st Hst.
  destruct (list_students_writes st) as [pieces ->]. by apply closed_consumed.
Qed.

End any_closed.

(** The operations of the manager do not read. *)
Lemma lines_left_add env n s :
  triple (lines_left n) (add_student env s) (λ _, lines_left n) (lines_left n).
Proof.
  apply triple_maintains. intros st Hst. rewrite add_student_run.
  destruct (dict_in _ _); [done|]. cbn zeta. by destruct (open_fault env _).
Qed.

Lemma lines_left_update env n k new_name new_grade :
  triple (lines_left n) (update_student env k new_name new_grade)
    (λ _, lines_left n) (lines_left n).
Proof.
  apply triple_maintains. intros st Hst. rewrite update_student_run.
  destruct (dict_get _ _); [|done]. cbn zeta. by destruct (open_fault env _).
Qed.

Lemma lines_left_delete env n k :
  triple (lines_left n) (delete_student env k) (λ _, lines_left n) (lines_left n).
Proof.
  apply triple_maintains. intros st Hst. rewrite delete_student_run.
  destruct (dict_in _ _); [|done]. cbn zeta. by destruct (open_fault env _).
Qed.

(** A turn of the menu leaves fewer lines than it found. *)
Lemma turn_reads (m : M unit) n (st1 : State) :
  triple (lines_left n) m (λ _, lines_left n) (lines_left n) →
  length (stdin st1) ≤ n →
  length (stdin (snd (m st1))) ≤ n.
Proof.
  intros Hm Hst. specialize (Hm st1 Hst). by destruct (m st1) as [[[]|e] st2].
Qed.

(** X22: every session ends.  Each turn of the menu reads at least one
    line, so the loop needs no more turns than there are lines left: on
    any fuel above that number the run is the one on any other, and the
    model of [main] hands the loop enough. *)
Theorem every_session_ends env fuel fuel' st :
  length (stdin st) < fuel →
  length (stdin st) < fuel' →
  main_loop fuel env st = main_loop fuel' env st.
Proof.
  revert fuel' st. induction fuel as [|fuel IH]; intros fuel' st H1 H2; [lia|].
  destruct fuel' as [|fuel']; [lia|]. cbn [main_loop].
  rewrite !m_bind. destruct (menu_writes st) as [pieces ->].
  rewrite !m_bind.
  pose proof (get_input_spec "Enter your choice (1-5)" false (consumed 0 pieces st))
    as Hs.
  destruct (get_input _ _ _) as [[choice|e] st1]; [|done].
  destruct Hs as (_ & n & pieces' & -> & line & Hline & _).
  apply lookup_lt_Some in Hline. cbn [stdin consumed] in Hline.
  rewrite length_drop in Hline.
  set (st1 := consumed (S n) pieces' (consumed 0 pieces st)).
  assert (length (stdin st1) ≤ length (stdin st) - 1) as Hlen.
  { unfold st1. cbn [stdin consumed]. rewrite !length_drop. lia. }
  assert (∀ m : M unit,
            triple (lines_left (length (stdin st) - 1)) m
              (λ _, lines_left (length (stdin st) - 1))
              (lines_left (length (stdin st) - 1)) →
            (m;; main_loop fuel env) st1 = (m;; main_loop fuel' env) st1) as Hturn.
  { intros m Hm. rewrite !m_bind. pose proof (turn_reads m _ st1 Hm Hlen) as Hl.
    destruct (m st1) as [[[]|e] st2]; [|done]. cbn [snd] in Hl.
    apply IH; lia. }
  repeat case_bool_decide.
  - apply Hturn, closed_cli_add; [apply lines_left_closed|intros; apply lines_left_add].
  - apply Hturn, closed_list_students, lines_left_closed.
  - apply Hturn, closed_cli_update;
      [apply lines_left_closed|intros; apply lines_left_update].
  - apply Hturn, closed_cli_delete;
      [apply lines_left_closed|intros; apply lines_left_delete].
  - done.
  - apply Hturn, triple_print, lines_left_closed.
Qed.

Lemma every_session_ends_witness :
  main_loop 18 calm busy_state = main_loop 40 calm busy_state.
Proof.
  apply (every_session_ends calm 18 40 busy_state); cbn; lia.
Defined.

(** ** A file without the three columns *)

Lemma dict_set_elem {K V} `{EqDecision K} (k k' : K) (v : V) d :
  k ∈ (dict_set k' v d).*1 ↔ k = k' ∨ k ∈ d.*1.
Proof.
  rewrite dict_set_keys. case_bool_decide as Hk'.
  - split; [by right|]. by intros [->|].
  - rewrite elem_of_app, list_elem_of_singleton. tauto.
Qed.

Lemma dict_of_elem {K V} `{EqDecision K} (k : K) (items acc : list (K * V)) :
  k ∈ (foldl (λ d kv, dict_set kv.1 kv.2 d) acc items).*1
  ↔ k ∈ acc.*1 ∨ k ∈ items.*1.
Proof.
  revert acc. induction items as [|[k' v] items IH]; intros acc; cbn [foldl].
  - rewrite fmap_nil, elem_of_nil. tauto.
  - rewrite IH, dict_set_elem, fmap_cons, elem_of_cons. cbn. tauto.
Qed.

(** The keys of the dictionary of a row are the names of the header,
    however long the row is. *)
Lemma row_dict_elem (fieldnames row : list string) key :
  key ∈ (row_dict fieldnames row).*1 ↔ key ∈ fieldnames.
Proof.
  unfold row_dict, dict_of.
  assert (∀ (l : list string) (acc : list (string * Value)),
            key ∈ (foldl (λ d k, dict_set k None d) acc l).*1
            ↔ key ∈ acc.*1 ∨ key ∈ l) as Hrest.
  { induction l as [|k l IH]; intros acc; cbn [foldl].
    - rewrite elem_of_nil. tauto.
    - rewrite IH, dict_set_elem, elem_of_cons. tauto. }
  rewrite Hrest, dict_of_elem, fmap_nil, elem_of_nil.
  assert ((zip fieldnames (Some <$> row)).*1 = take (length row) fieldnames) as ->.
  { clear. revert row. induction fieldnames as [|f fs IH]; intros [|r row]; cbn; try done.
    by rewrite IH. }
  rewrite <- (take_drop (length row) fieldnames) at 3. rewrite elem_of_app. tauto.
Qed.

(** X23: a file whose header lacks one of the columns [id], [name] and
    [grade] gives an empty manager, whatever its rows hold: the rows are
    passed over and nothing is printed. *)
Theorem load_needs_the_three_columns env path st text :
  files st !! path = Some text →
  ¬ (Forall (λ column, column ∈ default [] (head (reader text).1)) fieldnames) →
  students (snd (StudentManager env path st)) = []
  ∧ stdout (snd (StudentManager env path st)) = stdout st.
Proof.
  intros Hfile Hcols. rewrite StudentManager_run, Hfile.
  destruct (open_fault env (opens st)); [done|]. cbn [snd students stdout].
  split; [|done].
  destruct (reader text).1 as [|header rows]; [done|]. cbn [head default] in Hcols.
  unfold DictReader.
  induction (filter (λ row, row ≠ []) rows) as [|row l IH] using rev_ind; [done|].
  rewrite fmap_app, foldl_app, IH. cbn [fmap list_fmap foldl]. unfold load_row.
  rewrite !dict_in_get. 
  destruct (decide ("id" ∈ header ∧ "name" ∈ header ∧ "grade" ∈ header)) as [(H1&H2&H3)|Hno].
  { destruct Hcols. by repeat constructor. }
  assert (dict_in "id" (row_dict header row) && dict_in "name" (row_dict header row)
          && dict_in "grade" (row_dict header row) = false) as Hf.
  { apply not_true_is_false. rewrite !andb_true_iff, !dict_in_true, !row_dict_elem.
    tauto. }
  rewrite !dict_in_get in Hf. by rewrite Hf.
Qed.

Lemma load_needs_the_three_columns_witness :
  students (snd (StudentManager calm "students.csv" no_grades_state)) = []
  ∧ stdout (snd (StudentManager calm "students.csv" no_grades_state))
    = stdout no_grades_state.
Proof.
  apply (load_needs_the_three_columns calm "students.csv" no_grades_state
           ("id,name" +:+ String Py.NL ("a1,Ann" +:+ String Py.NL ""))).
  - reflexivity.
  - assert (default [] (head (reader ("id,name" +:+ String Py.NL
                                          ("a1,Ann" +:+ String Py.NL ""))).1)
            = ["id"; "name"]) as -> by (vm_compute; reflexivity).
    unfold fieldnames. intros H. apply Forall_cons in H as [_ H].
    apply Forall_cons in H as [_ H]. apply Forall_cons in H as [H _].
    rewrite !elem_of_cons, elem_of_nil in H. intuition discriminate.
Defined.

End roster_turns_facts.
